(** * Technical indicator engine: a shallow embedding of
      [indicators/technical_indicators.py], [indicators/daily-indicator.py]
      and [indicators/weekly_strategy.py].

    Numbers.  A Python float is modelled as an optional rational: [None] is
    NaN (the "undefined" marker of the derived series), [Some q] is a finite
    value.  Arithmetic on these is exact; [==] is the equality of rationals.
    This embedding carries the properties that are about which branch is
    taken, which entries are defined and which formula produces a value.

    Where a property is about the value itself, rounding matters: the
    functions concerned ([wilders_smooth], [boll_bands]) are embedded a
    second time, in [Module Binary64], on IEEE binary64 numbers (the
    primitive floats, which round every operation to nearest, ties to even,
    as Python floats and numpy's float64 do).

    Rows.  The indicator functions read one column of every row through
    [float(data[j][col_idx])]; the column index is modelled by the
    projection it selects (for an OHLCV row, column 4 is [close]).

    Periods and lookbacks are natural numbers (the callers pass 9, 12, 14,
    20, 26 and [min(50, len)], [min(200, len)]); [wilders_smooth] and the
    summary of [calculate_adx] are modelled for a period of at least 1.

    The network fetch is outside the model: a runner is a function of what
    the fetch returns or raises.

    Limits of the exact embedding.  [round(x, 2)] is one rounding of the
    exact value to the closest hundredth, where the code rounds a binary64
    value (with Python's [round] for a Python float and numpy's for a numpy
    float): a reported decimal can differ in its last place.  Overflow to an
    infinite value is not modelled.  In the loop of [fetch_historical] the
    conversions of a timestamp to a date and of a quote to a float are taken
    to succeed. *)

From Stdlib Require Import QArith Qround Qabs ZArith Lia Lqa String Floats.
From stdpp Require Import base option list.

Local Open Scope Q_scope.

(** ** Floats with NaN *)

Abbreviation fl := (option Q) (only parsing).
Abbreviation NaN := (@None Q).

(** [pd.notna(x)]. *)
Definition notna (x : fl) : bool :=
  match x with Some _ => true | None => false end.

Definition lift2 (op : Q -> Q -> Q) (a b : fl) : fl :=
  match a, b with
  | Some x, Some y => Some (op x y)
  | _, _ => NaN
  end.

Definition fadd : fl -> fl -> fl := lift2 Qplus.
Definition fsub : fl -> fl -> fl := lift2 Qminus.
Definition fmul : fl -> fl -> fl := lift2 Qmult.
(** Division.  Every division of the engine is by a window length, by a
    period, or sits under a guard [!= 0]; the divisor is never zero. *)
Definition fdiv : fl -> fl -> fl := lift2 Qdiv.
Definition fabs (a : fl) : fl := option_map Qabs a.

Definition fnat (n : nat) : fl := Some (inject_Z (Z.of_nat n)).
Definition fint (z : Z) : fl := Some (inject_Z z).

(** [a > b]; a comparison with NaN is false. *)
Definition fgt (a b : fl) : bool :=
  match a, b with
  | Some x, Some y => negb (Qle_bool x y)
  | _, _ => false
  end.

(** [a != 0]; NaN is different from 0. *)
Definition fne0 (a : fl) : bool :=
  match a with
  | Some x => negb (Qeq_bool x 0)
  | None => true
  end.

(** Python's [max(a, b)]: the later argument wins only when it is strictly
    greater. *)
Definition pymax (a b : fl) : fl := if fgt b a then b else a.
Definition pymax3 (a b c : fl) : fl := pymax (pymax a b) c.

(** [round(x, 2)]: to the closest multiple of 1/100, ties to the even
    choice, taken on the exact value; NaN stays NaN. *)
Definition round_half_even (q : Q) : Z :=
  let f := Qfloor q in
  match Qcompare (q - inject_Z f) (1 # 2) with
  | Lt => f
  | Gt => (f + 1)%Z
  | Eq => if Z.even f then f else (f + 1)%Z
  end.

Definition round2 (q : Q) : Q := round_half_even (q * 100) # 100.
Definition fround2 (a : fl) : fl := option_map round2 a.

(** [np.sum] and [np.mean]; a NaN entry makes the result NaN, and the mean
    of no values is NaN. *)
Definition fsum (l : list fl) : fl := foldr fadd (Some 0) l.

Definition mean (l : list fl) : fl :=
  match l with
  | [] => NaN
  | _ => fdiv (fsum l) (fnat (length l))
  end.

(** [range(a, b)]. *)
Definition range (a b : nat) : list nat := seq a (b - a).

(** [x[i]] for a derived series; the engine only reads inside the bounds. *)
Definition at_ (l : list fl) (i : nat) : fl := default NaN (l !! i).

(** [float(data[j][col_idx])]; [j] is inside the bounds at every use. *)
Definition cell {R : Type} (col_idx : R -> fl) (data : list R) (j : nat) : fl :=
  from_option col_idx NaN (data !! j).

(** ** moving_avg *)

(** One turn of the loop of [moving_avg]: the value appended for index [i]. *)
Definition moving_avg_at {R : Type} (data : list R) (lookback : nat)
    (col_idx : R -> fl) (i : nat) : fl :=
  if (Z.of_nat i <? Z.of_nat lookback - 1)%Z then NaN
  else
    let window :=
      map (cell col_idx data)
          (List.filter
             (fun j => (j <? length data)%nat && notna (cell col_idx data j))
             (range (i + 1 - lookback) (i + 1))) in
    match window with [] => NaN | _ => mean window end.

Definition moving_avg {R : Type} (data : list R) (lookback : nat)
    (col_idx : R -> fl) : list fl :=
  match data with
  | [] => []
  | _ => map (moving_avg_at data lookback col_idx) (range 0 (length data))
  end.

(** ** ema *)

(** [k = 2 / (lookback + 1)] *)
Definition ema_k (lookback : nat) : Q := 2 / inject_Z (Z.of_nat lookback + 1).

(** The variables the loop of [ema] carries: [prev_ema] ([None] and NaN
    both fail [pd.notna] and are one value here) and the list built so far. *)
Record ema_state : Type := { prev_ema : fl; result : list fl }.

Definition ema_init : ema_state := {| prev_ema := NaN; result := [] |}.

(** One turn of the loop of [ema], at index [i]. *)
Definition ema_step {R : Type} (data : list R) (lookback : nat)
    (col_idx : R -> fl) (st : ema_state) (i : nat) : ema_state :=
  let k := ema_k lookback in
  if (Z.of_nat i <? Z.of_nat lookback - 1)%Z then
    {| prev_ema := prev_ema st; result := result st ++ [NaN] |}
  else if (Z.of_nat i =? Z.of_nat lookback - 1)%Z then
    let window :=
      map (cell col_idx data)
          (List.filter (fun j => notna (cell col_idx data j)) (range 0 (i + 1))) in
    let seed := match window with [] => NaN | _ => mean window end in
    {| prev_ema := seed; result := result st ++ [seed] |}
  else
    let current := cell col_idx data i in
    if notna current && notna (prev_ema st) then
      let next := fadd (fmul current (Some k))
                       (fmul (prev_ema st) (fsub (Some 1) (Some k))) in
      {| prev_ema := next; result := result st ++ [next] |}
    else
      {| prev_ema := prev_ema st; result := result st ++ [NaN] |}.

(** The state after the turns for the indices [0 .. n-1]. *)
Definition ema_run {R : Type} (data : list R) (lookback : nat)
    (col_idx : R -> fl) (n : nat) : ema_state :=
  fold_left (ema_step data lookback col_idx) (range 0 n) ema_init.

Definition ema {R : Type} (data : list R) (lookback : nat)
    (col_idx : R -> fl) : list fl :=
  match data with
  | [] => []
  | _ => result (ema_run data lookback col_idx (length data))
  end.

(** ** macd *)

(** [float(row[0])] for the one-column rows of [signal_data]. *)
Definition col0 (row : list fl) : fl := at_ row 0.

Definition macd_line {R : Type} (data : list R) (col_idx : R -> fl) : list fl :=
  let ema12 := ema data 12 col_idx in
  let ema26 := ema data 26 col_idx in
  map (fun i =>
         if notna (at_ ema12 i) && notna (at_ ema26 i)
         then fsub (at_ ema12 i) (at_ ema26 i) else NaN)
      (range 0 (length data)).

Definition signal_line {R : Type} (data : list R) (col_idx : R -> fl) : list fl :=
  let signal_data := map (fun val => [val]) (macd_line data col_idx) in
  ema signal_data 9 col0.

(** One turn of the last loop of [macd]: the value appended to [histogram]
    for index [i], from the two lists built before. *)
Definition histogram_at (macd_line signal_line : list fl) (i : nat) : fl :=
  if notna (at_ macd_line i) && notna (at_ signal_line i)
  then fsub (at_ macd_line i) (at_ signal_line i) else NaN.

Definition histogram {R : Type} (data : list R) (col_idx : R -> fl) : list fl :=
  let line := macd_line data col_idx in
  let signal := signal_line data col_idx in
  map (histogram_at line signal) (range 0 (length data)).

Definition macd {R : Type} (data : list R) (col_idx : R -> fl)
    : list fl * list fl * list fl :=
  (macd_line data col_idx, signal_line data col_idx, histogram data col_idx).

(** ** boll_bands *)

Section Bollinger.
(** [np.sqrt], which [np.std] applies to the mean squared deviation: the
    square root is not a rational function and is taken as given. *)
Variable sqrt : Q -> Q.

(** [np.std(window)]: the population standard deviation (the divisor is the
    window size). *)
Definition np_std (window : list fl) : fl :=
  let m := mean window in
  option_map sqrt (mean (map (fun x => fmul (fsub x m) (fsub x m)) window)).

(** One turn of the loop of [boll_bands]: the values appended to [upper],
    [middle] and [lower] for index [i]. *)
Definition boll_bands_at {R : Type} (data : list R) (col_idx : R -> fl)
    (period : nat) (std_dev : Q) (i : nat) : fl * fl * fl :=
  if (Z.of_nat i <? Z.of_nat period - 1)%Z then (NaN, NaN, NaN)
  else
    let window := map (cell col_idx data) (range (i + 1 - period) (i + 1)) in
    let window := List.filter notna window in
    if (length window =? 0)%nat then (NaN, NaN, NaN)
    else
      let sma := mean window in
      let std := np_std window in
      (fadd sma (fmul std (Some std_dev)), sma, fsub sma (fmul std (Some std_dev))).

Definition boll_bands {R : Type} (data : list R) (col_idx : R -> fl)
    (period : nat) (std_dev : Q) : list fl * list fl * list fl :=
  let rows := map (boll_bands_at data col_idx period std_dev) (range 0 (length data)) in
  (map (fun r => r.1.1) rows, map (fun r => r.1.2) rows, map (fun r => r.2) rows).

End Bollinger.

(** ** calculate_adx *)

(** A row [[date, open, high, low, close, volume]]. *)
Record ohlcv : Type :=
  { date : string; open : fl; high : fl; low : fl; close : fl; volume : fl }.

(** The dictionary [calculate_adx] returns. *)
Record adx_result : Type := { adx : fl; plus_di : fl; minus_di : fl }.

(** The three lists the first loop of [calculate_adx] builds, one entry per
    pair of consecutive rows [i-1], [i]. *)
Definition plus_dm_at (highs lows : list fl) (i : nat) : fl :=
  let high_diff := fsub (at_ highs i) (at_ highs (i - 1)) in
  let low_diff := fsub (at_ lows (i - 1)) (at_ lows i) in
  if fgt high_diff low_diff then pymax high_diff (Some 0) else Some 0.

Definition minus_dm_at (highs lows : list fl) (i : nat) : fl :=
  let high_diff := fsub (at_ highs i) (at_ highs (i - 1)) in
  let low_diff := fsub (at_ lows (i - 1)) (at_ lows i) in
  if fgt low_diff high_diff then pymax low_diff (Some 0) else Some 0.

Definition true_range_at (highs lows closes : list fl) (i : nat) : fl :=
  pymax3 (fsub (at_ highs i) (at_ lows i))
         (fabs (fsub (at_ highs i) (at_ closes (i - 1))))
         (fabs (fsub (at_ lows i) (at_ closes (i - 1)))).

Definition plus_dm (data : list ohlcv) : list fl :=
  let highs := map high data in
  let lows := map low data in
  map (plus_dm_at highs lows) (range 1 (length highs)).

Definition minus_dm (data : list ohlcv) : list fl :=
  let highs := map high data in
  let lows := map low data in
  map (minus_dm_at highs lows) (range 1 (length highs)).

Definition true_ranges (data : list ohlcv) : list fl :=
  let highs := map high data in
  let lows := map low data in
  let closes := map close data in
  map (true_range_at highs lows closes) (range 1 (length highs)).

(** One turn of the loop of [wilders_smooth]:
    [smoothed[i] = (smoothed[i-1] * (p - 1) + series[i]) / p]. *)
Definition wilders_step (series : list fl) (p : nat) (smoothed : list fl)
    (i : nat) : list fl :=
  <[ i := fdiv (fadd (fmul (at_ smoothed (i - 1)) (fint (Z.of_nat p - 1)))
                     (at_ series i))
               (fnat p) ]> smoothed.

(** [wilders_smooth(series, p)], for a period [p >= 1] (with [p = 0] the
    write [smoothed[p-1]] of the code wraps around to the last entry, and
    the recurrence divides by zero: this is outside the model). *)
Definition wilders_smooth (series : list fl) (p : nat) : list fl :=
  let smoothed := replicate (length series) NaN in
  if (length series <? p)%nat then smoothed
  else
    let smoothed := <[ (p - 1)%nat := mean (take p series) ]> smoothed in
    fold_left (wilders_step series p) (range p (length series)) smoothed.

(** One turn of the second loop of [calculate_adx]: the values appended to
    [plus_di], [minus_di] and [dx] for index [i]. *)
Definition di_at (smooth_tr smooth_pdm smooth_mdm : list fl) (i : nat)
    : fl * fl * fl :=
  if notna (at_ smooth_tr i) && fne0 (at_ smooth_tr i) then
    let pdi := fmul (fdiv (at_ smooth_pdm i) (at_ smooth_tr i)) (Some 100) in
    let mdi := fmul (fdiv (at_ smooth_mdm i) (at_ smooth_tr i)) (Some 100) in
    let sum_di := fadd pdi mdi in
    (pdi, mdi,
     if fne0 sum_di then fmul (fdiv (fabs (fsub pdi mdi)) sum_di) (Some 100)
     else Some 0)
  else (NaN, NaN, NaN).

Definition di_rows (data : list ohlcv) (period : nat) : list (fl * fl * fl) :=
  let smooth_tr := wilders_smooth (true_ranges data) period in
  let smooth_pdm := wilders_smooth (plus_dm data) period in
  let smooth_mdm := wilders_smooth (minus_dm data) period in
  map (di_at smooth_tr smooth_pdm smooth_mdm) (range 0 (length smooth_tr)).

(** The series [plus_di], [minus_di] and [dx] of [calculate_adx]. *)
Definition plus_di_series (data : list ohlcv) (period : nat) : list fl :=
  map (fun r => r.1.1) (di_rows data period).
Definition minus_di_series (data : list ohlcv) (period : nat) : list fl :=
  map (fun r => r.1.2) (di_rows data period).
Definition dx_series (data : list ohlcv) (period : nat) : list fl :=
  map (fun r => r.2) (di_rows data period).

(** [adx_smooth = wilders_smooth(dx, period)] *)
Definition adx_smooth (data : list ohlcv) (period : nat) : list fl :=
  wilders_smooth (dx_series data period) period.

Definition calculate_adx (data : list ohlcv) (period : nat) : adx_result :=
  if (length data <? period + 1)%nat then
    {| adx := NaN; plus_di := NaN; minus_di := NaN |}
  else
    let plus_di := plus_di_series data period in
    let minus_di := minus_di_series data period in
    let adx_smooth := adx_smooth data period in
    let last_idx := (length adx_smooth - 1)%nat in
    {| adx := if notna (at_ adx_smooth last_idx)
              then fround2 (at_ adx_smooth last_idx) else NaN;
       plus_di := if (last_idx + period - 1 <? length plus_di)%nat
                  then fround2 (at_ plus_di (last_idx + period - 1)) else NaN;
       minus_di := if (last_idx + period - 1 <? length minus_di)%nat
                   then fround2 (at_ minus_di (last_idx + period - 1)) else NaN |}.

(** ** The strategy runners *)

(** The Python values that occur in the rows the runners return: a message
    string, [None], a float (finite or NaN), or an infinite float (which only
    an unguarded numpy division by zero can produce). *)
Inductive pyval : Type :=
  | PStr (s : string)
  | PNone
  | PFloat (x : fl)
  | PInf (negative : bool).

(** Code that may raise: [inl msg] is an exception [e] with [str(e) = msg]. *)
Definition M (A : Type) : Type := (string + A)%type.
Definition ret {A : Type} (a : A) : M A := inr a.
Definition raise {A : Type} (msg : string) : M A := inl msg.
Definition bind {A B : Type} (m : M A) (f : A -> M B) : M B :=
  match m with inl e => inl e | inr a => f a end.

Notation "'let*' x ':=' m 'in' k" := (bind m (fun x => k))
  (at level 10, x name, m at level 100, k at level 200).

(** [except Exception as e: return [[f"ERROR: {str(e)}"]]] *)
Definition catch_all (body : M (list (list pyval))) : list (list pyval) :=
  match body with
  | inl e => [[PStr ("ERROR: " ++ e)]]
  | inr rows => rows
  end.

(** [round(x, 2) if not pd.isna(x) else None] *)
Definition rounded (x : fl) : pyval :=
  match x with
  | Some q => PFloat (Some (round2 q))
  | None => PNone
  end.

(** The four percentage changes of [run_strategy] (daily-indicator.py). *)
Definition price_ten_day_change (price ten_day_price : fl) : fl :=
  if fne0 ten_day_price
  then fmul (fdiv (fsub price ten_day_price) ten_day_price) (Some 100)
  else Some 0.

Definition price_50dma_change (price dma50_i : fl) : fl :=
  if notna dma50_i && fne0 dma50_i
  then fmul (fdiv (fsub price dma50_i) dma50_i) (Some 100)
  else Some 0.

Definition price_200dma_change (price dma200_i : fl) : fl :=
  if notna dma200_i && fne0 dma200_i
  then fmul (fdiv (fsub price dma200_i) dma200_i) (Some 100)
  else Some 0.

Definition dma50_200dma_change (dma50_i dma200_i : fl) : fl :=
  if notna dma200_i && notna dma50_i && fne0 dma200_i
  then fmul (fdiv (fsub dma50_i dma200_i) dma200_i) (Some 100)
  else Some 0.

(** [((a - b) / b) * 100] on Python floats: a zero divisor raises
    [ZeroDivisionError]. *)
Definition py_pct (a b : fl) : M fl :=
  match b with
  | Some y =>
      if Qeq_bool y 0 then raise "float division by zero"
      else ret (fmul (fdiv (fsub a b) b) (Some 100))
  | None => ret NaN
  end.

(** [((a - b) / b) * 100] where [b] is a numpy float: a zero divisor does
    not raise, the quotient is infinite (NaN for 0/0). *)
Definition np_pct (a b : fl) : pyval :=
  match a, b with
  | Some x, Some y =>
      if Qeq_bool y 0 then
        match Qcompare (x - y) 0 with
        | Eq => PFloat NaN
        | Gt => PInf false
        | Lt => PInf true
        end
      else PFloat (Some ((x - y) / y * 100))
  | _, _ => PFloat NaN
  end.

(** The percentage changes of [run_strategy_w] (weekly_strategy.py), in
    the order of the row. *)
Definition price_ten_day_change_w (price ten_day_price : fl) : M pyval :=
  let* x := py_pct price ten_day_price in ret (PFloat x).

Definition price_50dma_change_w (price dma50_i : fl) : pyval :=
  if notna dma50_i then np_pct price dma50_i else PFloat NaN.

Definition price_200dma_change_w (price dma200_i : fl) : pyval :=
  if notna dma200_i then np_pct price dma200_i else PFloat NaN.

Definition dma50_200dma_change_w (dma50_i dma200_i : fl) : pyval :=
  if notna dma50_i && notna dma200_i then np_pct dma50_i dma200_i
  else PFloat NaN.

(** [int(x)]: truncation towards zero. *)
Definition py_int (q : Q) : Q :=
  inject_Z (if Qle_bool 0 q then Qfloor q else Qceiling q).

(** [all(row[['Open', 'High', 'Low', 'Close', 'Volume']] > 0)] *)
Definition all_positive (row : ohlcv) : bool :=
  fgt (open row) (Some 0) && fgt (high row) (Some 0) && fgt (low row) (Some 0)
  && fgt (close row) (Some 0) && fgt (volume row) (Some 0).

Section Strategies.
Variable sqrt : Q -> Q.

(** The row [run_strategy] builds from a non-empty [hist]. *)
Definition output_row (hist : list ohlcv) : list pyval :=
  let dma50 := moving_avg hist (Nat.min 50 (length hist)) close in
  let dma200 := moving_avg hist (Nat.min 200 (length hist)) close in
  let '(macd_line, macd_signal, macd_hist) := macd hist close in
  let '(bb_upper, bb_middle, bb_lower) := boll_bands sqrt hist close 20 2 in
  let adx_results := calculate_adx hist 14 in
  let i := (length hist - 1)%nat in
  let i_10 := if (10 <=? i)%nat then (i - 10)%nat else 0%nat in
  let price := cell close hist i in
  let ten_day_price := cell close hist i_10 in
  [ rounded price;
    rounded ten_day_price;
    rounded (at_ dma50 i);
    rounded (at_ dma200 i);
    rounded (price_ten_day_change price ten_day_price);
    rounded (price_50dma_change price (at_ dma50 i));
    rounded (price_200dma_change price (at_ dma200 i));
    rounded (dma50_200dma_change (at_ dma50 i) (at_ dma200 i));
    rounded (at_ macd_line i);
    rounded (at_ macd_signal i);
    rounded (at_ macd_hist i);
    rounded (at_ bb_upper i);
    rounded (at_ bb_middle i);
    rounded (at_ bb_lower i);
    rounded (adx adx_results);
    rounded (plus_di adx_results);
    rounded (minus_di adx_results) ].

(** [run_strategy(symbol)], as a function of what [fetch_historical]
    does: it raises, or returns the list [hist]. *)
Definition run_strategy (fetch_historical : M (list ohlcv)) : list (list pyval) :=
  catch_all
    (let* hist := fetch_historical in
     match hist with
     | [] => raise "No data"
     | _ => ret [output_row hist]
     end).

(** The row [run_strategy_w] builds from a non-empty [data]; the first
    percentage change divides Python floats and may raise. *)
Definition output_row_w (data : list ohlcv) : M (list pyval) :=
  let dma50 := moving_avg data (Nat.min 50 (length data)) close in
  let dma200 := moving_avg data (Nat.min 200 (length data)) close in
  let '(macd_line, macd_signal, macd_hist) := macd data close in
  let '(bb_upper, bb_middle, bb_lower) := boll_bands sqrt data close 20 2 in
  let adx_results := calculate_adx data 14 in
  let i := (length data - 1)%nat in
  let i_10 := Nat.max (i - 10) 0 in
  let price := cell close data i in
  let ten_day_price := cell close data i_10 in
  let* c4 := price_ten_day_change_w price ten_day_price in
  ret [ PFloat price;
        PFloat ten_day_price;
        PFloat (if notna (at_ dma50 i) then at_ dma50 i else NaN);
        PFloat (if notna (at_ dma200 i) then at_ dma200 i else NaN);
        c4;
        price_50dma_change_w price (at_ dma50 i);
        price_200dma_change_w price (at_ dma200 i);
        dma50_200dma_change_w (at_ dma50 i) (at_ dma200 i);
        PFloat (if notna (at_ macd_line i) then at_ macd_line i else NaN);
        PFloat (if notna (at_ macd_signal i) then at_ macd_signal i else NaN);
        PFloat (if notna (at_ macd_hist i) then at_ macd_hist i else NaN);
        PFloat (if notna (at_ bb_upper i) then at_ bb_upper i else NaN);
        PFloat (if notna (at_ bb_middle i) then at_ bb_middle i else NaN);
        PFloat (if notna (at_ bb_lower i) then at_ bb_lower i else NaN);
        PFloat (adx adx_results);
        PFloat (plus_di adx_results);
        PFloat (minus_di adx_results) ].

(** The rows [run_strategy_w] keeps of the fetched frame. *)
Definition weekly_data (hist : list ohlcv) : list ohlcv :=
  map (fun row =>
         {| date := date row; open := open row; high := high row;
            low := low row; close := close row;
            volume := option_map py_int (volume row) |})
      (List.filter all_positive hist).

(** [run_strategy_w(symbol)], as a function of what [ticker.history]
    does: it raises, or returns the frame [hist]. *)
Definition run_strategy_w (history : M (list ohlcv)) : list (list pyval) :=
  catch_all
    (let* hist := history in
     match hist with
     | [] => ret [[PStr "ERROR: No data"]]
     | _ =>
         match weekly_data hist with
         | [] => ret [[PStr "ERROR: No valid trading days"]]
         | data => let* row := output_row_w data in ret [row]
         end
     end).

End Strategies.

(** ** fetch_historical *)

(** The five arrays of [chart['indicators']['quote'][0]]; an entry is a
    number or a JSON null ([None]).  A missing or null array counts as the
    empty list (both are falsy). *)
Record quote_arrays : Type :=
  { q_open : list (option Q); q_high : list (option Q); q_low : list (option Q);
    q_close : list (option Q); q_volume : list (option Q) }.

(** [quotes.get(k, [None])[i] if quotes.get(k) else 0] *)
Definition quote_at (arr : list (option Q)) (i : nat) : M (option Q) :=
  match arr with
  | [] => ret (Some 0)
  | _ =>
      match arr !! i with
      | Some v => ret v
      | None => raise "list index out of range"
      end
  end.

(** [float(x) if x else 0]: a null and a zero both give 0. *)
Definition float_or_0 (x : option Q) : Q :=
  match x with
  | Some q => if Qeq_bool q 0 then 0 else q
  | None => 0
  end.

(** [x > 0] *)
Definition Qpositive (x : Q) : bool := negb (Qle_bool x 0).

(** A loop whose body may raise. *)
Fixpoint foldM {A : Type} (f : A -> nat -> M A) (idx : list nat) (a : A) : M A :=
  match idx with
  | [] => ret a
  | i :: idx' => let* a' := f a i in foldM f idx' a'
  end.

Section Fetch.
(** [datetime.utcfromtimestamp(t).strftime("%Y-%m-%d")] *)
Variable format_date : Z -> string.

(** One turn of the loop of [fetch_historical], at index [i]. *)
Definition workday_step (timestamps : list Z) (quotes : quote_arrays)
    (result : list ohlcv) (i : nat) : M (list ohlcv) :=
  let formatted_date := format_date (default 0%Z (timestamps !! i)) in
  let* open_price := quote_at (q_open quotes) i in
  let* high_price := quote_at (q_high quotes) i in
  let* low_price := quote_at (q_low quotes) i in
  let* close_price := quote_at (q_close quotes) i in
  let* volume := quote_at (q_volume quotes) i in
  let open_price := float_or_0 open_price in
  let high_price := float_or_0 high_price in
  let low_price := float_or_0 low_price in
  let close_price := float_or_0 close_price in
  let volume := float_or_0 volume in
  if Qpositive open_price && Qpositive high_price && Qpositive low_price
     && Qpositive close_price && Qpositive volume
  then ret (result ++ [ {| date := formatted_date; open := Some open_price;
                           high := Some high_price; low := Some low_price;
                           close := Some close_price; volume := Some volume |} ])
  else ret result.

(** [fetch_historical(symbol, range_period)], as a function of what the
    request and the validation of its answer give: they raise, or return
    the timestamps and the quote arrays of the chart.  Whatever is raised
    is raised again with the prefix of the handler. *)
Definition fetch_historical (chart : M (list Z * quote_arrays)) : M (list ohlcv) :=
  match
    (let* c := chart in
     foldM (workday_step c.1 c.2) (range 0 (length c.1)) [])
  with
  | inl e => raise ("Failed to fetch historical data: " ++ e)
  | inr result => ret result
  end.

End Fetch.

(** ** The value-sensitive functions in binary64 *)

(** [wilders_smooth] and [boll_bands] once more, on binary64 numbers: every
    [+], [-], [*], [/] and square root below is the IEEE operation, rounded
    to nearest with ties to even; NaN is the float NaN. *)
Module Binary64.

(** [pd.notna(x)] *)
Definition notna (x : float) : bool := negb (PrimFloat.is_nan x).

(** The float of a window size or of a period (exact: they are far below
    [2^53]). *)
Definition of_nat (n : nat) : float :=
  PrimFloat.of_uint63 (Uint63.of_Z (Z.of_nat n)).

(** [x[i]] for a derived series, read inside the bounds. *)
Definition at_ (l : list float) (i : nat) : float :=
  default PrimFloat.nan (l !! i).

(** [float(data[j][col_idx])] *)
Definition cell {R : Type} (col_idx : R -> float) (data : list R) (j : nat)
    : float :=
  from_option col_idx PrimFloat.nan (data !! j).

Section Numpy.
(** The sum numpy takes of the entries of an array ([np.add.reduce]).  The
    order in which numpy adds them is its own (pairwise, in blocks) and is
    taken as given. *)
Variable np_sum : list float -> float.

(** [np.mean(l)]: the sum divided by the number of entries. *)
Definition mean (l : list float) : float :=
  (np_sum l / of_nat (length l))%float.

(** [np.std(window)]: the square root of the mean of the squared deviations
    from the mean (the divisor is the window size). *)
Definition np_std (window : list float) : float :=
  let arrmean := mean window in
  PrimFloat.sqrt
    (mean (map (fun x => ((x - arrmean) * (x - arrmean))%float) window)).

(** One turn of the loop of [boll_bands]. *)
Definition boll_bands_at {R : Type} (data : list R) (col_idx : R -> float)
    (period : nat) (std_dev : float) (i : nat) : float * float * float :=
  if (Z.of_nat i <? Z.of_nat period - 1)%Z
  then (PrimFloat.nan, PrimFloat.nan, PrimFloat.nan)
  else
    let window := map (cell col_idx data) (range (i + 1 - period) (i + 1)) in
    let window := List.filter notna window in
    if (length window =? 0)%nat
    then (PrimFloat.nan, PrimFloat.nan, PrimFloat.nan)
    else
      let sma := mean window in
      let std := np_std window in
      ((sma + std * std_dev)%float, sma, (sma - std * std_dev)%float).

Definition boll_bands {R : Type} (data : list R) (col_idx : R -> float)
    (period : nat) (std_dev : float)
    : list float * list float * list float :=
  let rows := map (boll_bands_at data col_idx period std_dev) (range 0 (length data)) in
  (map (fun r => r.1.1) rows, map (fun r => r.1.2) rows, map (fun r => r.2) rows).

(** One turn of the loop of [wilders_smooth]:
    [smoothed[i] = (smoothed[i-1] * (p - 1) + series[i]) / p]. *)
Definition wilders_step (series : list float) (p : nat) (smoothed : list float)
    (i : nat) : list float :=
  <[ i := ((at_ smoothed (i - 1) * of_nat (p - 1) + at_ series i) / of_nat p)%float ]>
    smoothed.

(** [wilders_smooth(series, p)], for a period [p >= 1]. *)
Definition wilders_smooth (series : list float) (p : nat) : list float :=
  let smoothed := replicate (length series) PrimFloat.nan in
  if (length series <? p)%nat then smoothed
  else
    let smoothed := <[ (p - 1)%nat := mean (take p series) ]> smoothed in
    fold_left (wilders_step series p) (range p (length series)) smoothed.

End Numpy.

(** The sum of a short array: below eight entries numpy adds them from left
    to right, starting from 0. *)
Definition sum_left (l : list float) : float := fold_left PrimFloat.add l 0%float.

End Binary64.

(** ** Notions used to state the properties *)

(** The last defined value of a list of outputs, NaN when there is none. *)
Definition last_defined (l : list fl) : fl :=
  fold_left (fun acc x => if notna x then x else acc) l NaN.

(** The list [smoothed] of [wilders_smooth] when its loop reaches index [n]
    (for [p <= len(series)]). *)
Definition wilders_upto (series : list fl) (p n : nat) : list fl :=
  fold_left (wilders_step series p) (range p n)
            (<[ (p - 1)%nat := mean (take p series) ]> (replicate (length series) NaN)).

(** A cell of a snapshot row: an optional number ([None], NaN or a finite
    float), as opposed to a message or an infinite value. *)
Definition optional_value (v : pyval) : Prop :=
  match v with
  | PNone | PFloat _ => True
  | PStr _ | PInf _ => False
  end.

(** The fixed order of the snapshot fields other than the four percentage
    changes (cells 4 to 7): price, price ten rows back ([max(i-10, 0)]),
    DMA50, DMA200, then MACD line, signal and histogram, Bollinger upper,
    middle and lower, ADX, +DI and -DI, all read at the last index [i];
    [wrap] is how a runner presents an optional number. *)
Definition snapshot_order (wrap : fl -> pyval) (sqrt : Q -> Q)
    (data : list ohlcv) (row : list pyval) : Prop :=
  let i := (length data - 1)%nat in
  let bands := boll_bands sqrt data close 20 2 in
  let summary := calculate_adx data 14 in
  row !! 0%nat = Some (wrap (cell close data i)) /\
  row !! 1%nat = Some (wrap (cell close data (i - 10)%nat)) /\
  row !! 2%nat = Some (wrap (at_ (moving_avg data (Nat.min 50 (length data)) close) i)) /\
  row !! 3%nat = Some (wrap (at_ (moving_avg data (Nat.min 200 (length data)) close) i)) /\
  row !! 8%nat = Some (wrap (at_ (macd_line data close) i)) /\
  row !! 9%nat = Some (wrap (at_ (signal_line data close) i)) /\
  row !! 10%nat = Some (wrap (at_ (histogram data close) i)) /\
  row !! 11%nat = Some (wrap (at_ bands.1.1 i)) /\
  row !! 12%nat = Some (wrap (at_ bands.1.2 i)) /\
  row !! 13%nat = Some (wrap (at_ bands.2 i)) /\
  row !! 14%nat = Some (wrap (adx summary)) /\
  row !! 15%nat = Some (wrap (plus_di summary)) /\
  row !! 16%nat = Some (wrap (minus_di summary)).

Definition positive_close (row : ohlcv) : Prop :=
  exists c, close row = Some c /\ (0 < c)%Q.

(** The four percentage changes in the fixed order (cells 4 to 7): price
    against the price ten rows back, price against DMA50, price against
    DMA200, DMA50 against DMA200; [c4] to [c7] are the four expressions of a
    runner, applied to the operands it reads at the last index. *)
Definition snapshot_changes (c4 : fl -> fl -> M pyval) (c5 c6 c7 : fl -> fl -> pyval)
    (data : list ohlcv) (row : list pyval) : Prop :=
  let i := (length data - 1)%nat in
  let price := cell close data i in
  let ten_day_price := cell close data (i - 10)%nat in
  let dma50_i := at_ (moving_avg data (Nat.min 50 (length data)) close) i in
  let dma200_i := at_ (moving_avg data (Nat.min 200 (length data)) close) i in
  (exists v, c4 price ten_day_price = inr v /\ row !! 4%nat = Some v) /\
  row !! 5%nat = Some (c5 price dma50_i) /\
  row !! 6%nat = Some (c6 price dma200_i) /\
  row !! 7%nat = Some (c7 dma50_i dma200_i).

(** The four changes as [run_strategy] computes and reports them (rounded
    to two decimals), and as [run_strategy_w] does. *)
Definition snapshot_changes_daily (data : list ohlcv) (row : list pyval) : Prop :=
  snapshot_changes (fun a b => ret (rounded (price_ten_day_change a b)))
                   (fun a b => rounded (price_50dma_change a b))
                   (fun a b => rounded (price_200dma_change a b))
                   (fun a b => rounded (dma50_200dma_change a b)) data row.

Definition snapshot_changes_weekly (data : list ohlcv) (row : list pyval) : Prop :=
  snapshot_changes price_ten_day_change_w price_50dma_change_w
                   price_200dma_change_w dma50_200dma_change_w data row.

(** A row of the weekly frame that the runner keeps: its five values are
    defined and positive. *)
Definition positive_row (row : ohlcv) : Prop :=
  exists o h l c v : Q,
    (open row = Some o /\ high row = Some h /\ low row = Some l /\
     close row = Some c /\ volume row = Some v) /\
    (0 < o)%Q /\ (0 < h)%Q /\ (0 < l)%Q /\ (0 < c)%Q /\ (0 < v)%Q.

(** A snapshot cell that holds a number. *)
Definition is_number (v : option pyval) : Prop :=
  exists q : Q, v = Some (PFloat (Some q)).

(** The value the fetch loop reads at index [i] of an array that is empty
    or long enough, whether index [i] is kept, and the row it gives. *)
Definition quote_value (arr : list (option Q)) (i : nat) : Q :=
  match arr with
  | [] => 0
  | _ => float_or_0 (default None (arr !! i))
  end.

Definition workday (quotes : quote_arrays) (i : nat) : bool :=
  Qpositive (quote_value (q_open quotes) i)
  && Qpositive (quote_value (q_high quotes) i)
  && Qpositive (quote_value (q_low quotes) i)
  && Qpositive (quote_value (q_close quotes) i)
  && Qpositive (quote_value (q_volume quotes) i).

Definition workday_row (format_date : Z -> string) (timestamps : list Z)
    (quotes : quote_arrays) (i : nat) : ohlcv :=
  {| date := format_date (default 0%Z (timestamps !! i));
     open := Some (quote_value (q_open quotes) i);
     high := Some (quote_value (q_high quotes) i);
     low := Some (quote_value (q_low quotes) i);
     close := Some (quote_value (q_close quotes) i);
     volume := Some (quote_value (q_volume quotes) i) |}.

(** An array the loop can read at every index below [n]: it is empty
    (then every read gives 0) or has at least [n] entries. *)
Definition readable (n : nat) (arr : list (option Q)) : Prop :=
  arr = [] \/ (n <= length arr)%nat.

Definition all_readable (n : nat) (quotes : quote_arrays) : Prop :=
  readable n (q_open quotes) /\ readable n (q_high quotes) /\
  readable n (q_low quotes) /\ readable n (q_close quotes) /\
  readable n (q_volume quotes).

(** The value [ema] seeds its state with at index [lookback - 1]: the mean
    of the defined values among the first [lookback] ones, NaN when there is
    none. *)
Definition ema_seed {R : Type} (data : list R) (lookback : nat)
    (col_idx : R -> fl) : fl :=
  let window :=
    map (cell col_idx data)
        (List.filter (fun j => notna (cell col_idx data j)) (range 0 lookback)) in
  match window with [] => NaN | _ => mean window end.

(** A row whose high, low and close are defined. *)
Definition defined_row (row : ohlcv) : Prop :=
  exists h l c, high row = Some h /\ low row = Some l /\ close row = Some c.

(** ** Concrete inputs *)

(** A square root truncated to six decimals, to run [boll_bands] and the
    runners on concrete inputs. *)
Definition sqrt6 (q : Q) : Q :=
  Z.sqrt (Qfloor (q * inject_Z (10 ^ 12))) # (10 ^ 6).

(** The synthetic uptrend: row [i] closes at [100 + i], opens and bottoms
    half a point lower, tops half a point higher, with volume 1000. *)
Definition uptrend_row (i : nat) : ohlcv :=
  let c := (inject_Z (Z.of_nat i) + 100)%Q in
  {| date := ""; open := Some (c - (1 # 2))%Q; high := Some (c + (1 # 2))%Q;
     low := Some (c - (1 # 2))%Q; close := Some c; volume := Some 1000%Q |}.

Definition uptrend (n : nat) : list ohlcv := map uptrend_row (range 0 n).

(** A row of a weekly frame that the runner drops: its close is zero. *)
Definition zero_close_row : ohlcv :=
  {| date := ""; open := Some 1%Q; high := Some 1%Q; low := Some 1%Q;
     close := Some 0%Q; volume := Some 1%Q |}.

(** A chart of three timestamps whose second open is null. *)
Definition no_date (t : Z) : string := "".

Definition sample_timestamps : list Z := [1700000000; 1700086400; 1700172800]%Z.

Definition sample_quotes : quote_arrays :=
  {| q_open := [Some 10%Q; None; Some 12%Q];
     q_high := [Some 11%Q; Some 12%Q; Some 13%Q];
     q_low := [Some 9%Q; Some 10%Q; Some 11%Q];
     q_close := [Some 10%Q; Some 11%Q; Some 12%Q];
     q_volume := [Some 1000%Q; Some 1000%Q; Some 1000%Q] |}.

(** Binary64 inputs: the number closest to 0.1, the value 50 (whose small
    multiples are exact), and the two closes 250.1 and 262.3. *)
Definition tenth : float := 0x1.999999999999ap-4%float.

Definition fifty : float := 50%float.

Definition two_closes : list float :=
  [0x1.f433333333333p+7; 0x1.064cccccccccdp+8]%float.

(** The closes read as one-column rows: the column is the value itself. *)
Definition only_column (x : float) : float := x.

(** * Properties *)

Local Open Scope nat_scope.

(** ** Lists and ranges *)

Lemma length_range (a b : nat) : length (range a b) = b - a.
Proof. unfold range. apply length_seq. Qed.

Lemma lookup_range (a b i : nat) : i < b - a -> range a b !! i = Some (a + i).
Proof. intros Hi. unfold range. by apply lookup_seq_lt. Qed.

Lemma in_range (a b j : nat) : In j (range a b) <-> a <= j < b.
Proof. unfold range. rewrite in_seq. lia. Qed.

Lemma range_snoc (a n : nat) : a <= n -> range a (S n) = range a n ++ [n].
Proof.
  intros Han. unfold range.
  replace (S n - a) with (S (n - a)) by lia.
  rewrite seq_S. do 2 f_equal. lia.
Qed.

Lemma lookup_map {A B : Type} (f : A -> B) (l : list A) (i : nat) :
  map f l !! i = option_map f (l !! i).
Proof.
  revert i. induction l as [|x l IH]; intros [|i]; simpl; auto.
Qed.

Lemma lookup_map_range {B : Type} (f : nat -> B) (a b i : nat) :
  i < b - a -> map f (range a b) !! i = Some (f (a + i)).
Proof. intros Hi. rewrite lookup_map, lookup_range by done. done. Qed.

Lemma at_lookup (l : list fl) (i : nat) (x : fl) : l !! i = Some x -> at_ l i = x.
Proof. unfold at_. by intros ->. Qed.

Lemma lookup_at (l : list fl) (i : nat) : i < length l -> l !! i = Some (at_ l i).
Proof.
  intros Hi. unfold at_.
  destruct (lookup_lt_is_Some_2 l i Hi) as [x ->]. done.
Qed.

Lemma filter_map_comm {A B : Type} (f : A -> B) (p : B -> bool) (l : list A) :
  List.filter p (map f l) = map f (List.filter (fun a => p (f a)) l).
Proof.
  induction l as [|a l IH]; simpl; [done|].
  destruct (p (f a)); simpl; by rewrite IH.
Qed.

Lemma filter_ext_In {A : Type} (p q : A -> bool) (l : list A) :
  (forall a, In a l -> p a = q a) -> List.filter p l = List.filter q l.
Proof.
  induction l as [|a l IH]; simpl; intros Hpq; [done|].
  rewrite (Hpq a) by auto. rewrite IH by auto. done.
Qed.

(** ** moving_avg and the Bollinger middle band *)

Lemma length_moving_avg {R : Type} (data : list R) (lookback : nat) (col_idx : R -> fl) :
  length (moving_avg data lookback col_idx) = length data.
Proof.
  unfold moving_avg. destruct data; [done|].
  rewrite length_map, length_range. lia.
Qed.

Lemma boll_window_moving_avg {R : Type} (data : list R) (col_idx : R -> fl) (a i : nat) :
  i < length data ->
  List.filter notna (map (cell col_idx data) (range a (i + 1))) =
  map (cell col_idx data)
      (List.filter (fun j => (j <? length data) && notna (cell col_idx data j))
                   (range a (i + 1))).
Proof.
  intros Hi. rewrite filter_map_comm. f_equal.
  apply filter_ext_In. intros j Hj. apply in_range in Hj.
  assert ((j <? length data) = true) as -> by (apply Nat.ltb_lt; lia).
  done.
Qed.

Lemma boll_middle_at {R : Type} (sqrt : Q -> Q) (data : list R) (col_idx : R -> fl)
    (period : nat) (std_dev : Q) (i : nat) :
  i < length data ->
  (boll_bands_at sqrt data col_idx period std_dev i).1.2 =
  moving_avg_at data period col_idx i.
Proof.
  intros Hi. unfold boll_bands_at, moving_avg_at.
  destruct (Z.of_nat i <? Z.of_nat period - 1)%Z; [done|].
  rewrite boll_window_moving_avg by done.
  destruct (map _ _) as [|x w]; done.
Qed.

Lemma lookup_moving_avg {R : Type} (data : list R) (lookback : nat)
    (col_idx : R -> fl) (i : nat) :
  i < length data ->
  moving_avg data lookback col_idx !! i =
  Some (moving_avg_at data lookback col_idx i).
Proof.
  intros Hi. unfold moving_avg. destruct data as [|r data'] eqn:E.
  - simpl in Hi. lia.
  - rewrite <- E in *. by rewrite (lookup_map_range _ 0 _ i) by lia.
Qed.

(** C10. For every series, column and period, the middle band of
    [boll_bands] is the list [moving_avg] returns for the same period and
    column, whatever the multiplier and the square root used for the
    deviation: the list has the length of the series, is NaN at every index
    [i < period - 1], and from there on holds the mean of the defined values
    of the column over [[i-period+1, i]], which is NaN when no value of that
    window is defined. *)
Theorem boll_middle_is_moving_avg {R : Type} (sqrt : Q -> Q) (data : list R)
    (col_idx : R -> fl) (period : nat) (std_dev : Q) :
  let middle := (boll_bands sqrt data col_idx period std_dev).1.2 in
  let sma := moving_avg data period col_idx in
  middle = sma /\
  length sma = length data /\
  forall i, i < length data ->
    let window :=
      List.filter notna (map (cell col_idx data) (range (i + 1 - period) (i + 1))) in
    (i + 1 < period -> sma !! i = Some NaN) /\
    (period <= i + 1 -> sma !! i = Some (mean window)) /\
    (window = [] -> mean window = NaN).
Proof.
  intros middle sma. split; [|split; [apply length_moving_avg|]].
  - unfold middle, sma, boll_bands, moving_avg. simpl.
    destruct data as [|r data']; [done|].
    set (data := r :: data').
    rewrite map_map. apply map_ext_in. intros i Hi.
    apply in_range in Hi. apply boll_middle_at. lia.
  - intros i Hi window. unfold sma. rewrite lookup_moving_avg by done.
    unfold moving_avg_at. rewrite <- boll_window_moving_avg by done.
    fold window. split; [|split].
    + intros Hlt.
      assert ((Z.of_nat i <? Z.of_nat period - 1)%Z = true) as ->
        by (apply Z.ltb_lt; lia).
      done.
    + intros Hge.
      assert ((Z.of_nat i <? Z.of_nat period - 1)%Z = false) as ->
        by (apply Z.ltb_ge; lia).
      by destruct window.
    + by intros ->.
Qed.

(** ** Sums and means of defined values *)

Lemma lookup_map_range_0 {B : Type} (f : nat -> B) (n i : nat) (y : B) :
  map f (range 0 n) !! i = Some y -> i < n /\ y = f i.
Proof.
  intros H. assert (i < n) as Hi.
  { apply lookup_lt_Some in H. rewrite length_map, length_range in H. lia. }
  rewrite lookup_map_range in H by lia. simpl in H. by inversion H.
Qed.

Lemma filter_notna_defined (w : list fl) :
  List.Forall (fun x => notna x = true) (List.filter notna w).
Proof. apply List.Forall_forall. intros x Hx. by apply filter_In in Hx as [_ ?]. Qed.

Lemma fsum_defined (l : list fl) :
  List.Forall (fun x => notna x = true) l -> exists s, fsum l = Some s.
Proof.
  induction 1 as [|x l Hx _ [s IH]]; [by eexists|].
  change (fsum (x :: l)) with (fadd x (fsum l)). rewrite IH.
  destruct x as [q|]; [|done]. by eexists.
Qed.

Lemma mean_defined (l : list fl) :
  List.Forall (fun x => notna x = true) l -> l <> [] -> exists m, mean l = Some m.
Proof.
  intros Hl Hne. destruct (fsum_defined l Hl) as [s Hs].
  unfold mean. destruct l; [done|]. rewrite Hs. by eexists.
Qed.

Lemma np_std_defined (sqrt : Q -> Q) (l : list fl) :
  List.Forall (fun x => notna x = true) l -> l <> [] ->
  exists s, np_std sqrt l = Some s.
Proof.
  intros Hl Hne. destruct (mean_defined l Hl Hne) as [m Hm].
  unfold np_std. rewrite Hm.
  destruct (mean_defined (map (fun x => fmul (fsub x (Some m)) (fsub x (Some m))) l))
    as [v Hv].
  - apply List.Forall_forall. intros y Hy. apply in_map_iff in Hy as (x & <- & Hx).
    rewrite List.Forall_forall in Hl. specialize (Hl x Hx). by destruct x.
  - by destruct l.
  - rewrite Hv. by eexists.
Qed.

(** ** Bollinger bands *)

(** In exact arithmetic: at every index where the bands are defined (the
    middle band holds a value [m]), the middle band is the mean of the window
    of the defined values over [[i-period+1, i]], the deviation [s] is the
    population standard deviation of that window, the upper band is
    [m + s * std_dev], the lower band is [m - s * std_dev], and
    [upper - middle] equals [middle - lower] (the rounding of the binary64
    computation is the subject of [Binary64.boll_bands] below). *)
Lemma boll_bands_symmetric_exact {R : Type} (sqrt : Q -> Q) (data : list R)
    (col_idx : R -> fl) (period : nat) (std_dev : Q) (i : nat) (m : Q) :
  let bands := boll_bands sqrt data col_idx period std_dev in
  let window :=
    List.filter notna (map (cell col_idx data) (range (i + 1 - period) (i + 1))) in
  bands.1.2 !! i = Some (Some m) ->
  exists s : Q,
    mean window = Some m /\
    np_std sqrt window = Some s /\
    Some s = option_map sqrt
               (fdiv (fsum (map (fun x => fmul (fsub x (Some m)) (fsub x (Some m))) window))
                     (fnat (length window))) /\
    bands.1.1 !! i = Some (Some (m + s * std_dev)%Q) /\
    bands.2 !! i = Some (Some (m - s * std_dev)%Q) /\
    ((m + s * std_dev) - m == m - (m - s * std_dev))%Q.
Proof.
  intros bands window Hmid. subst bands. unfold boll_bands in *.
  cbn [fst snd] in *.
  set (rows := map _ (range 0 (length data))) in *.
  rewrite lookup_map in Hmid. rewrite !lookup_map.
  destruct (rows !! i) as [[[u mid] l]|] eqn:Hrow; [|done].
  simpl in Hmid. injection Hmid as ->. simpl.
  apply lookup_map_range_0 in Hrow as [Hi Hrow].
  unfold boll_bands_at in Hrow. fold window in Hrow.
  destruct (Z.of_nat i <? Z.of_nat period - 1)%Z; [done|].
  destruct (length window =? 0) eqn:Hlen; [done|].
  apply Nat.eqb_neq in Hlen.
  assert (window <> []) as Hne by (intros E; rewrite E in Hlen; done).
  destruct (np_std_defined sqrt window (filter_notna_defined _) Hne) as [s Hs].
  rewrite Hs in Hrow. injection Hrow as -> Hm ->. symmetry in Hm.
  exists s. rewrite Hm. repeat split; try done.
  - rewrite <- Hs. unfold np_std. rewrite Hm.
    unfold mean. rewrite length_map. by destruct window.
  - ring.
Qed.

(** ** The exponential moving average *)

Lemma last_defined_snoc (l : list fl) (x : fl) :
  last_defined (l ++ [x]) = if notna x then x else last_defined l.
Proof. unfold last_defined. by rewrite fold_left_app. Qed.

Section Ema.
Context {R : Type}.
Variables (data : list R) (lookback : nat) (col_idx : R -> fl).

Lemma ema_run_S (n : nat) :
  ema_run data lookback col_idx (S n) =
  ema_step data lookback col_idx (ema_run data lookback col_idx n) n.
Proof.
  unfold ema_run. rewrite range_snoc by lia. by rewrite fold_left_app.
Qed.

Lemma ema_step_result (st : ema_state) (i : nat) :
  exists x, result (ema_step data lookback col_idx st i) = result st ++ [x].
Proof.
  unfold ema_step.
  repeat (match goal with |- context [if ?b then _ else _] => destruct b end);
    simpl; by eexists.
Qed.

Lemma length_ema_run (n : nat) :
  length (result (ema_run data lookback col_idx n)) = n.
Proof.
  induction n as [|n IH]; [done|].
  rewrite ema_run_S.
  destruct (ema_step_result (ema_run data lookback col_idx n) n) as [x ->].
  rewrite length_app, IH. simpl. lia.
Qed.

Lemma ema_run_prefix (n n' : nat) :
  n <= n' ->
  exists rest,
    result (ema_run data lookback col_idx n') =
    result (ema_run data lookback col_idx n) ++ rest.
Proof.
  induction 1 as [|n' Hle [rest IH]].
  - exists []. by rewrite app_nil_r.
  - rewrite ema_run_S.
    destruct (ema_step_result (ema_run data lookback col_idx n') n') as [x ->].
    exists (rest ++ [x]). by rewrite IH, <- app_assoc.
Qed.

Lemma ema_run_take (n n' : nat) :
  n <= n' ->
  take n (result (ema_run data lookback col_idx n')) =
  result (ema_run data lookback col_idx n).
Proof.
  intros Hle. destruct (ema_run_prefix n n' Hle) as [rest ->].
  rewrite take_app_length'; [done|]. symmetry. apply length_ema_run.
Qed.

Lemma length_ema : length (ema data lookback col_idx) = length data.
Proof.
  unfold ema. destruct data eqn:E; [done|]. rewrite <- E. apply length_ema_run.
Qed.

(** Before the seed index the state holds no value. *)
Lemma ema_run_before_seed (n : nat) :
  n < lookback -> prev_ema (ema_run data lookback col_idx n) = NaN.
Proof.
  induction n as [|n IH]; intros Hn; [done|].
  rewrite ema_run_S. unfold ema_step.
  assert ((Z.of_nat n <? Z.of_nat lookback - 1)%Z = true) as ->
    by (apply Z.ltb_lt; lia).
  simpl. apply IH. lia.
Qed.

(** The state is the last defined output. *)
Lemma ema_run_prev (n : nat) :
  prev_ema (ema_run data lookback col_idx n) =
  last_defined (result (ema_run data lookback col_idx n)).
Proof.
  induction n as [|n IH]; [done|].
  rewrite ema_run_S. unfold ema_step.
  destruct (Z.of_nat n <? Z.of_nat lookback - 1)%Z eqn:H1; simpl.
  { by rewrite last_defined_snoc. }
  destruct (Z.of_nat n =? Z.of_nat lookback - 1)%Z eqn:H2; simpl.
  { rewrite last_defined_snoc.
    match goal with |- ?s = _ => destruct s as [q|] eqn:Hseed end; [done|].
    simpl. rewrite <- IH. symmetry. apply ema_run_before_seed.
    apply Z.eqb_eq in H2. lia. }
  destruct (notna (cell col_idx data n) && notna (prev_ema _)) eqn:H3; simpl.
  - rewrite last_defined_snoc.
    apply andb_true_iff in H3 as [Hc Hp].
    destruct (cell col_idx data n), (prev_ema (ema_run data lookback col_idx n));
      done.
  - by rewrite last_defined_snoc.
Qed.

End Ema.

(** C4. For every series, lookback [L] with [k = 2/(L+1)] and index
    [i > L-1] of the series: the running state before index [i] is the last
    defined output among the indices below [i] (NaN when there is none);
    when the current value [c] and that state [p] are both defined, [ema]
    outputs [c*k + p*(1-k)] at [i] and this value is the new state; when
    either is undefined, [ema] outputs NaN at [i] and the state is left as
    it was, so that the next defined value continues from the last valid
    state. *)
Theorem ema_recurrence {R : Type} (data : list R) (L : nat) (col_idx : R -> fl)
    (i : nat) :
  (Z.of_nat i > Z.of_nat L - 1)%Z -> i < length data ->
  let out := ema data L col_idx in
  let k := ema_k L in
  let st := ema_run data L col_idx i in
  let st' := ema_run data L col_idx (S i) in
  result st = take i out /\
  prev_ema st = last_defined (take i out) /\
  match cell col_idx data i, prev_ema st with
  | Some c, Some p =>
      out !! i = Some (Some (c * k + p * (1 - k))%Q) /\
      prev_ema st' = Some (c * k + p * (1 - k))%Q
  | _, _ =>
      out !! i = Some NaN /\ prev_ema st' = prev_ema st
  end.
Proof.
  intros HL Hi out k st st'.
  assert (out = result (ema_run data L col_idx (length data))) as Hout.
  { unfold out, ema. destruct data; [simpl in Hi; lia | done]. }
  assert (take i out = result st) as Htake.
  { rewrite Hout. apply ema_run_take. lia. }
  assert (out !! i = result st' !! i) as Hlook.
  { rewrite Hout. destruct (ema_run_prefix data L col_idx (S i) (length data))
      as [rest ->]; [lia|].
    rewrite lookup_app_l; [done|]. rewrite length_ema_run. lia. }
  assert (prev_ema st = last_defined (result st)) as Hprev by apply ema_run_prev.
  assert (length (result st) = i) as Hlen by apply length_ema_run.
  assert (st' = ema_step data L col_idx st i) as Hst' by apply ema_run_S.
  unfold ema_step in Hst'.
  replace (Z.of_nat i <? Z.of_nat L - 1)%Z with false in Hst'
    by (symmetry; apply Z.ltb_ge; lia).
  replace (Z.of_nat i =? Z.of_nat L - 1)%Z with false in Hst'
    by (symmetry; apply Z.eqb_neq; lia).
  subst k. clearbody out st st'. clear Hout.
  rewrite Htake. split; [done|]. split; [done|]. clear Hprev.
  destruct (cell col_idx data i) as [c|], (prev_ema st) as [p|];
    simpl in Hst'; subst st'; rewrite Hlook; simpl;
    (split; [|done]); rewrite lookup_app_r, Hlen, Nat.sub_diag by lia; done.
Qed.

(** ** MACD *)

Lemma length_macd_line {R : Type} (data : list R) (col_idx : R -> fl) :
  length (macd_line data col_idx) = length data.
Proof. unfold macd_line. rewrite length_map, length_range. lia. Qed.

Lemma length_signal_line {R : Type} (data : list R) (col_idx : R -> fl) :
  length (signal_line data col_idx) = length data.
Proof.
  unfold signal_line. rewrite length_ema, length_map. apply length_macd_line.
Qed.

(** ** Wilder's smoothing *)

Lemma length_wilders_step (series : list fl) (p : nat) (smoothed : list fl) (i : nat) :
  length (wilders_step series p smoothed i) = length smoothed.
Proof. unfold wilders_step. apply length_insert. Qed.

Lemma length_wilders_fold (series : list fl) (p : nat) (idx : list nat) (smoothed : list fl) :
  length (fold_left (wilders_step series p) idx smoothed) = length smoothed.
Proof.
  revert smoothed. induction idx as [|i idx IH]; intros smoothed; simpl; [done|].
  by rewrite IH, length_wilders_step.
Qed.

Lemma length_wilders_smooth (series : list fl) (p : nat) :
  length (wilders_smooth series p) = length series.
Proof.
  unfold wilders_smooth. destruct (length series <? p).
  - apply length_replicate.
  - by rewrite length_wilders_fold, length_insert, length_replicate.
Qed.

Section Wilder.
Variables (series : list fl) (p : nat).
Hypothesis Hp : 1 <= p.
Hypothesis Hlen : p <= length series.

Lemma wilders_smooth_upto :
  wilders_smooth series p = wilders_upto series p (length series).
Proof.
  unfold wilders_smooth, wilders_upto.
  assert ((length series <? p) = false) as -> by (apply Nat.ltb_ge; lia). done.
Qed.

Lemma wilders_upto_S (n : nat) :
  p <= n ->
  wilders_upto series p (S n) = wilders_step series p (wilders_upto series p n) n.
Proof.
  intros Hn. unfold wilders_upto. rewrite range_snoc by done.
  by rewrite fold_left_app.
Qed.

Lemma length_wilders_upto (n : nat) :
  length (wilders_upto series p n) = length series.
Proof.
  unfold wilders_upto. by rewrite length_wilders_fold, length_insert, length_replicate.
Qed.

Lemma wilders_upto_stable (n n' j : nat) :
  p <= n -> n <= n' -> j < n ->
  wilders_upto series p n' !! j = wilders_upto series p n !! j.
Proof.
  intros Hn Hle Hj. induction Hle as [|n' Hle IH]; [done|].
  rewrite wilders_upto_S by lia. unfold wilders_step.
  rewrite list_lookup_insert_ne by lia. done.
Qed.

Lemma wilders_upto_new (n : nat) :
  p <= n -> n < length series ->
  wilders_upto series p (S n) !! n =
  Some (fdiv (fadd (fmul (at_ (wilders_upto series p n) (n - 1))
                         (fint (Z.of_nat p - 1)))
                   (at_ series n))
             (fnat p)).
Proof.
  intros Hn Hlt. rewrite wilders_upto_S by done. unfold wilders_step.
  apply list_lookup_insert_eq. by rewrite length_wilders_upto.
Qed.

Lemma wilders_upto_start : wilders_upto series p p =
  <[ p - 1 := mean (take p series) ]> (replicate (length series) NaN).
Proof. unfold wilders_upto, range. by rewrite Nat.sub_diag. Qed.

(** What [wilders_smooth] returns, index by index. *)
Lemma wilders_smooth_spec :
  let out := wilders_smooth series p in
  length out = length series /\
  (forall j, j < p - 1 -> out !! j = Some NaN) /\
  out !! (p - 1) = Some (mean (take p series)) /\
  (forall i, p <= i -> i < length series ->
     out !! i =
     Some (fdiv (fadd (fmul (at_ out (i - 1)) (fint (Z.of_nat p - 1))) (at_ series i))
                (fnat p))).
Proof.
  intros out. split; [apply length_wilders_smooth|].
  unfold out. rewrite wilders_smooth_upto.
  split; [|split].
  - intros j Hj. rewrite (wilders_upto_stable p) by lia.
    rewrite wilders_upto_start, list_lookup_insert_ne by lia.
    apply lookup_replicate_2. lia.
  - rewrite (wilders_upto_stable p) by lia.
    rewrite wilders_upto_start. apply list_lookup_insert_eq.
    rewrite length_replicate. lia.
  - intros i Hi Hlt.
    rewrite (wilders_upto_stable (S i)) by lia.
    rewrite wilders_upto_new by done.
    unfold at_ at 1 3.
    rewrite (wilders_upto_stable i (length series) (i - 1)) by lia. done.
Qed.

End Wilder.

Lemma fsum_replicate (n : nat) (v : Q) :
  exists s, fsum (replicate n (Some v)) = Some s /\
            (s == inject_Z (Z.of_nat n) * v)%Q.
Proof.
  induction n as [|n [s [Hs Heq]]].
  - exists 0%Q. split; [done|]. simpl. ring.
  - exists (v + s)%Q. split.
    + change (fsum (replicate (S n) (Some v)))
        with (fadd (Some v) (fsum (replicate n (Some v)))).
      by rewrite Hs.
    + rewrite Heq, Nat2Z.inj_succ. unfold Z.succ. rewrite inject_Z_plus. ring.
Qed.

Lemma mean_replicate (n : nat) (v : Q) :
  1 <= n -> exists x, mean (replicate n (Some v)) = Some x /\ (x == v)%Q.
Proof.
  intros Hn. destruct (fsum_replicate n v) as (s & Hs & Heq).
  exists (s / inject_Z (Z.of_nat n))%Q. split.
  - unfold mean. rewrite Hs, length_replicate. destruct n; [lia|done].
  - rewrite Heq. field.
    change 0%Q with (inject_Z 0). rewrite inject_Z_injective. lia.
Qed.

(** In exact arithmetic, Wilder's smoothing of a constant series of value
    [v] is equal to [v] at every index from [p-1] on (the rounding of the
    binary64 computation is the subject of [Binary64.wilders_smooth]
    below). *)
Lemma wilders_smooth_constant_exact (p m : nat) (v : Q) :
  1 <= p -> p <= m ->
  let s := replicate m (Some v) in
  let out := wilders_smooth s p in
  length out = m /\
  (forall i, i < p - 1 -> out !! i = Some NaN) /\
  out !! (p - 1) = Some (mean (take p s)) /\
  (forall i, p <= i -> i < m ->
     out !! i =
     Some (fdiv (fadd (fmul (at_ out (i - 1)) (fint (Z.of_nat p - 1))) (at_ s i))
                (fnat p))) /\
  (forall i, p - 1 <= i -> i < m ->
     exists x, out !! i = Some (Some x) /\ (x == v)%Q).
Proof.
  intros Hp Hm s out.
  assert (length s = m) as Hs by apply length_replicate.
  destruct (wilders_smooth_spec s p Hp) as (Hlen & Hlow & Hseed & Hrec); [lia|].
  fold out in Hlen, Hlow, Hseed, Hrec. rewrite Hs in *.
  split; [done|]. split; [done|]. split; [done|]. split; [done|].
  intros i Hi Hlt.
  assert (exists d, i = p - 1 + d) as [d ->] by (exists (i - (p - 1)); lia).
  clear Hi. induction d as [|d IH].
  - rewrite Nat.add_0_r, Hseed. unfold s.
    rewrite take_replicate, Nat.min_l by lia.
    destruct (mean_replicate p v Hp) as (x & -> & Hx). by exists x.
  - destruct IH as (x & Hx & Hxv); [lia|].
    rewrite Hrec by lia.
    replace (p - 1 + S d - 1) with (p - 1 + d) by lia.
    rewrite (at_lookup _ _ _ Hx).
    assert (at_ s (p - 1 + S d) = Some v) as ->.
    { apply at_lookup. unfold s. apply lookup_replicate_2. lia. }
    simpl. eexists. split; [done|].
    rewrite Hxv. unfold Z.sub. rewrite inject_Z_plus, inject_Z_opp. field.
    change 0%Q with (inject_Z 0). rewrite inject_Z_injective. lia.
Qed.

(** ** The ADX summary *)

Lemma length_true_ranges (data : list ohlcv) :
  length (true_ranges data) = length data - 1.
Proof. unfold true_ranges. by rewrite length_map, length_range, length_map. Qed.

Lemma length_di_rows (data : list ohlcv) (period : nat) :
  length (di_rows data period) = length data - 1.
Proof.
  unfold di_rows.
  rewrite length_map, length_range, length_wilders_smooth, length_true_ranges. lia.
Qed.

Lemma length_plus_di_series (data : list ohlcv) (period : nat) :
  length (plus_di_series data period) = length data - 1.
Proof. unfold plus_di_series. by rewrite length_map, length_di_rows. Qed.

Lemma length_minus_di_series (data : list ohlcv) (period : nat) :
  length (minus_di_series data period) = length data - 1.
Proof. unfold minus_di_series. by rewrite length_map, length_di_rows. Qed.

Lemma length_dx_series (data : list ohlcv) (period : nat) :
  length (dx_series data period) = length data - 1.
Proof. unfold dx_series. by rewrite length_map, length_di_rows. Qed.

Lemma length_adx_smooth (data : list ohlcv) (period : nat) :
  length (adx_smooth data period) = length data - 1.
Proof. unfold adx_smooth. by rewrite length_wilders_smooth, length_dx_series. Qed.

Lemma fround2_guard (x : fl) : (if notna x then fround2 x else NaN) = fround2 x.
Proof. by destruct x. Qed.

Lemma calculate_adx_adx (data : list ohlcv) (period : nat) :
  period + 1 <= length data ->
  adx (calculate_adx data period) =
  fround2 (at_ (adx_smooth data period) (length (adx_smooth data period) - 1)).
Proof.
  intros Hn. unfold calculate_adx.
  assert ((length data <? period + 1) = false) as -> by (apply Nat.ltb_ge; lia).
  cbn [adx]. apply fround2_guard.
Qed.

(** C6. For every series with [len(data) < period + 1], [calculate_adx]
    returns NaN for [adx], [plus_di] and [minus_di] (the function is total:
    it returns, and raises nothing). *)
Theorem calculate_adx_short (data : list ohlcv) (period : nat) :
  length data < period + 1 ->
  calculate_adx data period = {| adx := NaN; plus_di := NaN; minus_di := NaN |}.
Proof.
  intros Hshort. unfold calculate_adx.
  assert ((length data <? period + 1) = true) as -> by (by apply Nat.ltb_lt).
  done.
Qed.

(** C2. For every period [>= 2] and every series of length
    [n >= period + 1]: the DI series have length [n-1], the last index of the
    smoothed DX series is [n-2], the index read, [(n-2) + (period-1)], lies
    beyond the last index [n-2] of the DI series, and the [plus_di] and
    [minus_di] that [calculate_adx] returns are NaN. *)
Theorem calculate_adx_di_undefined (data : list ohlcv) (period : nat) :
  2 <= period -> period + 1 <= length data ->
  let n := length data in
  let last_idx := length (adx_smooth data period) - 1 in
  length (plus_di_series data period) = n - 1 /\
  length (minus_di_series data period) = n - 1 /\
  last_idx = n - 2 /\
  last_idx + period - 1 = (n - 2) + (period - 1) /\
  (n - 2) + (period - 1) > n - 2 /\
  plus_di_series data period !! (last_idx + period - 1) = None /\
  minus_di_series data period !! (last_idx + period - 1) = None /\
  plus_di (calculate_adx data period) = NaN /\
  minus_di (calculate_adx data period) = NaN.
Proof.
  intros Hp Hn n last_idx. subst n last_idx.
  rewrite length_adx_smooth.
  split; [apply length_plus_di_series|].
  split; [apply length_minus_di_series|].
  split; [lia|]. split; [lia|]. split; [lia|].
  split; [apply lookup_ge_None; rewrite length_plus_di_series; lia|].
  split; [apply lookup_ge_None; rewrite length_minus_di_series; lia|].
  unfold calculate_adx.
  assert ((length data <? period + 1) = false) as -> by (apply Nat.ltb_ge; lia).
  simpl. rewrite length_adx_smooth, length_plus_di_series, length_minus_di_series.
  assert ((length data - 1 - 1 + period - 1 <? length data - 1) = false) as ->
    by (apply Nat.ltb_ge; lia).
  done.
Qed.

(** C3. For every period [>= 1] and every series of length
    [>= period + 1], with [last_idx] the last index of the Wilder-smoothed DX
    series: the [plus_di] and [minus_di] that [calculate_adx] returns are the
    entries of the respective DI series at index [last_idx + period - 1]
    when that index is inside the series, each rounded to two decimals, and
    NaN when it is not; the [adx] returned is the last element of the
    Wilder-smoothed DX series, rounded to two decimals. *)
Theorem calculate_adx_summary (data : list ohlcv) (period : nat) :
  1 <= period -> period + 1 <= length data ->
  let r := calculate_adx data period in
  let smoothed_dx := wilders_smooth (dx_series data period) period in
  let last_idx := length smoothed_dx - 1 in
  (exists x, last smoothed_dx = Some x /\ adx r = fround2 x) /\
  plus_di r =
    match plus_di_series data period !! (last_idx + period - 1) with
    | Some x => fround2 x
    | None => NaN
    end /\
  minus_di r =
    match minus_di_series data period !! (last_idx + period - 1) with
    | Some x => fround2 x
    | None => NaN
    end.
Proof.
  intros Hp Hn r smoothed_dx last_idx. subst r. unfold calculate_adx.
  assert ((length data <? period + 1) = false) as -> by (apply Nat.ltb_ge; lia).
  fold (adx_smooth data period) in smoothed_dx. subst smoothed_dx last_idx.
  cbn [adx plus_di minus_di]. rewrite fround2_guard.
  pose proof (length_adx_smooth data period) as Hlen.
  split; [|split].
  - exists (at_ (adx_smooth data period) (length (adx_smooth data period) - 1)).
    split; [|done]. rewrite last_lookup.
    replace (pred (length (adx_smooth data period)))
      with (length (adx_smooth data period) - 1) by lia.
    apply lookup_at. lia.
  - destruct (_ <? _) eqn:Hb.
    + apply Nat.ltb_lt in Hb. by rewrite (lookup_at _ _ Hb).
    + apply Nat.ltb_ge in Hb. by rewrite (lookup_ge_None_2 _ _ Hb).
  - destruct (_ <? _) eqn:Hb.
    + apply Nat.ltb_lt in Hb. by rewrite (lookup_at _ _ Hb).
    + apply Nat.ltb_ge in Hb. by rewrite (lookup_ge_None_2 _ _ Hb).
Qed.

(** A NaN among the first [p] samples makes every smoothed value NaN. *)
Lemma wilders_smooth_nan_head (series : list fl) (p i : nat) :
  1 <= p -> p <= length series -> series !! 0 = Some NaN ->
  i < length series -> wilders_smooth series p !! i = Some NaN.
Proof.
  intros Hp Hlen Hhead Hi.
  destruct (wilders_smooth_spec series p Hp Hlen) as (_ & Hlow & Hseed & Hrec).
  assert (mean (take p series) = NaN) as Hmean.
  { destruct series as [|x series']; [simpl in Hlen; lia|].
    injection Hhead as ->. destruct p; [lia|]. done. }
  rewrite Hmean in Hseed.
  destruct (decide (i < p - 1)) as [Hlt|Hge]; [by apply Hlow|].
  assert (exists d, i = p - 1 + d) as [d ->] by (exists (i - (p - 1)); lia).
  clear Hge. induction d as [|d IH].
  - by rewrite Nat.add_0_r.
  - rewrite Hrec by lia.
    replace (p - 1 + S d - 1) with (p - 1 + d) by lia.
    rewrite (at_lookup _ _ _ (IH ltac:(lia))). done.
Qed.

(** With a period of 2 or more the first DX value is NaN (the smoothed true
    range is not defined yet at index 0), so the smoothed DX series holds no
    value and the [adx] returned is NaN. *)
Lemma calculate_adx_adx_undefined (data : list ohlcv) (period : nat) :
  2 <= period -> period + 1 <= length data ->
  adx (calculate_adx data period) = NaN.
Proof.
  intros Hp Hn. rewrite calculate_adx_adx by done.
  assert (dx_series data period !! 0 = Some NaN) as Hdx0.
  { unfold dx_series, di_rows.
    rewrite lookup_map, (lookup_map_range _ 0 _ 0)
      by (rewrite length_wilders_smooth, length_true_ranges; lia).
    simpl. unfold di_at.
    destruct (wilders_smooth_spec (true_ranges data) period) as (_ & Hlow & _);
      [lia | rewrite length_true_ranges; lia |].
    rewrite (at_lookup _ _ _ (Hlow 0 ltac:(lia))). done. }
  rewrite length_adx_smooth. unfold adx_smooth.
  rewrite (at_lookup _ _ NaN); [done|].
  apply wilders_smooth_nan_head;
    rewrite ?length_dx_series; try lia; done.
Qed.

(** ** The strategy runners *)

Lemma rounded_optional (x : fl) : optional_value (rounded x).
Proof. by destruct x. Qed.

Lemma all_positive_close (row : ohlcv) :
  all_positive row = true -> positive_close row.
Proof.
  unfold all_positive. rewrite !andb_true_iff. intros [[_ Hc] _].
  unfold positive_close. destruct (close row) as [c|]; [|done].
  exists c. split; [done|]. simpl in Hc. apply negb_true_iff in Hc.
  apply Qnot_le_lt. intros Hle. apply Qle_bool_iff in Hle. congruence.
Qed.

Lemma weekly_data_positive (hist : list ohlcv) :
  List.Forall positive_close (weekly_data hist).
Proof.
  apply List.Forall_forall. intros row Hrow. unfold weekly_data in Hrow.
  apply in_map_iff in Hrow as (row0 & <- & Hin).
  apply filter_In in Hin as [_ Hpos].
  apply all_positive_close in Hpos. done.
Qed.

Lemma cell_close_positive (data : list ohlcv) (j : nat) :
  List.Forall positive_close data -> j < length data ->
  exists c, cell close data j = Some c /\ (0 < c)%Q.
Proof.
  intros Hdata Hj. unfold cell.
  destruct (lookup_lt_is_Some_2 data j Hj) as [row Hrow]. rewrite Hrow. simpl.
  rewrite List.Forall_forall in Hdata. apply Hdata.
  apply list_elem_of_In. by eapply list_elem_of_lookup_2.
Qed.

Lemma fsum_positive (l : list fl) :
  List.Forall (fun x => exists c, x = Some c /\ (0 < c)%Q) l ->
  exists s, fsum l = Some s /\ (0 <= s)%Q /\ (l <> [] -> (0 < s)%Q).
Proof.
  induction 1 as [|x l (c & -> & Hc) _ (s & Hs & Hs0 & _)].
  - exists 0%Q. split; [done|]. split; [apply Qle_refl|done].
  - exists (c + s)%Q.
    change (fsum (Some c :: l)) with (fadd (Some c) (fsum l)). rewrite Hs.
    split; [done|].
    assert (0 < c + s)%Q as Hpos.
    { apply Qlt_le_trans with (c + 0)%Q; [by rewrite Qplus_0_r|].
      by apply Qplus_le_r. }
    split; [by apply Qlt_le_weak|done].
Qed.

Lemma mean_positive (l : list fl) :
  List.Forall (fun x => exists c, x = Some c /\ (0 < c)%Q) l -> l <> [] ->
  exists m, mean l = Some m /\ (0 < m)%Q.
Proof.
  intros Hl Hne. destruct (fsum_positive l Hl) as (s & Hs & _ & Hpos).
  specialize (Hpos Hne). unfold mean. destruct l as [|x l]; [done|].
  rewrite Hs. eexists. split; [done|].
  apply Qlt_shift_div_l; [|by rewrite Qmult_0_l].
  change 0%Q with (inject_Z 0). rewrite <- Zlt_Qlt. simpl length. lia.
Qed.

Lemma moving_avg_at_positive (data : list ohlcv) (lookback i : nat) (m : Q) :
  List.Forall positive_close data ->
  moving_avg_at data lookback close i = Some m -> (0 < m)%Q.
Proof.
  intros Hdata. unfold moving_avg_at.
  destruct (Z.of_nat i <? Z.of_nat lookback - 1)%Z; [done|].
  set (window := map _ _).
  assert (List.Forall (fun x => exists c, x = Some c /\ (0 < c)%Q) window) as Hw.
  { apply List.Forall_forall. intros x Hx. unfold window in Hx.
    apply in_map_iff in Hx as (j & <- & Hj).
    apply filter_In in Hj as [_ Hj]. apply andb_true_iff in Hj as [Hj _].
    apply Nat.ltb_lt in Hj. by apply cell_close_positive. }
  destruct window as [|x w] eqn:E; [done|].
  intros Hm. destruct (mean_positive (x :: w) Hw) as (m' & Hm' & Hpos); [done|].
  rewrite Hm in Hm'. by injection Hm' as ->.
Qed.

Lemma at_moving_avg_positive (data : list ohlcv) (lookback i : nat) (m : Q) :
  List.Forall positive_close data ->
  at_ (moving_avg data lookback close) i = Some m -> (0 < m)%Q.
Proof.
  intros Hdata. unfold at_, moving_avg.
  destruct data as [|r data'] eqn:E; [done|]. rewrite <- E in *.
  destruct (map _ _ !! i) as [x|] eqn:Hx; [|done].
  apply lookup_map_range_0 in Hx as [_ ->]. simpl.
  by apply moving_avg_at_positive.
Qed.

Lemma np_pct_optional (a b : fl) :
  (forall y, b = Some y -> (0 < y)%Q) -> optional_value (np_pct a b).
Proof.
  intros Hb. unfold np_pct. destruct a as [x|], b as [y|]; try done.
  specialize (Hb y eq_refl).
  destruct (Qeq_bool y 0) eqn:Hy; [|done].
  apply Qeq_bool_iff in Hy. rewrite Hy in Hb. by apply Qlt_irrefl in Hb.
Qed.

Lemma output_row_length (sqrt : Q -> Q) (hist : list ohlcv) :
  length (output_row sqrt hist) = 17.
Proof. done. Qed.

Lemma output_row_optional (sqrt : Q -> Q) (hist : list ohlcv) :
  List.Forall optional_value (output_row sqrt hist).
Proof.
  unfold output_row, macd, boll_bands. cbv zeta beta iota.
  repeat (apply List.Forall_cons; [apply rounded_optional|]).
  apply List.Forall_nil.
Qed.

Lemma output_row_order (sqrt : Q -> Q) (hist : list ohlcv) :
  snapshot_order rounded sqrt hist (output_row sqrt hist).
Proof.
  unfold snapshot_order, output_row, macd, boll_bands. cbv zeta beta iota.
  assert ((if 10 <=? length hist - 1 then length hist - 1 - 10 else 0)
          = length hist - 1 - 10) as ->.
  { destruct (10 <=? length hist - 1) eqn:E; [done|]. apply Nat.leb_gt in E. lia. }
  repeat split.
Qed.

Lemma notna_guard (x : fl) : (if notna x then x else NaN) = x.
Proof. by destruct x. Qed.

Lemma output_row_w_returns (sqrt : Q -> Q) (data : list ohlcv) :
  List.Forall positive_close data -> data <> [] ->
  exists row, output_row_w sqrt data = inr row /\ length row = 17 /\
              List.Forall optional_value row /\
              snapshot_order PFloat sqrt data row.
Proof.
  intros Hdata Hne. unfold output_row_w, macd, boll_bands. cbv zeta beta iota.
  set (i := length data - 1). set (i_10 := Nat.max (i - 10) 0).
  assert (0 < length data) as Hlen by (destruct data; [done | simpl; lia]).
  destruct (cell_close_positive data i_10 Hdata) as (y & Hy & Hypos);
    [unfold i_10, i; lia|].
  unfold price_ten_day_change_w, py_pct. rewrite Hy.
  assert (Qeq_bool y 0 = false) as ->.
  { apply not_true_is_false. intros E. apply Qeq_bool_iff in E.
    rewrite E in Hypos. by apply Qlt_irrefl in Hypos. }
  cbn [bind ret]. eexists. split; [done|]. split; [done|]. split.
  - repeat (apply List.Forall_cons;
            [first [ exact I
                   | unfold price_50dma_change_w, price_200dma_change_w,
                       dma50_200dma_change_w;
                     match goal with
                     | |- optional_value (if ?b then _ else _) => destruct b
                     end;
                     [apply np_pct_optional; intros m Hm;
                      by apply (at_moving_avg_positive data _ _ _ Hdata Hm)
                     | exact I] ]|]).
    apply List.Forall_nil.
  - unfold snapshot_order, macd, boll_bands. cbv zeta beta iota. fold i.
    rewrite !notna_guard, <- Hy.
    replace (i - 10) with i_10 by (unfold i_10; lia).
    repeat split.
Qed.

(** ** The percentage changes of the snapshot *)

Lemma Qeq_bool_false (y : Q) : ~ (y == 0)%Q -> Qeq_bool y 0 = false.
Proof.
  intros Hy. apply not_true_is_false. intros E. by apply Qeq_bool_iff in E.
Qed.

Lemma Qeq_bool_true (z : Q) : (z == 0)%Q -> Qeq_bool z 0 = true.
Proof. intros Hz. by apply Qeq_bool_iff. Qed.

(** The four expressions of each runner, guard by guard.  Daily: the
    change is [(a-b)/b*100] when the denominator [b] is defined and not
    zero; the [else] branch gives the number 0 when [b] is zero, and also
    when [b] is undefined for the three changes whose denominator is a moving
    average (an undefined ten-day price passes its guard and gives NaN).
    Weekly: the change is [(a-b)/b*100] when [b] is defined and not zero, and
    NaN when [b] is undefined.  The rows report these values in their cells
    4 to 7. *)
Lemma percentage_change_guards (sqrt : Q -> Q) (hist : list ohlcv) (a : fl)
    (x y z : Q) :
  ~ (y == 0)%Q -> (z == 0)%Q ->
  let pct : fl := Some ((x - y) / y * 100)%Q in
  let i := length hist - 1 in
  let i_10 := if 10 <=? i then i - 10 else 0 in
  let price := cell close hist i in
  let ten_day_price := cell close hist i_10 in
  let dma50_i := at_ (moving_avg hist (Nat.min 50 (length hist)) close) i in
  let dma200_i := at_ (moving_avg hist (Nat.min 200 (length hist)) close) i in
  (price_ten_day_change (Some x) (Some y) = pct /\
   price_50dma_change (Some x) (Some y) = pct /\
   price_200dma_change (Some x) (Some y) = pct /\
   dma50_200dma_change (Some x) (Some y) = pct) /\
  (price_ten_day_change a (Some z) = Some 0%Q /\
   price_50dma_change a (Some z) = Some 0%Q /\
   price_200dma_change a (Some z) = Some 0%Q /\
   dma50_200dma_change a (Some z) = Some 0%Q) /\
  (price_ten_day_change a NaN = NaN /\
   price_50dma_change a NaN = Some 0%Q /\
   price_200dma_change a NaN = Some 0%Q /\
   dma50_200dma_change a NaN = Some 0%Q) /\
  (output_row sqrt hist !! 4 = Some (rounded (price_ten_day_change price ten_day_price)) /\
   output_row sqrt hist !! 5 = Some (rounded (price_50dma_change price dma50_i)) /\
   output_row sqrt hist !! 6 = Some (rounded (price_200dma_change price dma200_i)) /\
   output_row sqrt hist !! 7 = Some (rounded (dma50_200dma_change dma50_i dma200_i))) /\
  (price_ten_day_change_w (Some x) (Some y) = inr (PFloat pct) /\
   price_50dma_change_w (Some x) (Some y) = PFloat pct /\
   price_200dma_change_w (Some x) (Some y) = PFloat pct /\
   dma50_200dma_change_w (Some x) (Some y) = PFloat pct) /\
  (price_ten_day_change_w a NaN = inr (PFloat NaN) /\
   price_50dma_change_w a NaN = PFloat NaN /\
   price_200dma_change_w a NaN = PFloat NaN /\
   dma50_200dma_change_w a NaN = PFloat NaN) /\
  (forall row, output_row_w sqrt hist = inr row ->
     (exists c4, price_ten_day_change_w price
                   (cell close hist (Nat.max (i - 10) 0)) = inr c4 /\
                 row !! 4 = Some c4) /\
     row !! 5 = Some (price_50dma_change_w price dma50_i) /\
     row !! 6 = Some (price_200dma_change_w price dma200_i) /\
     row !! 7 = Some (dma50_200dma_change_w dma50_i dma200_i)).
Proof.
  intros Hy Hz pct i i_10 price ten_day_price dma50_i dma200_i.
  pose proof (Qeq_bool_false y Hy) as Hyb.
  pose proof (Qeq_bool_true z Hz) as Hzb.
  split; [|split; [|split; [|split; [|split; [|split]]]]].
  - unfold price_ten_day_change, price_50dma_change, price_200dma_change,
      dma50_200dma_change. simpl. by rewrite Hyb.
  - unfold price_ten_day_change, price_50dma_change, price_200dma_change,
      dma50_200dma_change. simpl. rewrite Hzb. simpl.
    rewrite !andb_false_r. done.
  - unfold price_ten_day_change, price_50dma_change, price_200dma_change,
      dma50_200dma_change. simpl. by destruct a.
  - unfold output_row, macd, boll_bands. cbv zeta beta iota. done.
  - unfold price_ten_day_change_w, price_50dma_change_w, price_200dma_change_w,
      dma50_200dma_change_w, py_pct, np_pct. simpl. by rewrite Hyb.
  - unfold price_ten_day_change_w, price_50dma_change_w, price_200dma_change_w,
      dma50_200dma_change_w, py_pct, np_pct. simpl.
    rewrite andb_false_r. by destruct a.
  - intros row. unfold output_row_w, macd, boll_bands. cbv zeta beta iota.
    fold i price dma50_i dma200_i.
    destruct (price_ten_day_change_w price _) as [e|c4]; [done|].
    cbn [bind ret]. intros [= <-]. split; [by exists c4|done].
Qed.

(** On a series of positive closes (what the fetch of the daily runner and
    the filter of the weekly runner leave) the denominators are defined and
    positive, and every percentage change is [(a-b)/b*100]: the guards of
    the daily runner and the missing guard of the weekly runner are never
    exercised. *)
Lemma moving_avg_last_positive (data : list ohlcv) (k : nat) :
  List.Forall positive_close data -> data <> [] -> 1 <= k ->
  exists m,
    at_ (moving_avg data (Nat.min k (length data)) close) (length data - 1) = Some m /\
    (0 < m)%Q.
Proof.
  intros Hdata Hne Hk.
  assert (0 < length data) as Hlen by (destruct data; [done | simpl; lia]).
  set (lb := Nat.min k (length data)). set (i := length data - 1).
  assert (at_ (moving_avg data lb close) i = moving_avg_at data lb close i) as Hat.
  { apply at_lookup, lookup_moving_avg. unfold i. lia. }
  rewrite Hat.
  assert (exists m, moving_avg_at data lb close i = Some m) as [m Hm].
  { unfold moving_avg_at.
    assert ((Z.of_nat i <? Z.of_nat lb - 1)%Z = false) as ->
      by (apply Z.ltb_ge; unfold i, lb; lia).
    set (window := map _ _).
    assert (In (cell close data i) window) as Hin.
    { unfold window. apply in_map. apply filter_In. split.
      - apply in_range. unfold i, lb. lia.
      - destruct (cell_close_positive data i Hdata) as (c & -> & _);
          [unfold i; lia|].
        rewrite andb_true_r. apply Nat.ltb_lt. unfold i. lia. }
    assert (List.Forall (fun x => exists c, x = Some c /\ (0 < c)%Q) window) as Hw.
    { apply List.Forall_forall. intros x Hx. unfold window in Hx.
      apply in_map_iff in Hx as (j & <- & Hj).
      apply filter_In in Hj as [_ Hj]. apply andb_true_iff in Hj as [Hj _].
      apply Nat.ltb_lt in Hj. by apply cell_close_positive. }
    destruct window as [|x w]; [done|].
    destruct (mean_positive (x :: w) Hw) as (m & Hm & _); [done|].
    by exists m. }
  exists m. split; [done|]. by apply (moving_avg_at_positive data lb i).
Qed.

Lemma percentage_changes_on_positive_series (hist : list ohlcv) :
  List.Forall positive_close hist -> hist <> [] ->
  let i := length hist - 1 in
  let i_10 := if 10 <=? i then i - 10 else 0 in
  let dma50_i := at_ (moving_avg hist (Nat.min 50 (length hist)) close) i in
  let dma200_i := at_ (moving_avg hist (Nat.min 200 (length hist)) close) i in
  exists p t d50 d200 : Q,
    ((0 < t)%Q /\ (0 < d50)%Q /\ (0 < d200)%Q) /\
    (cell close hist i = Some p /\ cell close hist i_10 = Some t /\
     cell close hist (Nat.max (i - 10) 0) = Some t /\
     dma50_i = Some d50 /\ dma200_i = Some d200) /\
    (price_ten_day_change (Some p) (Some t) = Some ((p - t) / t * 100)%Q /\
     price_50dma_change (Some p) (Some d50) = Some ((p - d50) / d50 * 100)%Q /\
     price_200dma_change (Some p) (Some d200) = Some ((p - d200) / d200 * 100)%Q /\
     dma50_200dma_change (Some d50) (Some d200) = Some ((d50 - d200) / d200 * 100)%Q) /\
    (price_ten_day_change_w (Some p) (Some t) = inr (PFloat (Some ((p - t) / t * 100)%Q)) /\
     price_50dma_change_w (Some p) (Some d50) = PFloat (Some ((p - d50) / d50 * 100)%Q) /\
     price_200dma_change_w (Some p) (Some d200) = PFloat (Some ((p - d200) / d200 * 100)%Q) /\
     dma50_200dma_change_w (Some d50) (Some d200) = PFloat (Some ((d50 - d200) / d200 * 100)%Q)).
Proof.
  intros Hdata Hne i i_10 dma50_i dma200_i.
  assert (0 < length hist) as Hlen by (destruct hist; [done | simpl; lia]).
  destruct (cell_close_positive hist i Hdata) as (p & Hp & _); [unfold i; lia|].
  destruct (cell_close_positive hist i_10 Hdata) as (t & Ht & Htpos).
  { unfold i_10, i. destruct (10 <=? _); lia. }
  assert (Nat.max (i - 10) 0 = i_10) as Hmax.
  { unfold i_10. destruct (10 <=? i) eqn:E; [lia|]. apply Nat.leb_gt in E. lia. }
  destruct (moving_avg_last_positive hist 50 Hdata Hne) as (d50 & Hd50 & H50pos); [lia|].
  destruct (moving_avg_last_positive hist 200 Hdata Hne) as (d200 & Hd200 & H200pos); [lia|].
  assert (forall y, (0 < y)%Q -> Qeq_bool y 0 = false) as Hnz.
  { intros y Hy. apply Qeq_bool_false. intros E. rewrite E in Hy.
    by apply Qlt_irrefl in Hy. }
  exists p, t, d50, d200.
  split; [done|]. split; [by rewrite Hmax|].
  unfold price_ten_day_change, price_50dma_change, price_200dma_change,
    dma50_200dma_change, price_ten_day_change_w, price_50dma_change_w,
    price_200dma_change_w, dma50_200dma_change_w, py_pct, np_pct.
  simpl. rewrite !(Hnz _ Htpos), !(Hnz _ H50pos), !(Hnz _ H200pos). done.
Qed.

(** ** The properties at concrete inputs *)

Lemma calculate_adx_di_undefined_witness :
  2 <= 14 /\ 14 + 1 <= length (uptrend 16) /\
  plus_di (calculate_adx (uptrend 16) 14) = NaN /\
  minus_di (calculate_adx (uptrend 16) 14) = NaN.
Proof.
  assert (2 <= 14) as H1 by lia.
  assert (14 + 1 <= length (uptrend 16)) as H2 by (vm_compute; lia).
  split; [exact H1|]. split; [exact H2|].
  destruct (calculate_adx_di_undefined (uptrend 16) 14 H1 H2)
    as (_ & _ & _ & _ & _ & _ & _ & A & B).
  split; [exact A|exact B].
Defined.

Lemma calculate_adx_summary_witness :
  1 <= 1 /\ 1 + 1 <= length (uptrend 6) /\
  plus_di (calculate_adx (uptrend 6) 1) =
    match plus_di_series (uptrend 6) 1
            !! (length (wilders_smooth (dx_series (uptrend 6) 1) 1) - 1 + 1 - 1) with
    | Some x => fround2 x
    | None => NaN
    end /\
  plus_di (calculate_adx (uptrend 6) 1) = Some (6667 # 100).
Proof.
  assert (1 <= 1) as H1 by lia.
  assert (1 + 1 <= length (uptrend 6)) as H2 by (vm_compute; lia).
  split; [exact H1|]. split; [exact H2|].
  destruct (calculate_adx_summary (uptrend 6) 1 H1 H2) as (_ & A & _).
  split; [exact A|]. rewrite A. vm_compute. reflexivity.
Defined.

Lemma ema_recurrence_witness :
  (Z.of_nat 4 > Z.of_nat 3 - 1)%Z /\ 4 < length (uptrend 6) /\
  prev_ema (ema_run (uptrend 6) 3 close 4) =
    last_defined (take 4 (ema (uptrend 6) 3 close)) /\
  ema (uptrend 6) 3 close !! 4 = Some (Some (79104 # 768)).
Proof.
  assert (Z.of_nat 4 > Z.of_nat 3 - 1)%Z as H1 by lia.
  assert (4 < length (uptrend 6)) as H2 by (vm_compute; lia).
  split; [exact H1|]. split; [exact H2|].
  destruct (ema_recurrence (uptrend 6) 3 close 4 H1 H2) as (_ & A & B).
  split; [exact A|]. vm_compute in B. destruct B as [B _].
  vm_compute. exact B.
Defined.

Lemma calculate_adx_short_witness :
  length (uptrend 5) < 14 + 1 /\
  calculate_adx (uptrend 5) 14 = {| adx := NaN; plus_di := NaN; minus_di := NaN |}.
Proof.
  assert (length (uptrend 5) < 14 + 1) as H1 by (vm_compute; lia).
  split; [exact H1|]. exact (calculate_adx_short (uptrend 5) 14 H1).
Defined.

(** The runners and the indicators on small inputs. *)

Example run_strategy_fetch_error :
  run_strategy sqrt6 (inl "Failed to fetch historical data: Empty response"%string)
  = [[PStr "ERROR: Failed to fetch historical data: Empty response"]].
Proof. reflexivity. Qed.

Example run_strategy_uptrend_3 :
  run_strategy sqrt6 (inr (uptrend 3))
  = [[PFloat (Some (10200 # 100)); PFloat (Some (10000 # 100));
      PFloat (Some (10100 # 100)); PFloat (Some (10100 # 100));
      PFloat (Some (200 # 100)); PFloat (Some (99 # 100));
      PFloat (Some (99 # 100)); PFloat (Some (0 # 100));
      PNone; PNone; PNone; PNone; PNone; PNone; PNone; PNone; PNone]].
Proof. vm_compute. reflexivity. Qed.

Example run_strategy_w_no_valid_row :
  run_strategy_w sqrt6 (inr [zero_close_row])
  = [[PStr "ERROR: No valid trading days"]].
Proof. vm_compute. reflexivity. Qed.

(** Without a guard, a zero denominator raises in the first weekly change
    and gives an infinite value in the other three. *)
Example weekly_zero_denominator :
  price_ten_day_change_w (Some 5%Q) (Some 0%Q)
    = inl "float division by zero"%string /\
  price_50dma_change_w (Some 5%Q) (Some 0%Q) = PInf false /\
  price_200dma_change_w (Some (-5)%Q) (Some 0%Q) = PInf true /\
  dma50_200dma_change_w (Some 0%Q) (Some 0%Q) = PFloat NaN.
Proof. vm_compute. repeat split. Qed.

Example calculate_adx_period_1 :
  calculate_adx (uptrend 6) 1
  = {| adx := Some (10000 # 100); plus_di := Some (6667 # 100);
       minus_di := Some (0 # 100) |}.
Proof. vm_compute. reflexivity. Qed.

Example calculate_adx_period_2 :
  calculate_adx (uptrend 6) 2 = {| adx := NaN; plus_di := NaN; minus_di := NaN |}.
Proof. vm_compute. reflexivity. Qed.

(** The 30-row uptrend with a 20-period window: on the last day the middle
    band is the mean of the last 20 closes, 119.5, between the two bands. *)
Example bollinger_uptrend_30 :
  exists u m l : Q,
    (boll_bands sqrt6 (uptrend 30) close 20 2).1.1 !! 29 = Some (Some u) /\
    (boll_bands sqrt6 (uptrend 30) close 20 2).1.2 !! 29 = Some (Some m) /\
    (boll_bands sqrt6 (uptrend 30) close 20 2).2 !! 29 = Some (Some l) /\
    moving_avg (uptrend 30) 20 close !! 29 = Some (Some m) /\
    (m == 239 # 2)%Q /\ (l < m)%Q /\ (m < u)%Q.
Proof.
  eexists _, _, _.
  split; [vm_compute; reflexivity|]. split; [vm_compute; reflexivity|].
  split; [vm_compute; reflexivity|]. split; [vm_compute; reflexivity|].
  split; [|split]; vm_compute; reflexivity.
Qed.

(** * Further properties *)

(** ** fetch_historical *)

Lemma quote_at_cases (arr : list (option Q)) (i : nat) :
  (readable (S i) arr /\
   exists v, quote_at arr i = inr v /\ float_or_0 v = quote_value arr i) \/
  (~ readable (S i) arr /\ quote_at arr i = inl "list index out of range"%string).
Proof.
  unfold quote_at, quote_value, readable. destruct arr as [|x arr'] eqn:E.
  - left. split; [by left|]. by exists (Some 0%Q).
  - rewrite <- E. destruct (arr !! i) as [v|] eqn:Hv.
    + left. split; [right; apply lookup_lt_Some in Hv; lia|]. by exists v.
    + right. split; [|done]. apply lookup_ge_None in Hv.
      intros [H|H]; [by subst|lia].
Qed.

Lemma readable_le (n m : nat) (arr : list (option Q)) :
  m <= n -> readable n arr -> readable m arr.
Proof. intros Hle [->|H]; [by left | right; lia]. Qed.

Lemma workday_step_cases (format_date : Z -> string) (timestamps : list Z)
    (quotes : quote_arrays) (result : list ohlcv) (i : nat) :
  (all_readable (S i) quotes /\
   workday_step format_date timestamps quotes result i =
   inr (if workday quotes i
        then result ++ [workday_row format_date timestamps quotes i]
        else result)) \/
  (~ all_readable (S i) quotes /\
   workday_step format_date timestamps quotes result i =
   inl "list index out of range"%string).
Proof.
  unfold workday_step, all_readable, workday, workday_row.
  destruct (quote_at_cases (q_open quotes) i) as [(Ro & o & -> & <-)|[Ro ->]];
    [|right; split; [tauto|done]].
  destruct (quote_at_cases (q_high quotes) i) as [(Rh & h & -> & <-)|[Rh ->]];
    [|right; split; [tauto|done]].
  destruct (quote_at_cases (q_low quotes) i) as [(Rl & l & -> & <-)|[Rl ->]];
    [|right; split; [tauto|done]].
  destruct (quote_at_cases (q_close quotes) i) as [(Rc & c & -> & <-)|[Rc ->]];
    [|right; split; [tauto|done]].
  destruct (quote_at_cases (q_volume quotes) i) as [(Rv & v & -> & <-)|[Rv ->]];
    [|right; split; [tauto|done]].
  left. split; [done|]. cbn [bind ret].
  by destruct (_ && _).
Qed.

Lemma foldM_workday_readable (format_date : Z -> string) (timestamps : list Z)
    (quotes : quote_arrays) (idx : list nat) (result : list ohlcv) :
  (forall i, In i idx -> all_readable (S i) quotes) ->
  foldM (workday_step format_date timestamps quotes) idx result =
  inr (result ++ map (workday_row format_date timestamps quotes)
                     (List.filter (workday quotes) idx)).
Proof.
  revert result. induction idx as [|i idx IH]; intros result Hidx; simpl.
  - by rewrite app_nil_r.
  - destruct (workday_step_cases format_date timestamps quotes result i)
      as [[_ ->]|[Hbad _]]; [|exfalso; apply Hbad, Hidx; by left].
    cbn [bind]. rewrite IH by (intros j Hj; apply Hidx; by right).
    destruct (workday quotes i); simpl; [|done].
    by rewrite <- app_assoc.
Qed.

Lemma foldM_workday_unreadable (format_date : Z -> string) (timestamps : list Z)
    (quotes : quote_arrays) (idx : list nat) (result : list ohlcv) :
  (exists i, In i idx /\ ~ all_readable (S i) quotes) ->
  foldM (workday_step format_date timestamps quotes) idx result =
  inl "list index out of range"%string.
Proof.
  revert result. induction idx as [|i idx IH]; intros result (j & Hj & Hbad).
  - destruct Hj.
  - simpl.
    destruct (workday_step_cases format_date timestamps quotes result i)
      as [[Hok ->]|[_ ->]]; [|done].
    cbn [bind]. apply IH. exists j. split; [|done].
    destruct Hj as [->|Hj]; [contradiction|done].
Qed.

Lemma all_readable_le (n m : nat) (quotes : quote_arrays) :
  m <= n -> all_readable n quotes -> all_readable m quotes.
Proof.
  intros Hle (H1 & H2 & H3 & H4 & H5).
  repeat split; by eapply readable_le.
Qed.

Lemma Qpositive_lt (x : Q) : Qpositive x = true -> (0 < x)%Q.
Proof.
  unfold Qpositive. intros H. apply negb_true_iff in H.
  apply Qnot_le_lt. intros Hle. apply Qle_bool_iff in Hle. congruence.
Qed.

Lemma readable_dec (n : nat) (arr : list (option Q)) :
  readable n arr \/ ~ readable n arr.
Proof.
  unfold readable. destruct arr as [|x arr']; [left; by left|].
  destruct (le_lt_dec n (length (x :: arr'))) as [H|H]; [left; by right|].
  right. intros [E|E]; [done|lia].
Qed.

Lemma all_readable_dec (n : nat) (quotes : quote_arrays) :
  all_readable n quotes \/ ~ all_readable n quotes.
Proof.
  unfold all_readable.
  destruct (readable_dec n (q_open quotes)); [|right; tauto].
  destruct (readable_dec n (q_high quotes)); [|right; tauto].
  destruct (readable_dec n (q_low quotes)); [|right; tauto].
  destruct (readable_dec n (q_close quotes)); [|right; tauto].
  destruct (readable_dec n (q_volume quotes)); [|right; tauto].
  left. tauto.
Qed.

Lemma fetch_historical_readable (format_date : Z -> string) (timestamps : list Z)
    (quotes : quote_arrays) :
  all_readable (length timestamps) quotes ->
  fetch_historical format_date (inr (timestamps, quotes)) =
  inr (map (workday_row format_date timestamps quotes)
           (List.filter (workday quotes) (range 0 (length timestamps)))).
Proof.
  intros Hall. unfold fetch_historical. cbn [bind fst snd].
  rewrite foldM_workday_readable; [done|].
  intros i Hi. apply in_range in Hi.
  apply (all_readable_le (length timestamps)); [lia|done].
Qed.

Lemma fetch_historical_unreadable (format_date : Z -> string) (timestamps : list Z)
    (quotes : quote_arrays) :
  ~ all_readable (length timestamps) quotes ->
  fetch_historical format_date (inr (timestamps, quotes)) =
  inl "Failed to fetch historical data: list index out of range"%string.
Proof.
  intros Hbad. unfold fetch_historical. cbn [bind fst snd].
  rewrite foldM_workday_unreadable; [done|].
  destruct (length timestamps) as [|n] eqn:E.
  - exfalso. apply Hbad. repeat split; right; lia.
  - exists n. split; [apply in_range; lia|done].
Qed.

(** X2. Every row that [fetch_historical] returns has its open, high, low,
    close and volume defined and strictly positive, and there are at most as
    many rows as timestamps. *)
Theorem fetch_historical_positive (format_date : Z -> string)
    (timestamps : list Z) (quotes : quote_arrays) (hist : list ohlcv) :
  fetch_historical format_date (inr (timestamps, quotes)) = inr hist ->
  length hist <= length timestamps /\
  List.Forall
    (fun row =>
       exists o h l c v,
         open row = Some o /\ high row = Some h /\ low row = Some l /\
         close row = Some c /\ volume row = Some v /\
         (0 < o)%Q /\ (0 < h)%Q /\ (0 < l)%Q /\ (0 < c)%Q /\ (0 < v)%Q)
    hist.
Proof.
  intros Hfetch.
  destruct (all_readable_dec (length timestamps) quotes) as [Hok|Hbad];
    [|by rewrite fetch_historical_unreadable in Hfetch].
  rewrite fetch_historical_readable in Hfetch by done. injection Hfetch as <-.
  split.
  - rewrite length_map. etransitivity; [apply filter_length_le|].
    rewrite length_range. lia.
  - apply List.Forall_forall. intros row Hrow.
    apply in_map_iff in Hrow as (i & <- & Hi). apply filter_In in Hi as [_ Hi].
    unfold workday in Hi. rewrite !andb_true_iff in Hi.
    destruct Hi as ((((Ho & Hh) & Hl) & Hc) & Hv).
    do 5 eexists. repeat split; by apply Qpositive_lt.
Qed.

(** ** The runners on valid series *)

Lemma output_row_head_cells (sqrt : Q -> Q) (hist : list ohlcv) :
  List.Forall positive_close hist -> hist <> [] ->
  let i := length hist - 1 in
  exists p t d50 d200 : Q,
    ((0 < t)%Q /\ (0 < d50)%Q /\ (0 < d200)%Q) /\
    (cell close hist i = Some p /\ cell close hist (i - 10) = Some t /\
     at_ (moving_avg hist (Nat.min 50 (length hist)) close) i = Some d50 /\
     at_ (moving_avg hist (Nat.min 200 (length hist)) close) i = Some d200) /\
    output_row sqrt hist !! 0 = Some (PFloat (Some (round2 p))) /\
    output_row sqrt hist !! 1 = Some (PFloat (Some (round2 t))) /\
    output_row sqrt hist !! 2 = Some (PFloat (Some (round2 d50))) /\
    output_row sqrt hist !! 3 = Some (PFloat (Some (round2 d200))) /\
    output_row sqrt hist !! 4 = Some (PFloat (Some (round2 ((p - t) / t * 100)%Q))) /\
    output_row sqrt hist !! 5 = Some (PFloat (Some (round2 ((p - d50) / d50 * 100)%Q))) /\
    output_row sqrt hist !! 6 = Some (PFloat (Some (round2 ((p - d200) / d200 * 100)%Q))) /\
    output_row sqrt hist !! 7 = Some (PFloat (Some (round2 ((d50 - d200) / d200 * 100)%Q))).
Proof.
  intros Hdata Hne i.
  destruct (percentage_changes_on_positive_series hist Hdata Hne)
    as (p & t & d50 & d200 & Hpos & (Hp & Ht & Ht' & H50 & H200) &
        (E1 & E2 & E3 & E4) & _).
  fold i in Hp, Ht, Ht', H50, H200.
  exists p, t, d50, d200. split; [done|]. split.
  { repeat split; try done. rewrite <- Ht'. f_equal. lia. }
  unfold output_row, macd, boll_bands. cbv zeta beta iota. fold i.
  cbn [lookup list_lookup].
  rewrite Hp, Ht, H50, H200, E1, E2, E3, E4. done.
Qed.

Lemma output_row_w_head_cells (sqrt : Q -> Q) (data : list ohlcv) :
  List.Forall positive_close data -> data <> [] ->
  let i := length data - 1 in
  exists (p t d50 d200 : Q) (row : list pyval),
    ((0 < t)%Q /\ (0 < d50)%Q /\ (0 < d200)%Q) /\
    (cell close data i = Some p /\ cell close data (i - 10) = Some t /\
     at_ (moving_avg data (Nat.min 50 (length data)) close) i = Some d50 /\
     at_ (moving_avg data (Nat.min 200 (length data)) close) i = Some d200) /\
    output_row_w sqrt data = inr row /\
    row !! 0 = Some (PFloat (Some p)) /\
    row !! 1 = Some (PFloat (Some t)) /\
    row !! 2 = Some (PFloat (Some d50)) /\
    row !! 3 = Some (PFloat (Some d200)) /\
    row !! 4 = Some (PFloat (Some ((p - t) / t * 100)%Q)) /\
    row !! 5 = Some (PFloat (Some ((p - d50) / d50 * 100)%Q)) /\
    row !! 6 = Some (PFloat (Some ((p - d200) / d200 * 100)%Q)) /\
    row !! 7 = Some (PFloat (Some ((d50 - d200) / d200 * 100)%Q)).
Proof.
  intros Hdata Hne i.
  destruct (percentage_changes_on_positive_series data Hdata Hne)
    as (p & t & d50 & d200 & Hpos & (Hp & _ & Ht & H50 & H200) & _ &
        (E1 & E2 & E3 & E4)).
  fold i in Hp, Ht, H50, H200.
  exists p, t, d50, d200.
  unfold output_row_w, macd, boll_bands. cbv zeta beta iota. fold i.
  rewrite Hp, Ht, H50, H200, E1, E2, E3, E4. cbn [bind ret].
  eexists. split; [done|]. split.
  { repeat split; try done. rewrite <- Ht. f_equal. lia. }
  split; [done|]. cbn [lookup list_lookup]. done.
Qed.

(** ** More on the exponential moving average *)

Lemma ema_lookup {R : Type} (data : list R) (lookback : nat) (col_idx : R -> fl)
    (i : nat) :
  i < length data ->
  ema data lookback col_idx !! i =
  last (result (ema_step data lookback col_idx
                         (ema_run data lookback col_idx i) i)).
Proof.
  intros Hi.
  assert (ema data lookback col_idx
          = result (ema_run data lookback col_idx (length data))) as ->.
  { unfold ema. destruct data; [simpl in Hi; lia | done]. }
  destruct (ema_run_prefix data lookback col_idx (S i) (length data))
    as [rest ->]; [lia|].
  rewrite ema_run_S.
  destruct (ema_step_result data lookback col_idx
              (ema_run data lookback col_idx i) i) as [x ->].
  rewrite <- app_assoc, lookup_app_r by (rewrite length_ema_run; lia).
  rewrite length_ema_run, Nat.sub_diag, last_snoc. done.
Qed.

Lemma ema_below_seed {R : Type} (data : list R) (lookback : nat)
    (col_idx : R -> fl) (i : nat) :
  i < length data -> i + 1 < lookback ->
  ema data lookback col_idx !! i = Some NaN.
Proof.
  intros Hi Hlt. rewrite ema_lookup by done. unfold ema_step.
  assert ((Z.of_nat i <? Z.of_nat lookback - 1)%Z = true) as ->
    by (apply Z.ltb_lt; lia).
  simpl. by rewrite last_snoc.
Qed.

Lemma ema_at_seed {R : Type} (data : list R) (lookback : nat)
    (col_idx : R -> fl) :
  1 <= lookback -> lookback <= length data ->
  ema data lookback col_idx !! (lookback - 1) = Some (ema_seed data lookback col_idx) /\
  prev_ema (ema_run data lookback col_idx lookback) = ema_seed data lookback col_idx.
Proof.
  intros HL Hlen.
  assert (ema_step data lookback col_idx
            (ema_run data lookback col_idx (lookback - 1)) (lookback - 1)
          = {| prev_ema := ema_seed data lookback col_idx;
               result := result (ema_run data lookback col_idx (lookback - 1))
                         ++ [ema_seed data lookback col_idx] |}) as Hstep.
  { unfold ema_step.
    assert ((Z.of_nat (lookback - 1) <? Z.of_nat lookback - 1)%Z = false) as ->
      by (apply Z.ltb_ge; lia).
    assert ((Z.of_nat (lookback - 1) =? Z.of_nat lookback - 1)%Z = true) as ->
      by (apply Z.eqb_eq; lia).
    unfold ema_seed. replace (lookback - 1 + 1) with lookback by lia. done. }
  split.
  - rewrite ema_lookup by lia. rewrite Hstep. simpl. by rewrite last_snoc.
  - pose proof (ema_run_S data lookback col_idx (lookback - 1)) as HS.
    replace (S (lookback - 1)) with lookback in HS by lia.
    rewrite HS, Hstep. done.
Qed.

(** Once the state is NaN at or after the seed index, it stays NaN. *)
Lemma ema_run_prev_nan {R : Type} (data : list R) (lookback : nat)
    (col_idx : R -> fl) (n m : nat) :
  lookback <= n -> n <= m ->
  prev_ema (ema_run data lookback col_idx n) = NaN ->
  prev_ema (ema_run data lookback col_idx m) = NaN.
Proof.
  intros HL Hle Hn. induction Hle as [|m Hle IH]; [done|].
  rewrite ema_run_S. unfold ema_step.
  assert ((Z.of_nat m <? Z.of_nat lookback - 1)%Z = false) as ->
    by (apply Z.ltb_ge; lia).
  assert ((Z.of_nat m =? Z.of_nat lookback - 1)%Z = false) as ->
    by (apply Z.eqb_neq; lia).
  rewrite IH. rewrite andb_false_r. done.
Qed.

Lemma ema_all_nan {R : Type} (data : list R) (lookback : nat)
    (col_idx : R -> fl) (i : nat) :
  lookback = 0 \/ ema_seed data lookback col_idx = NaN \/ length data < lookback ->
  i < length data ->
  ema data lookback col_idx !! i = Some NaN.
Proof.
  intros Hcase Hi.
  destruct (decide (i + 1 < lookback)) as [Hlt|Hge]; [by apply ema_below_seed|].
  destruct Hcase as [H0|[Hseed|Hshort]]; [| |lia].
  - rewrite ema_lookup by done. unfold ema_step.
    assert ((Z.of_nat i <? Z.of_nat lookback - 1)%Z = false) as ->
      by (apply Z.ltb_ge; lia).
    assert ((Z.of_nat i =? Z.of_nat lookback - 1)%Z = false) as ->
      by (apply Z.eqb_neq; lia).
    rewrite (ema_run_prev_nan data lookback col_idx 0 i) by (done || lia).
    rewrite andb_false_r. simpl. by rewrite last_snoc.
  - destruct (decide (lookback = 0)) as [H0|Hpos].
    { rewrite ema_lookup by done. unfold ema_step.
      assert ((Z.of_nat i <? Z.of_nat lookback - 1)%Z = false) as ->
        by (apply Z.ltb_ge; lia).
      assert ((Z.of_nat i =? Z.of_nat lookback - 1)%Z = false) as ->
        by (apply Z.eqb_neq; lia).
      rewrite (ema_run_prev_nan data lookback col_idx 0 i) by (done || lia).
      rewrite andb_false_r. simpl. by rewrite last_snoc. }
    destruct (ema_at_seed data lookback col_idx) as [Hat Hprev]; [lia..|].
    destruct (decide (i = lookback - 1)) as [->|Hne]; [by rewrite Hat, Hseed|].
    rewrite ema_lookup by done. unfold ema_step.
    assert ((Z.of_nat i <? Z.of_nat lookback - 1)%Z = false) as ->
      by (apply Z.ltb_ge; lia).
    assert ((Z.of_nat i =? Z.of_nat lookback - 1)%Z = false) as ->
      by (apply Z.eqb_neq; lia).
    rewrite (ema_run_prev_nan data lookback col_idx lookback i)
      by (lia || by rewrite Hprev).
    rewrite andb_false_r. simpl. by rewrite last_snoc.
Qed.

(** ** The MACD signal line *)

Lemma filter_none {A : Type} (p : A -> bool) (l : list A) :
  (forall a, In a l -> p a = false) -> List.filter p l = [].
Proof.
  induction l as [|a l IH]; intros H; simpl; [done|].
  rewrite (H a) by (by left). apply IH. intros b Hb. apply H. by right.
Qed.

Lemma macd_line_below_25 {R : Type} (data : list R) (col_idx : R -> fl) (i : nat) :
  i < length data -> i < 25 -> macd_line data col_idx !! i = Some NaN.
Proof.
  intros Hi H25. unfold macd_line.
  rewrite (lookup_map_range _ 0 (length data) i) by lia. simpl.
  rewrite (at_lookup _ _ _ (ema_below_seed data 26 col_idx i Hi ltac:(lia))).
  by rewrite andb_false_r.
Qed.

Lemma signal_seed_nan {R : Type} (data : list R) (col_idx : R -> fl) :
  ema_seed (map (fun val => [val]) (macd_line data col_idx)) 9 col0 = NaN.
Proof.
  unfold ema_seed. rewrite filter_none; [done|].
  intros j Hj. apply in_range in Hj. unfold cell.
  rewrite lookup_map.
  destruct (macd_line data col_idx !! j) as [v|] eqn:Hv; [|done].
  assert (j < length data) as Hlen.
  { apply lookup_lt_Some in Hv. by rewrite length_macd_line in Hv. }
  rewrite macd_line_below_25 in Hv by lia. by injection Hv as <-.
Qed.

Lemma signal_line_nan {R : Type} (data : list R) (col_idx : R -> fl) (i : nat) :
  i < length data -> signal_line data col_idx !! i = Some NaN.
Proof.
  intros Hi. unfold signal_line. apply ema_all_nan.
  - right. left. apply signal_seed_nan.
  - by rewrite length_map, length_macd_line.
Qed.

Lemma histogram_nan {R : Type} (data : list R) (col_idx : R -> fl) (i : nat) :
  i < length data -> histogram data col_idx !! i = Some NaN.
Proof.
  intros Hi. unfold histogram.
  rewrite (lookup_map_range _ 0 (length data) i) by lia. simpl.
  unfold histogram_at.
  rewrite (at_lookup _ _ _ (signal_line_nan data col_idx i Hi)).
  by rewrite andb_false_r.
Qed.


(** X3. For every series and column, the signal line and the histogram
    that [macd] returns are NaN at every index, whatever the length of the
    series: the MACD line is NaN at the indices below 25 (the 26-period EMA
    is not defined yet), so the 9-period EMA of the line is seeded at index
    8 from a window with no defined value, its state is NaN, and no later
    value of the line can set it. *)
Theorem macd_signal_undefined {R : Type} (data : list R) (col_idx : R -> fl) :
  let '(line, signal, hist) := macd data col_idx in
  signal = replicate (length data) NaN /\
  hist = replicate (length data) NaN /\
  take 25 line = replicate (Nat.min 25 (length data)) NaN.
Proof.
  unfold macd. split; [|split].
  - apply list_eq. intros i.
    destruct (decide (i < length data)) as [Hi|Hi].
    + rewrite signal_line_nan by done. symmetry. by apply lookup_replicate_2.
    + rewrite !lookup_ge_None_2; [done| |];
        rewrite ?length_replicate, ?length_signal_line; lia.
  - apply list_eq. intros i.
    destruct (decide (i < length data)) as [Hi|Hi].
    + rewrite histogram_nan by done. symmetry. by apply lookup_replicate_2.
    + rewrite !lookup_ge_None_2; [done| |];
        rewrite ?length_replicate; unfold histogram;
        rewrite ?length_map, ?length_range; lia.
  - apply list_eq. intros i.
    destruct (decide (i < Nat.min 25 (length data))) as [Hi|Hi].
    + rewrite lookup_take_lt by lia. rewrite macd_line_below_25 by lia.
      symmetry. by apply lookup_replicate_2.
    + rewrite !lookup_ge_None_2; [done| |];
        rewrite ?length_replicate, ?length_take, ?length_macd_line; lia.
Qed.

(** ** More on Wilder's smoothing and the ADX summary *)

Lemma fadd_nan_r (x : fl) : fadd x NaN = NaN.
Proof. by destruct x. Qed.

Lemma fsum_nan (l : list fl) : In NaN l -> fsum l = NaN.
Proof.
  induction l as [|x l IH]; intros Hin; [destruct Hin|].
  change (fsum (x :: l)) with (fadd x (fsum l)).
  destruct Hin as [->|Hin]; [done|]. rewrite IH by done. apply fadd_nan_r.
Qed.

Lemma mean_nan (l : list fl) : In NaN l -> mean l = NaN.
Proof.
  intros Hin. unfold mean. destruct l; [done|]. by rewrite fsum_nan.
Qed.

Lemma wilders_smooth_short (series : list fl) (p : nat) :
  length series < p -> wilders_smooth series p = replicate (length series) NaN.
Proof.
  intros Hlt. unfold wilders_smooth.
  assert ((length series <? p) = true) as -> by (by apply Nat.ltb_lt). done.
Qed.

Lemma wilders_smooth_nan_from (series : list fl) (p j i : nat) :
  1 <= p -> series !! j = Some NaN -> j <= i -> i < length series ->
  wilders_smooth series p !! i = Some NaN.
Proof.
  intros Hp Hj Hji Hi.
  destruct (decide (length series < p)) as [Hshort|Hlong].
  { rewrite wilders_smooth_short by done. by apply lookup_replicate_2. }
  destruct (wilders_smooth_spec series p Hp ltac:(lia)) as (_ & Hlow & Hseed & Hrec).
  assert (j < p -> mean (take p series) = NaN) as Hmean.
  { intros Hjp. apply mean_nan. apply list_elem_of_In.
    apply list_elem_of_lookup. exists j. by rewrite lookup_take_lt. }
  assert (exists d, i = j + d) as [d ->] by (exists (i - j); lia).
  clear Hji. induction d as [|d IH].
  - rewrite Nat.add_0_r in *.
    destruct (decide (j < p - 1)) as [H1|H1]; [by apply Hlow|].
    destruct (decide (j = p - 1)) as [->|H2]; [by rewrite Hseed, Hmean by lia|].
    rewrite Hrec by lia. rewrite (at_lookup _ _ _ Hj).
    by rewrite fadd_nan_r.
  - destruct (decide (j + S d < p - 1)) as [H1|H1]; [by apply Hlow|].
    destruct (decide (j + S d = p - 1)) as [E|H2].
    { rewrite E, Hseed, Hmean by lia. done. }
    rewrite Hrec by lia.
    replace (j + S d - 1) with (j + d) by lia.
    rewrite (at_lookup _ _ _ (IH ltac:(lia))). done.
Qed.

(** X4. For every series and every period [p >= 1], [wilders_smooth]
    returns a list of the length of the series; it is all NaN when the series
    has fewer than [p] values; otherwise it is NaN below index [p-1], holds
    the mean of the first [p] samples at index [p-1], and
    [(out[i-1]*(p-1) + series[i]) / p] at every index [i >= p]. *)
Theorem wilders_smooth_recurrence (series : list fl) (p : nat) :
  1 <= p ->
  let out := wilders_smooth series p in
  length out = length series /\
  (length series < p -> out = replicate (length series) NaN) /\
  (p <= length series ->
   (forall j, j < p - 1 -> out !! j = Some NaN) /\
   out !! (p - 1) = Some (mean (take p series)) /\
   (forall i, p <= i -> i < length series ->
      out !! i =
      Some (fdiv (fadd (fmul (at_ out (i - 1)) (fint (Z.of_nat p - 1)))
                       (at_ series i))
                 (fnat p)))).
Proof.
  intros Hp out. split; [apply length_wilders_smooth|]. split.
  - apply wilders_smooth_short.
  - intros Hlen.
    destruct (wilders_smooth_spec series p Hp Hlen) as (_ & H1 & H2 & H3). done.
Qed.

(** X5. Wilder's smoothing does not recover from an undefined sample: for
    every period [p >= 1], if the series is NaN at index [j], the smoothed
    series is NaN at every index from [j] on (and, when [j < p], at every
    index). *)
Theorem wilders_smooth_nan_propagates (series : list fl) (p j : nat) :
  1 <= p -> series !! j = Some NaN ->
  (forall i, j <= i -> i < length series -> wilders_smooth series p !! i = Some NaN) /\
  (j < p -> wilders_smooth series p = replicate (length series) NaN).
Proof.
  intros Hp Hj. split; [intros i; by apply wilders_smooth_nan_from|].
  intros Hjp. apply list_eq. intros i.
  destruct (decide (i < length series)) as [Hi|Hi].
  - rewrite lookup_replicate_2 by done.
    destruct (decide (j <= i)) as [Hle|Hgt];
      [by apply (wilders_smooth_nan_from series p j)|].
    destruct (decide (length series < p)) as [Hshort|Hlong].
    { rewrite wilders_smooth_short by done. by apply lookup_replicate_2. }
    destruct (wilders_smooth_spec series p Hp ltac:(lia)) as (_ & Hlow & _).
    apply Hlow. lia.
  - rewrite !lookup_ge_None_2; [done| |];
      rewrite ?length_replicate, ?length_wilders_smooth; lia.
Qed.

Lemma calculate_adx_di_nan (data : list ohlcv) (period : nat) :
  2 <= period -> period + 1 <= length data ->
  plus_di (calculate_adx data period) = NaN /\
  minus_di (calculate_adx data period) = NaN.
Proof.
  intros Hp Hn. unfold calculate_adx.
  assert ((length data <? period + 1) = false) as -> by (apply Nat.ltb_ge; lia).
  simpl. rewrite length_adx_smooth, length_plus_di_series, length_minus_di_series.
  assert ((length data - 1 - 1 + period - 1 <? length data - 1) = false) as ->
    by (apply Nat.ltb_ge; lia).
  done.
Qed.

Lemma calculate_adx_all_nan (data : list ohlcv) (period : nat) :
  2 <= period ->
  calculate_adx data period = {| adx := NaN; plus_di := NaN; minus_di := NaN |}.
Proof.
  intros Hp. destruct (decide (length data < period + 1)) as [Hshort|Hlong].
  - unfold calculate_adx.
    assert ((length data <? period + 1) = true) as -> by (by apply Nat.ltb_lt).
    done.
  - pose proof (calculate_adx_adx_undefined data period Hp ltac:(lia)) as Ha.
    destruct (calculate_adx_di_nan data period Hp ltac:(lia)) as [Hpd Hmd].
    destruct (calculate_adx data period) as [a pd md]. simpl in *. by subst.
Qed.

(** X6. For every period of 2 or more, [calculate_adx] returns NaN for
    [adx], [plus_di] and [minus_di] on every series, long or short: the DX
    series starts with NaN (the smoothed true range is not defined at index
    0), so its Wilder smoothing holds no value, and the DI values are read
    beyond the end of their series. *)
Theorem calculate_adx_undefined (data : list ohlcv) (period : nat) :
  2 <= period ->
  calculate_adx data period = {| adx := NaN; plus_di := NaN; minus_di := NaN |} /\
  (period + 1 <= length data ->
   adx_smooth data period = replicate (length data - 1) NaN).
Proof.
  intros Hp. split; [by apply calculate_adx_all_nan|].
  intros Hn. unfold adx_smooth.
  assert (dx_series data period !! 0 = Some NaN) as Hdx0.
  { unfold dx_series, di_rows.
    rewrite lookup_map, (lookup_map_range _ 0 _ 0)
      by (rewrite length_wilders_smooth, length_true_ranges; lia).
    simpl. unfold di_at.
    destruct (wilders_smooth_spec (true_ranges data) period) as (_ & Hlow & _);
      [lia | rewrite length_true_ranges; lia |].
    rewrite (at_lookup _ _ _ (Hlow 0 ltac:(lia))). done. }
  apply list_eq. intros i.
  destruct (decide (i < length data - 1)) as [Hi|Hi].
  - rewrite lookup_replicate_2 by done.
    apply (wilders_smooth_nan_from _ period 0); try lia; try done.
    by rewrite length_dx_series.
  - rewrite !lookup_ge_None_2; [done| |];
      rewrite ?length_replicate, ?length_wilders_smooth, ?length_dx_series; lia.
Qed.

(** ** Lengths and insufficient history *)

Lemma length_boll_bands {R : Type} (sqrt : Q -> Q) (data : list R)
    (col_idx : R -> fl) (period : nat) (std_dev : Q) :
  let bands := boll_bands sqrt data col_idx period std_dev in
  length bands.1.1 = length data /\ length bands.1.2 = length data /\
  length bands.2 = length data.
Proof.
  unfold boll_bands. simpl. rewrite !length_map, length_range.
  repeat split; lia.
Qed.

Lemma lookup_boll_bands {R : Type} (sqrt : Q -> Q) (data : list R)
    (col_idx : R -> fl) (period : nat) (std_dev : Q) (i : nat) :
  i < length data ->
  let bands := boll_bands sqrt data col_idx period std_dev in
  let row := boll_bands_at sqrt data col_idx period std_dev i in
  bands.1.1 !! i = Some row.1.1 /\ bands.1.2 !! i = Some row.1.2 /\
  bands.2 !! i = Some row.2.
Proof.
  intros Hi. unfold boll_bands. cbn [fst snd].
  set (rows := map _ (range 0 (length data))).
  assert (rows !! i = Some (boll_bands_at sqrt data col_idx period std_dev i)) as H.
  { unfold rows. by rewrite (lookup_map_range _ 0 (length data) i) by lia. }
  rewrite !lookup_map, H. done.
Qed.

Lemma all_nan_replicate (l : list fl) (n : nat) :
  length l = n -> (forall i, i < n -> l !! i = Some NaN) -> l = replicate n NaN.
Proof.
  intros Hlen Hall. apply list_eq. intros i.
  destruct (decide (i < n)) as [Hi|Hi].
  - rewrite Hall by done. symmetry. by apply lookup_replicate_2.
  - rewrite !lookup_ge_None_2; [done| |]; rewrite ?length_replicate; lia.
Qed.

Lemma range_empty (a b : nat) : b <= a -> range a b = [].
Proof. intros H. unfold range. by replace (b - a) with 0 by lia. Qed.

Lemma moving_avg_at_no_history {R : Type} (data : list R) (lookback : nat)
    (col_idx : R -> fl) (i : nat) :
  i + 1 < lookback \/ lookback = 0 ->
  moving_avg_at data lookback col_idx i = NaN.
Proof.
  intros [Hlt| ->]; unfold moving_avg_at.
  - assert ((Z.of_nat i <? Z.of_nat lookback - 1)%Z = true) as ->
      by (apply Z.ltb_lt; lia).
    done.
  - assert ((Z.of_nat i <? Z.of_nat 0 - 1)%Z = false) as ->
      by (apply Z.ltb_ge; lia).
    by rewrite range_empty by lia.
Qed.

Lemma boll_bands_at_no_history {R : Type} (sqrt : Q -> Q) (data : list R)
    (col_idx : R -> fl) (period : nat) (std_dev : Q) (i : nat) :
  i + 1 < period \/ period = 0 ->
  boll_bands_at sqrt data col_idx period std_dev i = (NaN, NaN, NaN).
Proof.
  intros [Hlt| ->]; unfold boll_bands_at.
  - assert ((Z.of_nat i <? Z.of_nat period - 1)%Z = true) as ->
      by (apply Z.ltb_lt; lia).
    done.
  - assert ((Z.of_nat i <? Z.of_nat 0 - 1)%Z = false) as ->
      by (apply Z.ltb_ge; lia).
    by rewrite range_empty by lia.
Qed.

(** X7. The derived series are aligned with the input: for every series,
    [moving_avg], [ema], the three lists of [macd] and the three lists of
    [boll_bands] have the length of the series; the true range, the
    directional movements and the DI and DX series of [calculate_adx] have
    one entry per pair of consecutive rows. *)
Theorem derived_series_lengths (sqrt : Q -> Q) (data : list ohlcv)
    (col_idx : ohlcv -> fl) (lookback period : nat) (std_dev : Q) :
  let n := length data in
  let '(line, signal, hist) := macd data col_idx in
  let '(upper, middle, lower) := boll_bands sqrt data col_idx period std_dev in
  length (moving_avg data lookback col_idx) = n /\
  length (ema data lookback col_idx) = n /\
  (length line = n /\ length signal = n /\ length hist = n) /\
  (length upper = n /\ length middle = n /\ length lower = n) /\
  (length (true_ranges data) = n - 1 /\ length (plus_dm data) = n - 1 /\
   length (minus_dm data) = n - 1) /\
  (length (plus_di_series data period) = n - 1 /\
   length (minus_di_series data period) = n - 1 /\
   length (dx_series data period) = n - 1 /\
   length (adx_smooth data period) = n - 1).
Proof.
  unfold macd.
  pose proof (length_boll_bands sqrt data col_idx period std_dev) as Hb.
  unfold boll_bands in *. simpl in Hb. destruct Hb as (Hu & Hm & Hl).
  split; [apply length_moving_avg|]. split; [apply length_ema|].
  split.
  { split; [apply length_macd_line|]. split; [apply length_signal_line|].
    unfold histogram. rewrite length_map, length_range. lia. }
  split; [done|].
  split.
  { split; [apply length_true_ranges|].
    unfold plus_dm, minus_dm. rewrite !length_map, !length_range. done. }
  split; [apply length_plus_di_series|].
  split; [apply length_minus_di_series|].
  split; [apply length_dx_series | apply length_adx_smooth].
Qed.

(** X8. Insufficient history: when the series has fewer rows than the
    lookback, or the lookback is 0, [moving_avg], [ema] and the three bands
    of [boll_bands] are NaN at every index. *)
Theorem no_value_without_history {R : Type} (sqrt : Q -> Q) (data : list R)
    (col_idx : R -> fl) (lookback : nat) (std_dev : Q) :
  length data < lookback \/ lookback = 0 ->
  let nans := replicate (length data) NaN in
  moving_avg data lookback col_idx = nans /\
  ema data lookback col_idx = nans /\
  boll_bands sqrt data col_idx lookback std_dev = (nans, nans, nans).
Proof.
  intros Hcase nans.
  assert (forall i, i < length data -> i + 1 < lookback \/ lookback = 0) as Hi.
  { intros i Hlt. destruct Hcase; [left; lia | by right]. }
  split; [|split].
  - apply all_nan_replicate; [apply length_moving_avg|].
    intros i Hlt. rewrite lookup_moving_avg by done.
    by rewrite moving_avg_at_no_history by auto.
  - apply all_nan_replicate; [apply length_ema|].
    intros i Hlt. apply ema_all_nan; [|done].
    destruct Hcase; [right; by right | by left].
  - destruct (length_boll_bands sqrt data col_idx lookback std_dev)
      as (Hu & Hm & Hl).
    destruct (boll_bands sqrt data col_idx lookback std_dev)
      as [[upper middle] lower] eqn:E.
    simpl in Hu, Hm, Hl.
    assert (forall i, i < length data ->
              upper !! i = Some NaN /\ middle !! i = Some NaN /\
              lower !! i = Some NaN) as Hall.
    { intros i Hlt.
      pose proof (lookup_boll_bands sqrt data col_idx lookback std_dev i Hlt) as H.
      rewrite E in H. simpl in H.
      rewrite boll_bands_at_no_history in H by auto. done. }
    f_equal; [f_equal|]; apply all_nan_replicate; try done;
      intros i Hlt; by apply Hall.
Qed.

(** ** Where the averages are defined *)

Lemma window_defined {R : Type} (data : list R) (col_idx : R -> fl)
    (p : nat -> bool) (idx : list nat) (j0 : nat) :
  (forall j, p j = true -> notna (cell col_idx data j) = true) ->
  In j0 idx -> p j0 = true ->
  exists m, (let window := map (cell col_idx data) (List.filter p idx) in
             match window with [] => NaN | _ => mean window end) = Some m.
Proof.
  intros Hp Hin Hj0. cbv zeta. set (window := map _ _).
  assert (In (cell col_idx data j0) window) as Hmem.
  { unfold window. apply in_map. by apply filter_In. }
  assert (List.Forall (fun x => notna x = true) window) as Hw.
  { apply List.Forall_forall. intros x Hx. unfold window in Hx.
    apply in_map_iff in Hx as (j & <- & Hj). apply filter_In in Hj as [_ Hj].
    by apply Hp. }
  destruct window as [|x w] eqn:E; [done|].
  apply mean_defined; done.
Qed.

Lemma moving_avg_defined {R : Type} (data : list R) (lookback : nat)
    (col_idx : R -> fl) (i : nat) :
  (forall j, j < length data -> notna (cell col_idx data j) = true) ->
  1 <= lookback -> lookback <= i + 1 -> i < length data ->
  exists m, moving_avg data lookback col_idx !! i = Some (Some m).
Proof.
  intros Hdata HL Hi Hlen. rewrite lookup_moving_avg by done.
  unfold moving_avg_at.
  assert ((Z.of_nat i <? Z.of_nat lookback - 1)%Z = false) as ->
    by (apply Z.ltb_ge; lia).
  destruct (window_defined data col_idx
              (fun j => (j <? length data) && notna (cell col_idx data j))
              (range (i + 1 - lookback) (i + 1)) i) as [m Hm].
  - intros j Hj. by apply andb_true_iff in Hj as [_ ?].
  - apply in_range. lia.
  - rewrite Hdata by done. rewrite andb_true_r. by apply Nat.ltb_lt.
  - exists m. cbv zeta in Hm. by rewrite Hm.
Qed.

Lemma ema_seed_defined {R : Type} (data : list R) (lookback : nat)
    (col_idx : R -> fl) :
  (forall j, j < length data -> notna (cell col_idx data j) = true) ->
  1 <= lookback -> 1 <= length data ->
  exists m, ema_seed data lookback col_idx = Some m.
Proof.
  intros Hdata HL Hlen. unfold ema_seed.
  apply (window_defined data col_idx _ _ 0).
  - done.
  - apply in_range. lia.
  - apply Hdata. lia.
Qed.

Lemma ema_run_defined {R : Type} (data : list R) (lookback : nat)
    (col_idx : R -> fl) (n : nat) :
  (forall j, j < length data -> notna (cell col_idx data j) = true) ->
  1 <= lookback -> lookback <= n -> n <= length data ->
  exists p, prev_ema (ema_run data lookback col_idx n) = Some p.
Proof.
  intros Hdata HL Hn Hlen. induction Hn as [|n Hn IH].
  - destruct (ema_seed_defined data lookback col_idx) as [m Hm]; [done|lia..|].
    destruct (ema_at_seed data lookback col_idx) as [_ ->]; [lia..|].
    by exists m.
  - destruct IH as [p Hp]; [lia|].
    rewrite ema_run_S. unfold ema_step.
    assert ((Z.of_nat n <? Z.of_nat lookback - 1)%Z = false) as ->
      by (apply Z.ltb_ge; lia).
    assert ((Z.of_nat n =? Z.of_nat lookback - 1)%Z = false) as ->
      by (apply Z.eqb_neq; lia).
    rewrite Hp. specialize (Hdata n ltac:(lia)).
    destruct (cell col_idx data n) as [c|]; [|done]. simpl. by eexists.
Qed.

Lemma ema_defined {R : Type} (data : list R) (lookback : nat)
    (col_idx : R -> fl) (i : nat) :
  (forall j, j < length data -> notna (cell col_idx data j) = true) ->
  1 <= lookback -> lookback <= i + 1 -> i < length data ->
  exists m, ema data lookback col_idx !! i = Some (Some m).
Proof.
  intros Hdata HL Hi Hlen.
  destruct (ema_run_defined data lookback col_idx (S i)) as [p Hp];
    [done|lia..|].
  pose proof (ema_run_prev data lookback col_idx (S i)) as Hprev.
  rewrite Hp in Hprev. rewrite ema_run_S in Hprev.
  rewrite ema_lookup by done.
  destruct (ema_step_result data lookback col_idx
              (ema_run data lookback col_idx i) i) as [x Hx].
  rewrite Hx in Hprev |- *. rewrite last_snoc.
  rewrite last_defined_snoc in Hprev.
  destruct x as [m|]; [by exists m|].
  exfalso. simpl in Hprev.
  (* the output at [i] is NaN although the state holds a value *)
  rewrite ema_run_S in Hp. unfold ema_step in Hx, Hp.
  destruct (Z.of_nat i <? Z.of_nat lookback - 1)%Z eqn:H1;
    [apply Z.ltb_lt in H1; lia|].
  destruct (Z.of_nat i =? Z.of_nat lookback - 1)%Z eqn:H2.
  { cbn [prev_ema result] in Hx, Hp. apply app_inj_tail in Hx as [_ Hx].
    congruence. }
  destruct (notna (cell col_idx data i) && notna (prev_ema _)) eqn:H3.
  - cbn [prev_ema result] in Hx, Hp. apply app_inj_tail in Hx as [_ Hx].
    congruence.
  - apply andb_false_iff in H3 as [H3|H3].
    + rewrite Hdata in H3 by done. done.
    + destruct (ema_run_defined data lookback col_idx i) as [q Hq];
        [done|lia..|].
      rewrite Hq in H3. done.
Qed.

(** X10. The seed of [ema]: for a lookback [L >= 1] no longer than the
    series, [ema] is NaN below index [L-1] and holds at index [L-1] the mean
    of the defined values among the first [L] ones (NaN when there is none);
    when that seed is NaN, [ema] is NaN at every index, whatever the later
    values are. *)
Theorem ema_seeding {R : Type} (data : list R) (L : nat) (col_idx : R -> fl) :
  1 <= L -> L <= length data ->
  let out := ema data L col_idx in
  let window :=
    List.filter notna (map (cell col_idx data) (range 0 L)) in
  (forall i, i < L - 1 -> out !! i = Some NaN) /\
  out !! (L - 1) = Some (match window with [] => NaN | _ => mean window end) /\
  (window = [] -> out = replicate (length data) NaN).
Proof.
  intros HL Hlen out window.
  assert (ema_seed data L col_idx
          = match window with [] => NaN | _ => mean window end) as Hseed.
  { unfold ema_seed, window. rewrite filter_map_comm. done. }
  split; [|split].
  - intros i Hi. apply ema_below_seed; lia.
  - rewrite <- Hseed. by apply ema_at_seed.
  - intros Hw. apply all_nan_replicate; [apply length_ema|].
    intros i Hi. apply ema_all_nan; [|done].
    right. left. by rewrite Hseed, Hw.
Qed.

(** X11. On a series whose column has no undefined value, for every
    lookback [L >= 1]: [moving_avg] and [ema] are NaN at every index below
    [L-1] and hold a value at every index from [L-1] on. *)
Theorem averages_defined_on_complete_data {R : Type} (data : list R) (L : nat)
    (col_idx : R -> fl) :
  (forall j, j < length data -> notna (cell col_idx data j) = true) ->
  1 <= L ->
  forall i, i < length data ->
    (i < L - 1 ->
     moving_avg data L col_idx !! i = Some NaN /\
     ema data L col_idx !! i = Some NaN) /\
    (L - 1 <= i ->
     (exists m, moving_avg data L col_idx !! i = Some (Some m)) /\
     (exists m, ema data L col_idx !! i = Some (Some m))).
Proof.
  intros Hdata HL i Hi. split.
  - intros Hlt. split.
    + rewrite lookup_moving_avg by done.
      by rewrite moving_avg_at_no_history by (left; lia).
    + apply ema_below_seed; lia.
  - intros Hge. split.
    + apply moving_avg_defined; done || lia.
    + apply ema_defined; done || lia.
Qed.

(** ** More on the Bollinger bands *)

Lemma boll_bands_at_cases {R : Type} (sqrt : Q -> Q) (data : list R)
    (col_idx : R -> fl) (period : nat) (std_dev : Q) (i : nat) :
  let window :=
    List.filter notna (map (cell col_idx data) (range (i + 1 - period) (i + 1))) in
  (boll_bands_at sqrt data col_idx period std_dev i = (NaN, NaN, NaN) /\
   (i + 1 < period \/ window = [])) \/
  (exists m s, mean window = Some m /\ np_std sqrt window = Some s /\
     boll_bands_at sqrt data col_idx period std_dev i =
     (Some (m + s * std_dev)%Q, Some m, Some (m - s * std_dev)%Q) /\
     period <= i + 1 /\ window <> []).
Proof.
  intros window. unfold boll_bands_at. fold window.
  destruct (Z.of_nat i <? Z.of_nat period - 1)%Z eqn:H1.
  { left. split; [done|]. left. apply Z.ltb_lt in H1. lia. }
  apply Z.ltb_ge in H1.
  destruct (length window =? 0) eqn:H2.
  { left. split; [done|]. right. apply Nat.eqb_eq in H2. by destruct window. }
  apply Nat.eqb_neq in H2.
  assert (window <> []) as Hne by (intros E; by rewrite E in H2).
  destruct (mean_defined window (filter_notna_defined _) Hne) as [m Hm].
  destruct (np_std_defined sqrt window (filter_notna_defined _) Hne) as [s Hs].
  right. exists m, s. rewrite Hm, Hs. repeat split; try done. lia.
Qed.

(** X13. At every index of the series the three Bollinger bands are
    defined together or undefined together: all three are NaN when
    [i < period - 1] or when the window [[i-period+1, i]] has no defined
    value, and all three hold a value otherwise. *)
Theorem boll_bands_defined_together {R : Type} (sqrt : Q -> Q) (data : list R)
    (col_idx : R -> fl) (period : nat) (std_dev : Q) (i : nat) :
  i < length data ->
  let bands := boll_bands sqrt data col_idx period std_dev in
  let window :=
    List.filter notna (map (cell col_idx data) (range (i + 1 - period) (i + 1))) in
  ((i + 1 < period \/ window = []) /\
   bands.1.1 !! i = Some NaN /\ bands.1.2 !! i = Some NaN /\
   bands.2 !! i = Some NaN) \/
  ((period <= i + 1 /\ window <> []) /\
   exists u m l, bands.1.1 !! i = Some (Some u) /\ bands.1.2 !! i = Some (Some m) /\
                 bands.2 !! i = Some (Some l)).
Proof.
  intros Hi bands window. subst bands.
  destruct (lookup_boll_bands sqrt data col_idx period std_dev i Hi)
    as (Hu & Hm & Hl).
  rewrite Hu, Hm, Hl.
  destruct (boll_bands_at_cases sqrt data col_idx period std_dev i)
    as [[-> Hwhy]|(m & s & _ & _ & -> & Hge & Hne)].
  - left. done.
  - right. split; [done|]. by eexists _, _, _.
Qed.

(** X14. With a square root that is never negative and a multiplier
    [std_dev >= 0], wherever the bands are defined the lower band is at most
    the middle band and the middle band at most the upper band. *)
Theorem boll_bands_ordered {R : Type} (sqrt : Q -> Q) (data : list R)
    (col_idx : R -> fl) (period : nat) (std_dev : Q) (i : nat) (u m l : Q) :
  (forall q, (0 <= sqrt q)%Q) -> (0 <= std_dev)%Q ->
  let bands := boll_bands sqrt data col_idx period std_dev in
  bands.1.1 !! i = Some (Some u) -> bands.1.2 !! i = Some (Some m) ->
  bands.2 !! i = Some (Some l) ->
  (l <= m)%Q /\ (m <= u)%Q.
Proof.
  intros Hsqrt Hk bands Hu Hm Hl. subst bands.
  assert (i < length data) as Hi.
  { apply lookup_lt_Some in Hm.
    by rewrite (proj1 (proj2 (length_boll_bands sqrt data col_idx period std_dev)))
      in Hm. }
  destruct (lookup_boll_bands sqrt data col_idx period std_dev i Hi)
    as (Hu' & Hm' & Hl').
  rewrite Hu' in Hu. rewrite Hm' in Hm. rewrite Hl' in Hl.
  destruct (boll_bands_at_cases sqrt data col_idx period std_dev i)
    as [[E _]|(m0 & s & _ & Hs & E & _ & _)]; rewrite E in Hu, Hm, Hl; [done|].
  simpl in Hu, Hm, Hl. injection Hu as <-. injection Hm as <-. injection Hl as <-.
  assert (0 <= s)%Q as Hs0.
  { unfold np_std in Hs. destruct (mean (map _ _)) as [x|]; [|done].
    injection Hs as <-. apply Hsqrt. }
  assert (0 <= s * std_dev)%Q by (by apply Qmult_le_0_compat).
  split; lra.
Qed.

(** ** Directional movement and true range *)

Lemma pymax_defined (a b : Q) :
  exists t, pymax (Some a) (Some b) = Some t /\ (a <= t)%Q /\ (b <= t)%Q /\
            (t = a \/ t = b).
Proof.
  unfold pymax, fgt. destruct (Qle_bool b a) eqn:E; simpl.
  - apply Qle_bool_iff in E. exists a. repeat split; try done; [apply Qle_refl | by left].
  - exists b. repeat split; try done; [|apply Qle_refl | by right].
    apply Qlt_le_weak, Qnot_le_lt. intros H. apply Qle_bool_iff in H. congruence.
Qed.

Lemma fgt_lt (x y : Q) : fgt (Some x) (Some y) = true <-> (y < x)%Q.
Proof.
  unfold fgt. rewrite negb_true_iff. split.
  - intros E. apply Qnot_le_lt. intros H. apply Qle_bool_iff in H. congruence.
  - intros H. apply not_true_is_false. intros E. apply Qle_bool_iff in E.
    by apply Qle_not_lt in E.
Qed.

Lemma at_map_row (f : ohlcv -> fl) (data : list ohlcv) (i : nat) (row : ohlcv) :
  data !! i = Some row -> at_ (map f data) i = f row.
Proof. intros H. unfold at_. by rewrite lookup_map, H. Qed.

Lemma dm_pair_values (data : list ohlcv) (i : nat)
    (h0 l0 c0 h1 l1 : Q) (prev cur : ohlcv) :
  1 <= i -> data !! (i - 1) = Some prev -> data !! i = Some cur ->
  high prev = Some h0 -> low prev = Some l0 -> close prev = Some c0 ->
  high cur = Some h1 -> low cur = Some l1 ->
  plus_dm data !! (i - 1) =
    Some (if fgt (Some (h1 - h0)%Q) (Some (l0 - l1)%Q)
          then pymax (Some (h1 - h0)%Q) (Some 0%Q) else Some 0%Q) /\
  minus_dm data !! (i - 1) =
    Some (if fgt (Some (l0 - l1)%Q) (Some (h1 - h0)%Q)
          then pymax (Some (l0 - l1)%Q) (Some 0%Q) else Some 0%Q) /\
  true_ranges data !! (i - 1) =
    Some (pymax3 (Some (h1 - l1)%Q) (Some (Qabs (h1 - c0))) (Some (Qabs (l1 - c0)))).
Proof.
  intros Hi Hprev Hcur Hh0 Hl0 Hc0 Hh1 Hl1.
  assert (i < length data) as Hlen by (by apply lookup_lt_Some in Hcur).
  unfold plus_dm, minus_dm, true_ranges. rewrite !length_map.
  rewrite !(lookup_map_range _ 1 (length data) (i - 1)) by lia.
  replace (1 + (i - 1)) with i by lia.
  unfold plus_dm_at, minus_dm_at, true_range_at.
  rewrite !(at_map_row _ _ _ _ Hprev), !(at_map_row _ _ _ _ Hcur).
  rewrite Hh0, Hl0, Hc0, Hh1, Hl1. done.
Qed.

(** X15. For every pair of consecutive rows [i-1], [i] whose highs, lows
    and previous close are defined, the entries that [calculate_adx]
    computes for the pair are defined and: +DM and -DM are never negative
    and never both positive; +DM is positive only when the high rose by more
    than the low fell, and then it is the rise of the high; the true range is
    at least [high - low], at least [|high - previous close|] and at least
    [|low - previous close|], hence never negative. *)
Theorem directional_movement_pair (data : list ohlcv) (i : nat)
    (h0 l0 c0 h1 l1 : Q) (prev cur : ohlcv) :
  1 <= i -> data !! (i - 1) = Some prev -> data !! i = Some cur ->
  high prev = Some h0 -> low prev = Some l0 -> close prev = Some c0 ->
  high cur = Some h1 -> low cur = Some l1 ->
  exists pdm mdm tr : Q,
    plus_dm data !! (i - 1) = Some (Some pdm) /\
    minus_dm data !! (i - 1) = Some (Some mdm) /\
    true_ranges data !! (i - 1) = Some (Some tr) /\
    ((0 <= pdm)%Q /\ (0 <= mdm)%Q /\ ((pdm == 0)%Q \/ (mdm == 0)%Q)) /\
    ((0 < pdm)%Q -> (l0 - l1 < h1 - h0)%Q /\ pdm = (h1 - h0)%Q) /\
    ((0 < mdm)%Q -> (h1 - h0 < l0 - l1)%Q /\ mdm = (l0 - l1)%Q) /\
    ((h1 - l1 <= tr)%Q /\ (Qabs (h1 - c0) <= tr)%Q /\ (Qabs (l1 - c0) <= tr)%Q /\
     (0 <= tr)%Q).
Proof.
  intros Hi Hprev Hcur Hh0 Hl0 Hc0 Hh1 Hl1.
  destruct (dm_pair_values data i h0 l0 c0 h1 l1 prev cur)
    as (-> & -> & ->); try done.
  destruct (pymax_defined (h1 - h0) 0) as (pm & Epm & Hpm1 & Hpm2 & Hpm3).
  destruct (pymax_defined (l0 - l1) 0) as (mm & Emm & Hmm1 & Hmm2 & Hmm3).
  unfold pymax3.
  destruct (pymax_defined (h1 - l1) (Qabs (h1 - c0))) as (t1 & Et1 & Ht1a & Ht1b & _).
  rewrite Et1.
  destruct (pymax_defined t1 (Qabs (l1 - c0))) as (tr & Etr & Htra & Htrb & _).
  rewrite Etr, Epm, Emm.
  destruct (fgt (Some (h1 - h0)%Q) (Some (l0 - l1)%Q)) eqn:Ep;
    destruct (fgt (Some (l0 - l1)%Q) (Some (h1 - h0)%Q)) eqn:Em.
  - apply fgt_lt in Ep, Em. exfalso. lra.
  - apply fgt_lt in Ep. exists pm, 0%Q, tr.
    repeat split; try done; try lra;
      try (pose proof (Qabs_nonneg (h1 - c0)); lra).
    destruct Hpm3 as [->| ->]; [done | exfalso; lra].
  - apply fgt_lt in Em. exists 0%Q, mm, tr.
    repeat split; try done; try lra;
      try (pose proof (Qabs_nonneg (h1 - c0)); lra).
    destruct Hmm3 as [->| ->]; [done | exfalso; lra].
  - exists 0%Q, 0%Q, tr.
    repeat split; try done; try lra;
      try (pose proof (Qabs_nonneg (h1 - c0)); lra).
Qed.

(** ** Rounding to two decimals *)

Lemma round_half_even_integer (q : Q) (z : Z) :
  (q == inject_Z z)%Q -> round_half_even q = z.
Proof.
  intros E. unfold round_half_even.
  assert (Qfloor q = z) as -> by (rewrite E; apply Qfloor_Z).
  assert (Qcompare (q - inject_Z z) (1 # 2) = Lt) as ->; [|done].
  rewrite E. apply (proj1 (Qlt_alt _ _)). lra.
Qed.

(** ** More on the runners *)

Lemma at_all_nan (l : list fl) (n i : nat) :
  length l = n -> (forall j, j < n -> l !! j = Some NaN) -> at_ l i = NaN.
Proof.
  intros Hlen Hall. unfold at_.
  destruct (decide (i < n)) as [Hi|Hi]; [by rewrite Hall|].
  by rewrite lookup_ge_None_2 by lia.
Qed.

Lemma at_signal_line {R : Type} (data : list R) (col_idx : R -> fl) (i : nat) :
  at_ (signal_line data col_idx) i = NaN.
Proof.
  apply (at_all_nan _ (length data)); [apply length_signal_line|].
  intros j Hj. by apply signal_line_nan.
Qed.

Lemma at_histogram {R : Type} (data : list R) (col_idx : R -> fl) (i : nat) :
  at_ (histogram data col_idx) i = NaN.
Proof.
  apply (at_all_nan _ (length data)).
  - unfold histogram. rewrite length_map, length_range. lia.
  - intros j Hj. by apply histogram_nan.
Qed.

(** X17. Five cells of the snapshot never hold a value, whatever the
    series: the MACD signal and histogram (cells 9 and 10) and the ADX, +DI
    and -DI (cells 14 to 16) are [None] in the row of the daily runner and
    NaN in the row of the weekly runner. *)
Theorem snapshot_cells_never_defined (sqrt : Q -> Q) (hist : list ohlcv) :
  (output_row sqrt hist !! 9 = Some PNone /\
   output_row sqrt hist !! 10 = Some PNone /\
   output_row sqrt hist !! 14 = Some PNone /\
   output_row sqrt hist !! 15 = Some PNone /\
   output_row sqrt hist !! 16 = Some PNone) /\
  (forall row, output_row_w sqrt hist = inr row ->
     row !! 9 = Some (PFloat NaN) /\ row !! 10 = Some (PFloat NaN) /\
     row !! 14 = Some (PFloat NaN) /\ row !! 15 = Some (PFloat NaN) /\
     row !! 16 = Some (PFloat NaN)).
Proof.
  split.
  - unfold output_row, macd, boll_bands. cbv zeta beta iota.
    cbn [lookup list_lookup].
    rewrite at_signal_line, at_histogram, calculate_adx_all_nan by lia. done.
  - intros row. unfold output_row_w, macd, boll_bands. cbv zeta beta iota.
    destruct (price_ten_day_change_w _ _) as [e|c4]; [done|].
    cbn [bind ret]. intros [= <-]. cbn [lookup list_lookup].
    rewrite at_signal_line, at_histogram, calculate_adx_all_nan by lia. done.
Qed.

(** X18. On a non-empty series of positive closes the daily runner
    returns one row whose first eight cells all hold a number, none is
    [None]: the price, the price ten rows back, the two moving averages and
    the four percentage changes. *)
Theorem run_strategy_valid_series (sqrt : Q -> Q) (hist : list ohlcv) :
  List.Forall positive_close hist -> hist <> [] ->
  run_strategy sqrt (inr hist) = [output_row sqrt hist] /\
  forall k, k < 8 -> is_number (output_row sqrt hist !! k).
Proof.
  intros Hdata Hne.
  destruct (output_row_head_cells sqrt hist Hdata Hne)
    as (p & t & d50 & d200 & _ & _ & H0 & H1 & H2 & H3 & H4 & H5 & H6 & H7).
  split; [by destruct hist|].
  intros k Hk.
  destruct k as [|[|[|[|[|[|[|[|k]]]]]]]]; [by eexists..|lia].
Qed.

Lemma filter_idem {A : Type} (p : A -> bool) (l : list A) :
  List.filter p (List.filter p l) = List.filter p l.
Proof.
  induction l as [|a l IH]; simpl; [done|].
  destruct (p a) eqn:E; simpl; [rewrite E; by rewrite IH | done].
Qed.

Lemma weekly_data_filter (hist : list ohlcv) :
  weekly_data (List.filter all_positive hist) = weekly_data hist.
Proof. unfold weekly_data. by rewrite filter_idem. Qed.

Lemma run_strategy_w_data (sqrt : Q -> Q) (hist : list ohlcv) :
  weekly_data hist <> [] ->
  run_strategy_w sqrt (inr hist) =
  catch_all (let* row := output_row_w sqrt (weekly_data hist) in ret [row]).
Proof.
  intros Hne. unfold run_strategy_w. cbn [bind].
  destruct hist as [|r hist'] eqn:E; [done|]. rewrite <- E in *.
  by destruct (weekly_data hist).
Qed.

(** X20. The weekly runner on a frame with at least one row of positive
    values: the rows with a non-positive or missing value have no influence
    (the result is that of the frame without them), and the result is one
    row whose first eight cells all hold a number: the last close, the close
    ten kept rows back, the two moving averages of the kept rows, which are
    positive, and the four percentage changes [(a-b)/b*100]. *)
Theorem run_strategy_w_valid_rows (sqrt : Q -> Q) (hist : list ohlcv) :
  weekly_data hist <> [] ->
  let data := weekly_data hist in
  let i := length data - 1 in
  run_strategy_w sqrt (inr (List.filter all_positive hist))
    = run_strategy_w sqrt (inr hist) /\
  exists (p t d50 d200 : Q) (row : list pyval),
    ((0 < t)%Q /\ (0 < d50)%Q /\ (0 < d200)%Q) /\
    (cell close data i = Some p /\ cell close data (i - 10) = Some t /\
     at_ (moving_avg data (Nat.min 50 (length data)) close) i = Some d50 /\
     at_ (moving_avg data (Nat.min 200 (length data)) close) i = Some d200) /\
    run_strategy_w sqrt (inr hist) = [row] /\
    row !! 0 = Some (PFloat (Some p)) /\
    row !! 1 = Some (PFloat (Some t)) /\
    row !! 2 = Some (PFloat (Some d50)) /\
    row !! 3 = Some (PFloat (Some d200)) /\
    row !! 4 = Some (PFloat (Some ((p - t) / t * 100)%Q)) /\
    row !! 5 = Some (PFloat (Some ((p - d50) / d50 * 100)%Q)) /\
    row !! 6 = Some (PFloat (Some ((p - d200) / d200 * 100)%Q)) /\
    row !! 7 = Some (PFloat (Some ((d50 - d200) / d200 * 100)%Q)).
Proof.
  intros Hne data i. split.
  - rewrite !run_strategy_w_data by (by rewrite ?weekly_data_filter).
    by rewrite weekly_data_filter.
  - destruct (output_row_w_head_cells sqrt data (weekly_data_positive hist) Hne)
      as (p & t & d50 & d200 & row & Hpos & Hval & Hrow & Hcells).
    exists p, t, d50, d200, row. split; [done|]. split; [done|].
    split; [|done]. rewrite run_strategy_w_data by done.
    fold data. by rewrite Hrow.
Qed.

(** ** The directional indicators *)

Lemma fsum_nonneg (l : list fl) :
  List.Forall (fun x => exists q, x = Some q /\ (0 <= q)%Q) l ->
  exists s, fsum l = Some s /\ (0 <= s)%Q.
Proof.
  induction 1 as [|x l (q & -> & Hq) _ (s & Hs & Hs0)].
  - exists 0%Q. split; [done|]. apply Qle_refl.
  - exists (q + s)%Q.
    change (fsum (Some q :: l)) with (fadd (Some q) (fsum l)). rewrite Hs.
    split; [done|]. lra.
Qed.

Lemma mean_nonneg (l : list fl) :
  List.Forall (fun x => exists q, x = Some q /\ (0 <= q)%Q) l -> l <> [] ->
  exists m, mean l = Some m /\ (0 <= m)%Q.
Proof.
  intros Hl Hne. destruct (fsum_nonneg l Hl) as (s & Hs & Hs0).
  unfold mean. destruct l as [|x l'] eqn:E; [done|]. rewrite <- E in *.
  rewrite Hs. eexists. split; [done|].
  apply Qle_shift_div_l; [|lra].
  change 0%Q with (inject_Z 0). rewrite <- Zlt_Qlt. rewrite E. simpl length. lia.
Qed.

Lemma wilders_smooth_nonneg (series : list fl) (p i : nat) :
  1 <= p -> p <= length series ->
  (forall j, j < length series -> exists q, series !! j = Some (Some q) /\ (0 <= q)%Q) ->
  p - 1 <= i -> i < length series ->
  exists x, wilders_smooth series p !! i = Some (Some x) /\ (0 <= x)%Q.
Proof.
  intros Hp Hlen Hseries Hi Hlt.
  destruct (wilders_smooth_spec series p Hp Hlen) as (_ & _ & Hseed & Hrec).
  assert (exists d, i = p - 1 + d) as [d ->] by (exists (i - (p - 1)); lia).
  clear Hi. induction d as [|d IH].
  - rewrite Nat.add_0_r, Hseed.
    destruct (mean_nonneg (take p series)) as (m & -> & Hm).
    + apply List.Forall_forall. intros x Hx. apply list_elem_of_In in Hx.
      apply list_elem_of_lookup in Hx as [j Hj].
      apply lookup_take_Some in Hj as [Hj Hjp].
      destruct (Hseries j) as (q & Hq & Hq0); [by apply lookup_lt_Some in Hj|].
      rewrite Hq in Hj. injection Hj as <-. by exists q.
    + destruct series; [simpl in Hlen; lia|]. destruct p; [lia|done].
    + by exists m.
  - destruct IH as (x & Hx & Hx0); [lia|].
    rewrite Hrec by lia.
    replace (p - 1 + S d - 1) with (p - 1 + d) by lia.
    rewrite (at_lookup _ _ _ Hx).
    destruct (Hseries (p - 1 + S d) Hlt) as (q & Hq & Hq0).
    rewrite (at_lookup _ _ _ Hq). simpl. eexists. split; [done|].
    assert (1 <= inject_Z (Z.of_nat p))%Q as Hp1.
    { change 1%Q with (inject_Z 1). rewrite <- Zle_Qle. lia. }
    apply Qle_shift_div_l; [lra|].
    unfold Z.sub. rewrite inject_Z_plus, inject_Z_opp.
    change (inject_Z 1) with 1%Q.
    assert (0 <= x * (inject_Z (Z.of_nat p) + - 1))%Q
      by (apply Qmult_le_0_compat; lra).
    lra.
Qed.

Lemma dm_series_nonneg (data : list ohlcv) (k : nat) :
  List.Forall defined_row data -> k < length data - 1 ->
  (exists q, plus_dm data !! k = Some (Some q) /\ (0 <= q)%Q) /\
  (exists q, minus_dm data !! k = Some (Some q) /\ (0 <= q)%Q) /\
  (exists q, true_ranges data !! k = Some (Some q) /\ (0 <= q)%Q).
Proof.
  intros Hdata Hk. rewrite List.Forall_forall in Hdata.
  destruct (lookup_lt_is_Some_2 data k ltac:(lia)) as [prev Hprev].
  destruct (lookup_lt_is_Some_2 data (S k) ltac:(lia)) as [cur Hcur].
  destruct (Hdata prev) as (h0 & l0 & c0 & Hh0 & Hl0 & Hc0).
  { apply list_elem_of_In. by eapply list_elem_of_lookup_2. }
  destruct (Hdata cur) as (h1 & l1 & c1 & Hh1 & Hl1 & _).
  { apply list_elem_of_In. by eapply list_elem_of_lookup_2. }
  destruct (dm_pair_values data (S k) h0 l0 c0 h1 l1 prev cur)
    as (Hp & Hm & Ht); try done; [lia | by replace (S k - 1) with k by lia |].
  replace (S k - 1) with k in * by lia. rewrite Hp, Hm, Ht.
  destruct (pymax_defined (h1 - h0) 0) as (pm & -> & _ & Hpm & _).
  destruct (pymax_defined (l0 - l1) 0) as (mm & -> & _ & Hmm & _).
  unfold pymax3.
  destruct (pymax_defined (h1 - l1) (Qabs (h1 - c0))) as (t1 & -> & _ & Ht1 & _).
  destruct (pymax_defined t1 (Qabs (l1 - c0))) as (tr & -> & Htr & _).
  pose proof (Qabs_nonneg (h1 - c0)) as Habs.
  split; [|split].
  - destruct (fgt (Some (h1 - h0)%Q) (Some (l0 - l1)%Q));
      [exists pm | exists 0%Q]; (split; [done|]); [done | apply Qle_refl].
  - destruct (fgt (Some (l0 - l1)%Q) (Some (h1 - h0)%Q));
      [exists mm | exists 0%Q]; (split; [done|]); [done | apply Qle_refl].
  - exists tr. split; [done|]. lra.
Qed.

Lemma di_at_bounds (smooth_tr smooth_pdm smooth_mdm : list fl) (i : nat)
    (t a b : Q) :
  at_ smooth_tr i = Some t -> at_ smooth_pdm i = Some a ->
  at_ smooth_mdm i = Some b ->
  (0 <= t)%Q -> (0 <= a)%Q -> (0 <= b)%Q ->
  (t == 0 /\ di_at smooth_tr smooth_pdm smooth_mdm i = (NaN, NaN, NaN))%Q \/
  ((0 < t)%Q /\
   exists pdi mdi dx : Q,
     di_at smooth_tr smooth_pdm smooth_mdm i = (Some pdi, Some mdi, Some dx) /\
     (pdi == a / t * 100)%Q /\ (mdi == b / t * 100)%Q /\
     (0 <= pdi)%Q /\ (0 <= mdi)%Q /\ (0 <= dx)%Q /\ (dx <= 100)%Q).
Proof.
  intros Ht Ha Hb Ht0 Ha0 Hb0. unfold di_at. rewrite Ht, Ha, Hb.
  cbn [notna fne0 andb].
  destruct (Qeq_bool t 0) eqn:E; cbn [negb].
  { left. split; [by apply Qeq_bool_iff|done]. }
  right.
  assert (~ t == 0)%Q as Hne.
  { intros H. apply Qeq_bool_iff in H. congruence. }
  assert (0 < t)%Q as Htpos.
  { apply Qnot_le_lt. intros H. apply Hne. by apply Qle_antisym. }
  split; [done|].
  cbn [fmul fdiv fadd fsub fabs lift2 option_map fne0].
  assert (0 <= a / t * 100)%Q as Hpdi.
  { apply Qmult_le_0_compat; [|lra]. apply Qle_shift_div_l; lra. }
  assert (0 <= b / t * 100)%Q as Hmdi.
  { apply Qmult_le_0_compat; [|lra]. apply Qle_shift_div_l; lra. }
  set (pdi := (a / t * 100)%Q) in *. set (mdi := (b / t * 100)%Q) in *.
  destruct (Qeq_bool (pdi + mdi) 0) eqn:Es; cbn [negb].
  - exists pdi, mdi, 0%Q. repeat split; try done; lra.
  - assert (~ pdi + mdi == 0)%Q as Hsne.
    { intros H. apply Qeq_bool_iff in H. congruence. }
    assert (0 < pdi + mdi)%Q as Hspos.
    { apply Qnot_le_lt. intros H. apply Hsne. apply Qle_antisym; lra. }
    eexists pdi, mdi, _. split; [done|].
    repeat split; try done.
    + apply Qmult_le_0_compat; [|lra].
      apply Qle_shift_div_l; [done|]. pose proof (Qabs_nonneg (pdi - mdi)). lra.
    + assert (Qabs (pdi - mdi) <= pdi + mdi)%Q as Habs.
      { apply Qabs_Qle_condition. split; lra. }
      assert (Qabs (pdi - mdi) / (pdi + mdi) <= 1)%Q as H1.
      { apply Qle_shift_div_r; [done|]. lra. }
      lra.
Qed.

(** X21. On a series whose highs, lows and closes are all defined, for
    every period [>= 1] and every index [i] of the DI series: below index
    [period - 1] the +DI, -DI and DX entries are NaN; from there on either the
    smoothed true range is zero and the three are NaN, or the three are
    defined, +DI and -DI are the smoothed directional movements divided by
    the smoothed true range, times 100, and are never negative, and DX lies
    between 0 and 100. *)
Theorem di_dx_bounds (data : list ohlcv) (period i : nat) :
  List.Forall defined_row data -> 1 <= period -> period + 1 <= length data ->
  i < length data - 1 ->
  let smooth_tr := wilders_smooth (true_ranges data) period in
  let smooth_pdm := wilders_smooth (plus_dm data) period in
  let smooth_mdm := wilders_smooth (minus_dm data) period in
  let nan_at :=
    plus_di_series data period !! i = Some NaN /\
    minus_di_series data period !! i = Some NaN /\
    dx_series data period !! i = Some NaN in
  (i < period - 1 -> nan_at) /\
  (period - 1 <= i ->
   exists t a b : Q,
     smooth_tr !! i = Some (Some t) /\ smooth_pdm !! i = Some (Some a) /\
     smooth_mdm !! i = Some (Some b) /\ (0 <= t)%Q /\ (0 <= a)%Q /\ (0 <= b)%Q /\
     (((t == 0)%Q /\ nan_at) \/
      ((0 < t)%Q /\
       exists pdi mdi dx : Q,
         plus_di_series data period !! i = Some (Some pdi) /\
         minus_di_series data period !! i = Some (Some mdi) /\
         dx_series data period !! i = Some (Some dx) /\
         (pdi == a / t * 100)%Q /\ (mdi == b / t * 100)%Q /\
         (0 <= pdi)%Q /\ (0 <= mdi)%Q /\ (0 <= dx)%Q /\ (dx <= 100)%Q))).
Proof.
  intros Hdata Hp Hn Hi smooth_tr smooth_pdm smooth_mdm nan_at.
  assert (length (true_ranges data) = length data - 1 /\
          length (plus_dm data) = length data - 1 /\
          length (minus_dm data) = length data - 1) as (Ltr & Lpd & Lmd).
  { split; [apply length_true_ranges|].
    unfold plus_dm, minus_dm. rewrite !length_map, !length_range. done. }
  assert (di_rows data period !! i
          = Some (di_at smooth_tr smooth_pdm smooth_mdm i)) as Hrow.
  { unfold di_rows. fold smooth_tr smooth_pdm smooth_mdm.
    rewrite (lookup_map_range _ 0 _ i); [done|].
    unfold smooth_tr. rewrite length_wilders_smooth, Ltr. lia. }
  assert (forall x y z, di_at smooth_tr smooth_pdm smooth_mdm i = (x, y, z) ->
            plus_di_series data period !! i = Some x /\
            minus_di_series data period !! i = Some y /\
            dx_series data period !! i = Some z) as Hser.
  { intros x y z E. unfold plus_di_series, minus_di_series, dx_series.
    rewrite !lookup_map, Hrow, E. done. }
  split.
  - intros Hlt. apply Hser. unfold di_at.
    destruct (wilders_smooth_spec (true_ranges data) period Hp) as (_ & Hlow & _);
      [lia|].
    fold smooth_tr in Hlow. by rewrite (at_lookup _ _ _ (Hlow i Hlt)).
  - intros Hge.
    destruct (wilders_smooth_nonneg (true_ranges data) period i) as (t & Ht & Ht0);
      try lia.
    { intros j Hj. rewrite Ltr in Hj. by destruct (dm_series_nonneg data j Hdata Hj) as (_ & _ & ?). }
    destruct (wilders_smooth_nonneg (plus_dm data) period i) as (a & Ha & Ha0);
      try lia.
    { intros j Hj. rewrite Lpd in Hj. by destruct (dm_series_nonneg data j Hdata Hj) as (? & _ & _). }
    destruct (wilders_smooth_nonneg (minus_dm data) period i) as (b & Hb & Hb0);
      try lia.
    { intros j Hj. rewrite Lmd in Hj. by destruct (dm_series_nonneg data j Hdata Hj) as (_ & ? & _). }
    fold smooth_tr in Ht. fold smooth_pdm in Ha. fold smooth_mdm in Hb.
    exists t, a, b. do 6 (split; [done|]).
    destruct (di_at_bounds smooth_tr smooth_pdm smooth_mdm i t a b)
      as [[Hz E]|(Hpos & pdi & mdi & dx & E & Hrest)];
      try done; try (by apply at_lookup).
    + left. split; [done|]. by apply Hser.
    + right. split; [done|]. exists pdi, mdi, dx.
      destruct (Hser _ _ _ E) as (H1 & H2 & H3). done.
Qed.

(** ** Relations between the averages *)

(** X22. For every lookback [L >= 1] no longer than the series, [ema] and
    [moving_avg] hold the same value at index [L-1], the mean of the defined
    values among the first [L] ones (the seed of the EMA is the simple moving
    average there), and both are NaN at every index below [L-1]. *)
Theorem ema_seed_is_moving_avg {R : Type} (data : list R) (L : nat)
    (col_idx : R -> fl) :
  1 <= L -> L <= length data ->
  ema data L col_idx !! (L - 1) = Some (ema_seed data L col_idx) /\
  moving_avg data L col_idx !! (L - 1) = Some (ema_seed data L col_idx) /\
  forall j, j < L - 1 ->
    ema data L col_idx !! j = Some NaN /\ moving_avg data L col_idx !! j = Some NaN.
Proof.
  intros HL Hlen.
  destruct (ema_at_seed data L col_idx HL Hlen) as [Hseed _].
  split; [exact Hseed|]. split.
  - rewrite lookup_moving_avg by lia. f_equal.
    unfold ema_seed, moving_avg_at.
    assert ((Z.of_nat (L - 1) <? Z.of_nat L - 1)%Z = false) as ->
      by (apply Z.ltb_ge; lia).
    replace (L - 1 + 1 - L) with 0 by lia. replace (L - 1 + 1) with L by lia.
    rewrite (filter_ext_In
               (fun j => (j <? length data) && notna (cell col_idx data j))
               (fun j => notna (cell col_idx data j))); [done|].
    intros j Hj. apply in_range in Hj.
    assert ((j <? length data) = true) as -> by (apply Nat.ltb_lt; lia). done.
  - intros j Hj. split.
    + apply ema_below_seed; lia.
    + rewrite lookup_moving_avg by lia.
      by rewrite moving_avg_at_no_history by (left; lia).
Qed.

(** X23. With at most 50 rows, [min(50, len)] and [min(200, len)] are
    the same lookback: on a non-empty series of positive closes the daily
    row reports the same value as DMA50 and as DMA200, the same change of
    the price against both, and a DMA50-against-DMA200 change of exactly
    0. *)
Theorem run_strategy_short_history (sqrt : Q -> Q) (hist : list ohlcv) :
  List.Forall positive_close hist -> hist <> [] -> length hist <= 50 ->
  output_row sqrt hist !! 2 = output_row sqrt hist !! 3 /\
  output_row sqrt hist !! 5 = output_row sqrt hist !! 6 /\
  output_row sqrt hist !! 7 = Some (PFloat (Some (0 # 100))).
Proof.
  intros Hdata Hne Hlen.
  destruct (output_row_head_cells sqrt hist Hdata Hne)
    as (p & t & d50 & d200 & (_ & _ & H200) & (_ & _ & E50 & E200) &
        _ & _ & -> & -> & _ & -> & -> & ->).
  assert (d50 = d200) as ->.
  { rewrite !Nat.min_r in E50, E200 by lia. rewrite E50 in E200.
    by injection E200. }
  split; [done|]. split; [done|]. do 3 f_equal.
  unfold round2. f_equal. apply round_half_even_integer.
  change (inject_Z 0) with 0%Q. field. intros E. rewrite E in H200.
  by apply Qlt_irrefl in H200.
Qed.

(** ** The further properties at concrete inputs *)

Lemma sqrt6_nonneg (q : Q) : (0 <= sqrt6 q)%Q.
Proof.
  unfold sqrt6, Qle. simpl. rewrite Z.mul_1_r. apply Z.sqrt_nonneg.
Qed.

Lemma fetch_historical_positive_witness :
  fetch_historical no_date (inr (sample_timestamps, sample_quotes))
    = inr [workday_row no_date sample_timestamps sample_quotes 0;
           workday_row no_date sample_timestamps sample_quotes 2] /\
  length [workday_row no_date sample_timestamps sample_quotes 0;
          workday_row no_date sample_timestamps sample_quotes 2]
    <= length sample_timestamps.
Proof.
  assert (fetch_historical no_date (inr (sample_timestamps, sample_quotes))
          = inr [workday_row no_date sample_timestamps sample_quotes 0;
                 workday_row no_date sample_timestamps sample_quotes 2]) as H1
    by (vm_compute; reflexivity).
  split; [exact H1|].
  exact (proj1 (fetch_historical_positive no_date sample_timestamps sample_quotes _ H1)).
Defined.

Lemma wilders_smooth_recurrence_witness :
  1 <= 2 /\
  length (wilders_smooth [Some 1%Q; Some 2%Q; Some 3%Q; Some 4%Q] 2) = 4.
Proof.
  assert (1 <= 2) as H1 by lia.
  split; [exact H1|].
  exact (proj1 (wilders_smooth_recurrence [Some 1%Q; Some 2%Q; Some 3%Q; Some 4%Q] 2 H1)).
Defined.

Lemma wilders_smooth_nan_propagates_witness :
  1 <= 2 /\ [Some 1%Q; NaN; Some 3%Q; Some 4%Q] !! 1 = Some NaN /\
  (1 < 2 ->
   wilders_smooth [Some 1%Q; NaN; Some 3%Q; Some 4%Q] 2 = replicate 4 NaN).
Proof.
  assert (1 <= 2) as H1 by lia.
  assert ([Some 1%Q; NaN; Some 3%Q; Some 4%Q] !! 1 = Some NaN) as H2 by reflexivity.
  split; [exact H1|]. split; [exact H2|].
  exact (proj2 (wilders_smooth_nan_propagates _ 2 1 H1 H2)).
Defined.

Lemma calculate_adx_undefined_witness :
  2 <= 14 /\
  calculate_adx (uptrend 40) 14 = {| adx := NaN; plus_di := NaN; minus_di := NaN |}.
Proof.
  assert (2 <= 14) as H1 by lia.
  split; [exact H1|]. exact (proj1 (calculate_adx_undefined (uptrend 40) 14 H1)).
Defined.

Lemma no_value_without_history_witness :
  (length (uptrend 5) < 20 \/ 20 = 0) /\
  moving_avg (uptrend 5) 20 close = replicate (length (uptrend 5)) NaN /\
  ema (uptrend 5) 20 close = replicate (length (uptrend 5)) NaN.
Proof.
  assert (length (uptrend 5) < 20 \/ 20 = 0) as H1 by (left; vm_compute; lia).
  split; [exact H1|].
  destruct (no_value_without_history sqrt6 (uptrend 5) close 20 2 H1) as (A & B & _).
  split; [exact A|exact B].
Defined.

Lemma ema_seeding_witness :
  1 <= 3 /\ 3 <= length (uptrend 6) /\
  (forall i, i < 3 - 1 -> ema (uptrend 6) 3 close !! i = Some NaN).
Proof.
  assert (1 <= 3) as H1 by lia.
  assert (3 <= length (uptrend 6)) as H2 by (vm_compute; lia).
  split; [exact H1|]. split; [exact H2|].
  exact (proj1 (ema_seeding (uptrend 6) 3 close H1 H2)).
Defined.

Lemma uptrend_6_defined (j : nat) :
  j < length (uptrend 6) -> notna (cell close (uptrend 6) j) = true.
Proof.
  intros H. do 6 (destruct j as [|j]; [reflexivity|]).
  vm_compute in H. lia.
Qed.

Lemma averages_defined_on_complete_data_witness :
  (forall j, j < length (uptrend 6) -> notna (cell close (uptrend 6) j) = true) /\
  1 <= 3 /\
  (exists m, moving_avg (uptrend 6) 3 close !! 4 = Some (Some m)) /\
  (exists m, ema (uptrend 6) 3 close !! 4 = Some (Some m)).
Proof.
  assert (1 <= 3) as H1 by lia.
  assert (4 < length (uptrend 6)) as H2 by (vm_compute; lia).
  split; [exact uptrend_6_defined|]. split; [exact H1|].
  apply (averages_defined_on_complete_data (uptrend 6) 3 close
           uptrend_6_defined H1 4 H2). lia.
Defined.

Lemma boll_bands_defined_together_witness :
  29 < length (uptrend 30) /\
  exists u m l,
    (boll_bands sqrt6 (uptrend 30) close 20 2).1.1 !! 29 = Some (Some u) /\
    (boll_bands sqrt6 (uptrend 30) close 20 2).1.2 !! 29 = Some (Some m) /\
    (boll_bands sqrt6 (uptrend 30) close 20 2).2 !! 29 = Some (Some l).
Proof.
  assert (29 < length (uptrend 30)) as H1 by (vm_compute; lia).
  split; [exact H1|].
  destruct (boll_bands_defined_together sqrt6 (uptrend 30) close 20 2 29 H1)
    as [(_ & _ & A & _)|(_ & A)].
  - vm_compute in A. discriminate A.
  - exact A.
Defined.

Lemma boll_bands_ordered_witness :
  (forall q, (0 <= sqrt6 q)%Q) /\ (0 <= 2)%Q /\
  (boll_bands sqrt6 (uptrend 30) close 20 2).1.1 !! 29
    = Some (Some (2620651240 # 20000000)) /\
  (boll_bands sqrt6 (uptrend 30) close 20 2).1.2 !! 29 = Some (Some (2390 # 20)) /\
  (boll_bands sqrt6 (uptrend 30) close 20 2).2 !! 29
    = Some (Some (2159348760 # 20000000)) /\
  ((2159348760 # 20000000) <= 2390 # 20)%Q /\
  ((2390 # 20) <= 2620651240 # 20000000)%Q.
Proof.
  assert (0 <= 2)%Q as H2 by (vm_compute; discriminate).
  assert ((boll_bands sqrt6 (uptrend 30) close 20 2).1.1 !! 29
          = Some (Some (2620651240 # 20000000))) as Hu by (vm_compute; reflexivity).
  assert ((boll_bands sqrt6 (uptrend 30) close 20 2).1.2 !! 29
          = Some (Some (2390 # 20))) as Hm by (vm_compute; reflexivity).
  assert ((boll_bands sqrt6 (uptrend 30) close 20 2).2 !! 29
          = Some (Some (2159348760 # 20000000))) as Hl by (vm_compute; reflexivity).
  split; [exact sqrt6_nonneg|]. split; [exact H2|].
  split; [exact Hu|]. split; [exact Hm|]. split; [exact Hl|].
  destruct (boll_bands_ordered sqrt6 (uptrend 30) close 20 2 29 _ _ _
              sqrt6_nonneg H2 Hu Hm Hl) as (A & B).
  split; [exact A|exact B].
Defined.

Lemma directional_movement_pair_witness :
  1 <= 1 /\ uptrend 3 !! (1 - 1) = Some (uptrend_row 0) /\
  uptrend 3 !! 1 = Some (uptrend_row 1) /\
  exists pdm mdm tr : Q,
    plus_dm (uptrend 3) !! (1 - 1) = Some (Some pdm) /\
    minus_dm (uptrend 3) !! (1 - 1) = Some (Some mdm) /\
    true_ranges (uptrend 3) !! (1 - 1) = Some (Some tr) /\
    ((0 <= pdm)%Q /\ (0 <= mdm)%Q /\ ((pdm == 0)%Q \/ (mdm == 0)%Q)).
Proof.
  assert (1 <= 1) as H1 by lia.
  assert (uptrend 3 !! (1 - 1) = Some (uptrend_row 0)) as H2 by reflexivity.
  assert (uptrend 3 !! 1 = Some (uptrend_row 1)) as H3 by reflexivity.
  split; [exact H1|]. split; [exact H2|]. split; [exact H3|].
  destruct (directional_movement_pair (uptrend 3) 1
              (100 + (1 # 2)) (100 - (1 # 2)) 100 (101 + (1 # 2)) (101 - (1 # 2))
              (uptrend_row 0) (uptrend_row 1) H1 H2 H3
              eq_refl eq_refl eq_refl eq_refl eq_refl)
    as (pdm & mdm & tr & A & B & C & D & _).
  exists pdm, mdm, tr. split; [exact A|]. split; [exact B|]. split; [exact C|exact D].
Defined.

Lemma uptrend_12_positive : List.Forall positive_close (uptrend 12).
Proof.
  repeat (apply List.Forall_cons;
          [eexists; split; [reflexivity | vm_compute; reflexivity]|]).
  apply List.Forall_nil.
Qed.

Lemma uptrend_12_nonempty : uptrend 12 <> [].
Proof. vm_compute. discriminate. Qed.

Lemma run_strategy_valid_series_witness :
  List.Forall positive_close (uptrend 12) /\ uptrend 12 <> [] /\
  run_strategy sqrt6 (inr (uptrend 12)) = [output_row sqrt6 (uptrend 12)] /\
  is_number (output_row sqrt6 (uptrend 12) !! 0) /\
  is_number (output_row sqrt6 (uptrend 12) !! 3) /\
  is_number (output_row sqrt6 (uptrend 12) !! 7) /\
  output_row sqrt6 (uptrend 12) !! 8 = Some PNone.
Proof.
  split; [exact uptrend_12_positive|]. split; [exact uptrend_12_nonempty|].
  destruct (run_strategy_valid_series sqrt6 (uptrend 12)
              uptrend_12_positive uptrend_12_nonempty) as (A & B).
  split; [exact A|].
  split; [exact (B 0 ltac:(lia))|]. split; [exact (B 3 ltac:(lia))|].
  split; [exact (B 7 ltac:(lia))|]. vm_compute. reflexivity.
Defined.

Lemma run_strategy_w_valid_rows_witness :
  weekly_data (zero_close_row :: uptrend 3) <> [] /\
  run_strategy_w sqrt6 (inr (List.filter all_positive (zero_close_row :: uptrend 3)))
    = run_strategy_w sqrt6 (inr (zero_close_row :: uptrend 3)).
Proof.
  assert (weekly_data (zero_close_row :: uptrend 3) <> []) as H1
    by (vm_compute; discriminate).
  split; [exact H1|].
  exact (proj1 (run_strategy_w_valid_rows sqrt6 (zero_close_row :: uptrend 3) H1)).
Defined.

Lemma uptrend_4_defined : List.Forall defined_row (uptrend 4).
Proof.
  repeat (apply List.Forall_cons;
          [eexists _, _, _; split; [reflexivity|]; split; reflexivity|]).
  apply List.Forall_nil.
Qed.

Lemma di_dx_bounds_witness :
  List.Forall defined_row (uptrend 4) /\ 1 <= 1 /\ 1 + 1 <= length (uptrend 4) /\
  0 < length (uptrend 4) - 1 /\
  exists pdi mdi dx : Q,
    plus_di_series (uptrend 4) 1 !! 0 = Some (Some pdi) /\
    minus_di_series (uptrend 4) 1 !! 0 = Some (Some mdi) /\
    dx_series (uptrend 4) 1 !! 0 = Some (Some dx) /\
    (0 <= pdi)%Q /\ (0 <= mdi)%Q /\ (0 <= dx)%Q /\ (dx <= 100)%Q.
Proof.
  assert (1 <= 1) as H1 by lia.
  assert (1 + 1 <= length (uptrend 4)) as H2 by (vm_compute; lia).
  assert (0 < length (uptrend 4) - 1) as H3 by (vm_compute; lia).
  split; [exact uptrend_4_defined|]. split; [exact H1|]. split; [exact H2|].
  split; [exact H3|].
  destruct (di_dx_bounds (uptrend 4) 1 0 uptrend_4_defined H1 H2 H3) as [_ A].
  destruct (A ltac:(lia)) as (t & a & b & _ & _ & _ & _ & _ & _ & [[_ (B & _)]|[_ B]]).
  - vm_compute in B. discriminate B.
  - destruct B as (pdi & mdi & dx & B1 & B2 & B3 & _ & _ & B4).
    exists pdi, mdi, dx. split; [exact B1|]. split; [exact B2|].
    split; [exact B3|exact B4].
Defined.

Lemma ema_seed_is_moving_avg_witness :
  1 <= 3 /\ 3 <= length (uptrend 6) /\
  ema (uptrend 6) 3 close !! 2 = Some (Some (303 # 3)) /\
  moving_avg (uptrend 6) 3 close !! 2 = Some (Some (303 # 3)) /\
  ema (uptrend 6) 3 close !! 1 = Some NaN /\
  moving_avg (uptrend 6) 3 close !! 1 = Some NaN.
Proof.
  assert (1 <= 3) as H1 by lia.
  assert (3 <= length (uptrend 6)) as H2 by (vm_compute; lia).
  split; [exact H1|]. split; [exact H2|].
  destruct (ema_seed_is_moving_avg (uptrend 6) 3 close H1 H2) as (A & B & C).
  assert (ema_seed (uptrend 6) 3 close = Some (303 # 3)) as E
    by (vm_compute; reflexivity).
  rewrite E in A, B.
  split; [exact A|]. split; [exact B|]. exact (C 1 ltac:(lia)).
Defined.

Lemma run_strategy_short_history_witness :
  List.Forall positive_close (uptrend 12) /\ uptrend 12 <> [] /\
  length (uptrend 12) <= 50 /\
  output_row sqrt6 (uptrend 12) !! 7 = Some (PFloat (Some (0 # 100))).
Proof.
  assert (length (uptrend 12) <= 50) as H3 by (vm_compute; lia).
  split; [exact uptrend_12_positive|]. split; [exact uptrend_12_nonempty|].
  split; [exact H3|].
  exact (proj2 (proj2 (run_strategy_short_history sqrt6 (uptrend 12)
                         uptrend_12_positive uptrend_12_nonempty H3))).
Defined.


(** * The snapshot row *)

Lemma all_positive_row (row : ohlcv) :
  all_positive row = true <-> positive_row row.
Proof.
  unfold all_positive, positive_row. rewrite !andb_true_iff. split.
  - intros ((((Ho & Hh) & Hl) & Hc) & Hv).
    destruct (open row) as [o|], (high row) as [h|], (low row) as [l|],
      (close row) as [c|], (volume row) as [v|]; try done.
    exists o, h, l, c, v. split; [done|].
    apply fgt_lt in Ho, Hh, Hl, Hc, Hv. done.
  - intros (o & h & l & c & v & (-> & -> & -> & -> & ->) & Ho & Hh & Hl & Hc & Hv).
    rewrite !fgt_lt. done.
Qed.

Lemma weekly_data_none (hist : list ohlcv) :
  List.Forall (fun row => ~ positive_row row) hist -> weekly_data hist = [].
Proof.
  intros H. unfold weekly_data.
  assert (List.filter all_positive hist = []) as ->; [|done].
  induction H as [|row hist Hrow _ IH]; simpl; [done|].
  destruct (all_positive row) eqn:E; [|done].
  by apply all_positive_row in E.
Qed.

Lemma weekly_data_some (hist : list ohlcv) :
  List.Exists positive_row hist -> weekly_data hist <> [].
Proof.
  intros H. apply List.Exists_exists in H as (row & Hin & Hrow).
  apply all_positive_row in Hrow.
  assert (In row (List.filter all_positive hist)) as Hf by (by apply filter_In).
  unfold weekly_data. destruct (List.filter all_positive hist); [done|done].
Qed.

Lemma output_row_changes (sqrt : Q -> Q) (hist : list ohlcv) :
  snapshot_changes_daily hist (output_row sqrt hist).
Proof.
  unfold snapshot_changes_daily, snapshot_changes, output_row, macd, boll_bands.
  cbv zeta beta iota.
  assert ((if 10 <=? length hist - 1 then length hist - 1 - 10 else 0)
          = length hist - 1 - 10) as ->.
  { destruct (10 <=? length hist - 1) eqn:E; [done|]. apply Nat.leb_gt in E. lia. }
  split; [by eexists|done].
Qed.

Lemma output_row_w_changes (sqrt : Q -> Q) (data : list ohlcv) (row : list pyval) :
  output_row_w sqrt data = inr row -> snapshot_changes_weekly data row.
Proof.
  unfold snapshot_changes_weekly, snapshot_changes, output_row_w, macd, boll_bands.
  cbv zeta beta iota.
  replace (Nat.max (length data - 1 - 10) 0) with (length data - 1 - 10) by lia.
  destruct (price_ten_day_change_w _ _) as [e|c4]; [done|].
  cbn [bind ret]. intros [= <-]. split; [by exists c4|done].
Qed.

(** C9. Daily runner, for what the fetch returns: an empty list gives
    the one-row, one-cell result [[["ERROR: No data"]]] (and a failure [e] of
    the fetch gives [[["ERROR: " + e]]]); any other list gives one row of 17
    cells, each an optional number, in the snapshot order: price, ten-day
    price, DMA50, DMA200, the four percentage changes (price against ten-day
    price, price against DMA50, price against DMA200, DMA50 against DMA200),
    MACD line, signal and histogram, Bollinger upper, middle and lower, ADX,
    +DI, -DI.  Weekly runner, for the frame the download returns: an empty
    frame gives [[["ERROR: No data"]]], a frame none of whose rows has five
    positive values gives [[["ERROR: No valid trading days"]]], and a frame
    with such a row gives one row of 17 cells, each an optional number, in
    the same order, computed from the rows of positive values (nothing
    raises). *)
Theorem run_strategy_outcome (sqrt : Q -> Q) (hist : list ohlcv) :
  (run_strategy sqrt (inr []) = [[PStr "ERROR: No data"]] /\
   run_strategy_w sqrt (inr []) = [[PStr "ERROR: No data"]] /\
   forall e, run_strategy sqrt (inl e) = [[PStr ("ERROR: " ++ e)]] /\
             run_strategy_w sqrt (inl e) = [[PStr ("ERROR: " ++ e)]]) /\
  (hist <> [] ->
     exists row,
       run_strategy sqrt (inr hist) = [row] /\ row = output_row sqrt hist /\
       length row = 17 /\ List.Forall optional_value row /\
       snapshot_order rounded sqrt hist row /\
       snapshot_changes_daily hist row) /\
  (hist <> [] -> List.Forall (fun row => ~ positive_row row) hist ->
     run_strategy_w sqrt (inr hist) = [[PStr "ERROR: No valid trading days"]]) /\
  (List.Exists positive_row hist ->
     let data := weekly_data hist in
     exists row,
       run_strategy_w sqrt (inr hist) = [row] /\
       output_row_w sqrt data = inr row /\
       length row = 17 /\ List.Forall optional_value row /\
       snapshot_order PFloat sqrt data row /\
       snapshot_changes_weekly data row).
Proof.
  split; [done|]. split; [|split].
  - intros Hne. exists (output_row sqrt hist).
    split; [by destruct hist|]. split; [done|].
    split; [apply output_row_length|]. split; [apply output_row_optional|].
    split; [apply output_row_order | apply output_row_changes].
  - intros Hne Hnone. unfold run_strategy_w. cbn [bind].
    rewrite (weekly_data_none hist Hnone). by destruct hist.
  - intros Hsome data. pose proof (weekly_data_some hist Hsome) as Hne.
    fold data in Hne.
    destruct (output_row_w_returns sqrt data (weekly_data_positive hist) Hne)
      as (row & Hrow & Hlen & Hopt & Hord).
    exists row. split.
    { rewrite run_strategy_w_data by done. fold data. by rewrite Hrow. }
    split; [done|]. split; [done|]. split; [done|]. split; [done|].
    by apply (output_row_w_changes sqrt).
Qed.



Lemma run_strategy_outcome_witness :
  uptrend 3 <> [] /\
  List.Forall (fun row => ~ positive_row row) [zero_close_row] /\
  List.Exists positive_row (zero_close_row :: uptrend 3) /\
  (exists row,
     run_strategy sqrt6 (inr (uptrend 3)) = [row] /\ length row = 17 /\
     row !! 0 = Some (PFloat (Some (10200 # 100))) /\
     row !! 4 = Some (PFloat (Some (200 # 100))) /\
     row !! 8 = Some PNone) /\
  run_strategy_w sqrt6 (inr [zero_close_row])
    = [[PStr "ERROR: No valid trading days"]] /\
  (exists row,
     run_strategy_w sqrt6 (inr (zero_close_row :: uptrend 3)) = [row] /\
     length row = 17 /\
     row !! 0 = Some (PFloat (Some 102%Q)) /\
     row !! 1 = Some (PFloat (Some 100%Q)) /\
     row !! 4 = Some (PFloat (Some (200 # 100))) /\
     row !! 8 = Some (PFloat NaN)).
Proof.
  assert (uptrend 3 <> []) as H1 by (vm_compute; discriminate).
  assert ([zero_close_row] <> []) as H1' by discriminate.
  assert (List.Forall (fun row => ~ positive_row row) [zero_close_row]) as H2.
  { apply List.Forall_cons; [|apply List.Forall_nil].
    intros H. apply all_positive_row in H. vm_compute in H. discriminate H. }
  assert (List.Exists positive_row (zero_close_row :: uptrend 3)) as H3.
  { apply List.Exists_cons_tl, List.Exists_cons_hd, all_positive_row.
    vm_compute. reflexivity. }
  split; [exact H1|]. split; [exact H2|]. split; [exact H3|].
  destruct (run_strategy_outcome sqrt6 (uptrend 3)) as (_ & A & _ & _).
  destruct (run_strategy_outcome sqrt6 [zero_close_row]) as (_ & _ & B & _).
  destruct (run_strategy_outcome sqrt6 (zero_close_row :: uptrend 3))
    as (_ & _ & _ & C).
  split; [|split; [exact (B H1' H2)|]].
  - destruct (A H1) as (row & Hrun & _ & Hlen & _ & Hord & Hch).
    exists row. split; [exact Hrun|]. split; [exact Hlen|].
    destruct Hord as (H0 & _ & _ & _ & H8 & _).
    destruct Hch as ((v & Hv & H4) & _).
    injection Hv as <-.
    split; [rewrite H0; vm_compute; reflexivity|].
    split; [rewrite H4; vm_compute; reflexivity|].
    rewrite H8. vm_compute. reflexivity.
  - destruct (C H3) as (row & Hrun & _ & Hlen & _ & Hord & Hch).
    exists row. split; [exact Hrun|]. split; [exact Hlen|].
    destruct Hord as (H0 & H1w & _ & _ & H8 & _).
    destruct Hch as ((v & Hv & H4) & _).
    vm_compute in Hv. injection Hv as <-.
    split; [rewrite H0; vm_compute; reflexivity|].
    split; [rewrite H1w; vm_compute; reflexivity|].
    split; [exact H4|].
    rewrite H8. vm_compute. reflexivity.
Defined.


(** * Properties in binary64 *)

(** ** Wilder's smoothing *)

Lemma b64_at_lookup (l : list float) (i : nat) (x : float) :
  l !! i = Some x -> Binary64.at_ l i = x.
Proof. intros H. unfold Binary64.at_. by rewrite H. Qed.

(** The loop of [wilders_smooth] run up to index [n]: the entries outside
    [[p, n)] are those of the start list, the others follow the
    recurrence. *)
Lemma b64_wilders_loop (series : list float) (p n : nat) (init : list float) :
  1 <= p -> p <= n -> n <= length series -> length init = length series ->
  let out := fold_left (Binary64.wilders_step series p) (range p n) init in
  length out = length series /\
  (forall j, j < p \/ n <= j -> out !! j = init !! j) /\
  (forall i, p <= i -> i < n ->
     out !! i =
     Some ((Binary64.at_ out (i - 1) * Binary64.of_nat (p - 1)
            + Binary64.at_ series i) / Binary64.of_nat p)%float).
Proof.
  intros Hp Hle Hn Hinit. induction Hle as [|n Hle IH].
  - unfold range. rewrite Nat.sub_diag. simpl.
    split; [done|]. split; [done|]. intros i Hi Hlt. lia.
  - destruct IH as (Hlen & Hout & Hrec); [lia|].
    rewrite range_snoc by done. rewrite fold_left_app. simpl.
    set (out := fold_left (Binary64.wilders_step series p) (range p n) init) in *.
    set (x := ((Binary64.at_ out (n - 1) * Binary64.of_nat (p - 1)
                + Binary64.at_ series n) / Binary64.of_nat p)%float).
    change (Binary64.wilders_step series p out n) with (<[n:=x]> out).
    split; [by rewrite length_insert|]. split.
    + intros j Hj. rewrite list_lookup_insert_ne by lia. apply Hout. lia.
    + intros i Hi Hlt.
      assert (Binary64.at_ (<[n:=x]> out) (i - 1) = Binary64.at_ out (i - 1)) as ->.
      { unfold Binary64.at_. by rewrite list_lookup_insert_ne by lia. }
      destruct (decide (i = n)) as [->|Hne].
      * apply list_lookup_insert_eq. lia.
      * rewrite list_lookup_insert_ne by lia. apply Hrec; lia.
Qed.

(** What the binary64 [wilders_smooth] returns, index by index. *)
Lemma b64_wilders_smooth_spec (np_sum : list float -> float) (series : list float)
    (p : nat) :
  1 <= p -> p <= length series ->
  let out := Binary64.wilders_smooth np_sum series p in
  length out = length series /\
  (forall j, j < p - 1 -> out !! j = Some PrimFloat.nan) /\
  out !! (p - 1) = Some (Binary64.mean np_sum (take p series)) /\
  (forall i, p <= i -> i < length series ->
     out !! i =
     Some ((Binary64.at_ out (i - 1) * Binary64.of_nat (p - 1)
            + Binary64.at_ series i) / Binary64.of_nat p)%float).
Proof.
  intros Hp Hlen out. unfold out, Binary64.wilders_smooth.
  assert ((length series <? p) = false) as -> by (apply Nat.ltb_ge; lia).
  set (init := <[p - 1:=Binary64.mean np_sum (take p series)]>
                 (replicate (length series) PrimFloat.nan)).
  assert (length init = length series) as Hinit
    by (unfold init; by rewrite length_insert, length_replicate).
  destruct (b64_wilders_loop series p (length series) init Hp Hlen (le_n _) Hinit)
    as (Hl & Hout & Hrec).
  split; [done|]. split; [|split; [|done]].
  - intros j Hj. rewrite Hout by lia. unfold init.
    rewrite list_lookup_insert_ne by lia. apply lookup_replicate_2. lia.
  - rewrite Hout by lia. unfold init. apply list_lookup_insert_eq.
    rewrite length_replicate. lia.
Qed.

(** C5, as the code has it.  For every period [p >= 1], binary64 value
    [v] and length [m >= p], Wilder's smoothing of the constant series of
    [m] values [v] is a list of length [m] that is NaN at every index below
    [p-1], holds the mean of [p] values [v] at index [p-1] and
    [(out[i-1]*(p-1) + v) / p] at every index [i >= p]; its value at every
    index from [p-1] on is exactly [v] when this mean and one step of the
    recurrence taken at [v] return [v] in binary64. *)
Theorem wilders_smooth_constant (np_sum : list float -> float) (p m : nat)
    (v : float) :
  1 <= p -> p <= m ->
  let s := replicate m v in
  let out := Binary64.wilders_smooth np_sum s p in
  length out = m /\
  (forall i, i < p - 1 -> out !! i = Some PrimFloat.nan) /\
  out !! (p - 1) = Some (Binary64.mean np_sum (replicate p v)) /\
  (forall i, p <= i -> i < m ->
     out !! i =
     Some ((Binary64.at_ out (i - 1) * Binary64.of_nat (p - 1) + v)
           / Binary64.of_nat p)%float) /\
  (Binary64.mean np_sum (replicate p v) = v ->
   ((v * Binary64.of_nat (p - 1) + v) / Binary64.of_nat p)%float = v ->
   forall i, p - 1 <= i -> i < m -> out !! i = Some v).
Proof.
  intros Hp Hm s out.
  assert (length s = m) as Hs by apply length_replicate.
  destruct (b64_wilders_smooth_spec np_sum s p Hp) as (Hlen & Hlow & Hseed & Hrec);
    [lia|].
  fold out in Hlen, Hlow, Hseed, Hrec. rewrite Hs in *.
  assert (take p s = replicate p v) as Htake
    by (unfold s; by rewrite take_replicate, Nat.min_l by lia).
  rewrite Htake in Hseed.
  assert (forall i, i < m -> Binary64.at_ s i = v) as Hat.
  { intros i Hi. apply b64_at_lookup. unfold s. by apply lookup_replicate_2. }
  split; [done|]. split; [done|]. split; [done|]. split.
  - intros i Hi Hlt. rewrite Hrec by done. by rewrite Hat.
  - intros Hmean Hstep i Hi Hlt.
    assert (exists d, i = p - 1 + d) as [d ->] by (exists (i - (p - 1)); lia).
    clear Hi. induction d as [|d IH].
    + by rewrite Nat.add_0_r, Hseed, Hmean.
    + rewrite Hrec by lia.
      replace (p - 1 + S d - 1) with (p - 1 + d) by lia.
      rewrite (b64_at_lookup _ _ _ (IH ltac:(lia))), Hat by done.
      by rewrite Hstep.
Qed.

(** C5, as the spec states it, fails.  The constant series of five values
    0.1 (the binary64 number closest to 0.1), smoothed with period 3: the
    sum of three of them rounds up, and the value at the three defined
    indices is the next binary64 number above 0.1
    (0.10000000000000002), not the value of the series. *)
Lemma wilders_smooth_constant_rounds :
  let out := Binary64.wilders_smooth Binary64.sum_left (replicate 5 tenth) 3 in
  let above := 0x1.999999999999bp-4%float in
  out = [PrimFloat.nan; PrimFloat.nan; above; above; above] /\
  out !! 2 <> Some tenth /\ out !! 3 <> Some tenth /\ out !! 4 <> Some tenth.
Proof. vm_compute. repeat split; discriminate. Qed.

Lemma wilders_smooth_constant_witness :
  1 <= 3 /\ 3 <= 5 /\
  Binary64.mean Binary64.sum_left (replicate 3 fifty) = fifty /\
  ((fifty * Binary64.of_nat (3 - 1) + fifty) / Binary64.of_nat 3)%float = fifty /\
  Binary64.wilders_smooth Binary64.sum_left (replicate 5 fifty) 3 !! 1 = Some PrimFloat.nan /\
  Binary64.wilders_smooth Binary64.sum_left (replicate 5 fifty) 3 !! 2 = Some fifty /\
  Binary64.wilders_smooth Binary64.sum_left (replicate 5 fifty) 3 !! 4 = Some fifty.
Proof.
  assert (1 <= 3) as H1 by lia. assert (3 <= 5) as H2 by lia.
  assert (Binary64.mean Binary64.sum_left (replicate 3 fifty) = fifty) as H3
    by (vm_compute; reflexivity).
  assert (((fifty * Binary64.of_nat (3 - 1) + fifty) / Binary64.of_nat 3)%float = fifty)
    as H4 by (vm_compute; reflexivity).
  destruct (wilders_smooth_constant Binary64.sum_left 3 5 fifty H1 H2)
    as (_ & A & _ & _ & B).
  split; [exact H1|]. split; [exact H2|]. split; [exact H3|]. split; [exact H4|].
  split; [exact (A 1 ltac:(lia))|].
  split; [exact (B H3 H4 2 ltac:(lia) ltac:(lia))
         |exact (B H3 H4 4 ltac:(lia) ltac:(lia))].
Defined.

(** ** Bollinger bands *)

Lemma b64_lookup_boll_bands {R : Type} (np_sum : list float -> float)
    (data : list R) (col_idx : R -> float) (period : nat) (std_dev : float)
    (i : nat) :
  i < length data ->
  let bands := Binary64.boll_bands np_sum data col_idx period std_dev in
  let row := Binary64.boll_bands_at np_sum data col_idx period std_dev i in
  bands.1.1 !! i = Some row.1.1 /\ bands.1.2 !! i = Some row.1.2 /\
  bands.2 !! i = Some row.2.
Proof.
  intros Hi bands row. subst bands. unfold Binary64.boll_bands. cbn [fst snd].
  set (rows := map _ (range 0 (length data))).
  assert (rows !! i = Some row) as Hrow
    by (unfold rows; by rewrite (lookup_map_range _ 0 (length data) i) by lia).
  rewrite !lookup_map, Hrow. done.
Qed.

(** C8, as the code has it.  For every series, column, period,
    multiplier and index [i] of the series.  Where the bands are defined
    ([i >= period-1] and the window of the defined values over
    [[i-period+1, i]] is not empty): the middle band is the mean [m] of the
    window, the deviation [s] is the square root of the mean of the squared
    deviations from [m] (the divisor is the window size), the upper band is
    [m + s * std_dev] and the lower band is [m - s * std_dev], the same [m]
    and the same offset [s * std_dev] in both, each operation rounded to
    binary64.  Elsewhere the three bands are NaN. *)
Theorem boll_bands_offsets {R : Type} (np_sum : list float -> float)
    (data : list R) (col_idx : R -> float) (period : nat) (std_dev : float)
    (i : nat) :
  i < length data ->
  let bands := Binary64.boll_bands np_sum data col_idx period std_dev in
  let window :=
    List.filter Binary64.notna
      (map (Binary64.cell col_idx data) (range (i + 1 - period) (i + 1))) in
  let m := Binary64.mean np_sum window in
  let s :=
    PrimFloat.sqrt
      (np_sum (map (fun x => ((x - m) * (x - m))%float) window)
       / Binary64.of_nat (length window))%float in
  (period <= i + 1 -> window <> [] ->
     Binary64.np_std np_sum window = s /\
     bands.1.2 !! i = Some m /\
     bands.1.1 !! i = Some (m + s * std_dev)%float /\
     bands.2 !! i = Some (m - s * std_dev)%float) /\
  (i + 1 < period \/ window = [] ->
     bands.1.1 !! i = Some PrimFloat.nan /\ bands.1.2 !! i = Some PrimFloat.nan /\
     bands.2 !! i = Some PrimFloat.nan).
Proof.
  intros Hi bands window m s.
  destruct (b64_lookup_boll_bands np_sum data col_idx period std_dev i Hi)
    as (Hu & Hm & Hl).
  fold bands in Hu, Hm, Hl. rewrite Hu, Hm, Hl.
  unfold Binary64.boll_bands_at. fold window.
  assert (Binary64.np_std np_sum window = s) as Hstd.
  { unfold Binary64.np_std, s, m. unfold Binary64.mean at 1.
    by rewrite length_map. }
  split.
  - intros Hge Hne.
    assert ((Z.of_nat i <? Z.of_nat period - 1)%Z = false) as ->
      by (apply Z.ltb_ge; lia).
    assert ((length window =? 0) = false) as ->
      by (apply Nat.eqb_neq; by destruct window).
    cbn [fst snd]. by rewrite Hstd.
  - intros [Hlt|Hnil].
    + assert ((Z.of_nat i <? Z.of_nat period - 1)%Z = true) as ->
        by (apply Z.ltb_lt; lia). done.
    + destruct (Z.of_nat i <? Z.of_nat period - 1)%Z; [done|].
      by rewrite Hnil.
Qed.

(** C8, as the spec states it, fails.  On the two closes 250.1 and 262.3,
    with period 2 and multiplier 2, the bands at index 1 are 268.4, 256.2
    and 243.99999999999997: [upper - middle] is 12.199999999999989 and
    [middle - lower] is 12.200000000000017.  (The two differences are taken
    in binary64; were the exact differences equal, their roundings would be
    equal too.) *)
Lemma boll_bands_asymmetric :
  let bands := Binary64.boll_bands Binary64.sum_left two_closes only_column 2 2%float in
  let upper := 0x1.0c66666666666p+8%float in
  let middle := 0x1.0033333333333p+8%float in
  let lower := 0x1.e7fffffffffffp+7%float in
  (bands.1.1 !! 1 = Some upper /\ bands.1.2 !! 1 = Some middle /\
   bands.2 !! 1 = Some lower) /\
  (upper - middle)%float = 0x1.8666666666660p+3%float /\
  (middle - lower)%float = 0x1.8666666666670p+3%float /\
  (upper - middle)%float <> (middle - lower)%float.
Proof. vm_compute. repeat split; discriminate. Qed.

Lemma boll_bands_offsets_witness :
  1 < length two_closes /\ 2 <= 1 + 1 /\
  (let bands := Binary64.boll_bands Binary64.sum_left two_closes only_column 2 2%float in
   let m := Binary64.mean Binary64.sum_left two_closes in
   let s := Binary64.np_std Binary64.sum_left two_closes in
   m = 0x1.0033333333333p+8%float /\ s = 0x1.8666666666670p+2%float /\
   bands.1.2 !! 1 = Some m /\
   bands.1.1 !! 1 = Some (m + s * 2)%float /\
   bands.2 !! 1 = Some (m - s * 2)%float) /\
  (Binary64.boll_bands Binary64.sum_left two_closes only_column 2 2%float).1.2 !! 0
    = Some PrimFloat.nan.
Proof.
  assert (1 < length two_closes) as H1 by (vm_compute; lia).
  assert (0 < length two_closes) as H0 by (vm_compute; lia).
  assert (2 <= 1 + 1) as H2 by lia.
  split; [exact H1|]. split; [exact H2|].
  destruct (boll_bands_offsets Binary64.sum_left two_closes only_column 2 2%float 1 H1)
    as [A _].
  destruct (boll_bands_offsets Binary64.sum_left two_closes only_column 2 2%float 0 H0)
    as [_ B].
  split.
  - destruct (A H2) as (_ & Hm & Hu & Hl); [vm_compute; discriminate|].
    cbv zeta. split; [vm_compute; reflexivity|]. split; [vm_compute; reflexivity|].
    split; [exact Hm|]. split; [exact Hu|exact Hl].
  - destruct B as (_ & Hm & _); [left; lia|]. exact Hm.
Defined.
